(** * synapse_uploader: a shallow embedding of [SynapseUploader]

    The program mirrors a local directory tree into a Synapse project.  The
    embedding follows [synapse_uploader.py]: Python strings are [string]s of
    Latin-1 code points, the folder cache [_synapse_folders] is a [gmap]
    from remote path strings to entities, and the effects of the methods
    (console lines, calls of the Synapse client, raised exceptions) are
    threaded through a small state-and-exception monad. *)

From Stdlib Require Import Ascii String List Bool Arith Lia.
From stdpp Require Import base option gmap strings list fin_maps.

Local Open Scope string_scope.
Import ListNotations.

(** ** Python string operations *)

Module PyStr.

(** [os.sep] on POSIX. *)
Definition sep : ascii := "/"%char.

Definition is_sep (c : ascii) : bool := Ascii.eqb c sep.

(** [str.isspace] on one code point below 256: TAB..CR, FS..US, SPACE,
    NEL and NBSP. *)
Definition is_space (c : ascii) : bool :=
  let n := nat_of_ascii c in
  (Nat.leb 9 n && Nat.leb n 13) || (Nat.leb 28 n && Nat.leb n 32)
  || Nat.eqb n 133 || Nat.eqb n 160.

Definition is_empty (s : string) : bool :=
  match s with EmptyString => true | String _ _ => false end.

(** Every character of [s] satisfies [p]. *)
Fixpoint all_chars (p : ascii -> bool) (s : string) : bool :=
  match s with
  | EmptyString => true
  | String c s' => p c && all_chars p s'
  end.

(** [s.startswith(pre)]. *)
Fixpoint startswith (pre s : string) : bool :=
  match pre, s with
  | EmptyString, _ => true
  | String a pre', String b s' => Ascii.eqb a b && startswith pre' s'
  | String _ _, EmptyString => false
  end.

(** [s.lstrip(chars)] with the character set given as a predicate. *)
Fixpoint lstrip (p : ascii -> bool) (s : string) : string :=
  match s with
  | EmptyString => EmptyString
  | String c s' => if p c then lstrip p s' else s
  end.

(** [s.rstrip(chars)]. *)
Fixpoint rstrip (p : ascii -> bool) (s : string) : string :=
  match s with
  | EmptyString => EmptyString
  | String c s' =>
      let r := rstrip p s' in
      if p c && is_empty r then EmptyString else String c r
  end.

(** [s.strip()]: white space removed at both ends. *)
Definition strip (s : string) : string := rstrip is_space (lstrip is_space s).

(** [s.startswith(sep)] and [s.endswith(sep)]. *)
Definition starts_with_sep (s : string) : bool :=
  match s with String c _ => is_sep c | EmptyString => false end.

Fixpoint ends_with_sep (s : string) : bool :=
  match s with
  | EmptyString => false
  | String c EmptyString => is_sep c
  | String _ s' => ends_with_sep s'
  end.

Fixpoint has_sep (s : string) : bool :=
  match s with
  | EmptyString => false
  | String c s' => is_sep c || has_sep s'
  end.

(** [s.split(os.sep)]: never the empty list, [''.split('/') = ['']]. *)
Fixpoint split (s : string) : list string :=
  match s with
  | EmptyString => [EmptyString]
  | String c s' =>
      if is_sep c then EmptyString :: split s'
      else match split s' with
           | h :: t => String c h :: t
           | [] => [String c EmptyString]
           end
  end.

(** [filter(None, l)] on a list of strings keeps the non-empty ones. *)
Definition filter_None (l : list string) : list string :=
  List.filter (fun s => negb (is_empty s)) l.

(** [s.replace(old, new)].  The scan goes left to right; [skip] counts the
    characters of a match that are still to be dropped. *)
Fixpoint replace_from (old new : string) (skip : nat) (s : string) : string :=
  match s with
  | EmptyString => EmptyString
  | String c s' =>
      match skip with
      | S k => replace_from old new k s'
      | O =>
          if startswith old s
          then new ++ replace_from old new (String.length old - 1) s'
          else String c (replace_from old new 0 s')
      end
  end.

Fixpoint intersperse (new s : string) : string :=
  match s with
  | EmptyString => new
  | String c s' => new ++ String c (intersperse new s')
  end.

Definition replace (s old new : string) : string :=
  if is_empty old then intersperse new s else replace_from old new 0 s.

End PyStr.

(** ** [os.path] (posixpath) *)

Module os_path.
Import PyStr.

(** One step of [posixpath.join]: an absolute component resets the path. *)
Definition join2 (path b : string) : string :=
  if starts_with_sep b then b
  else if is_empty path || ends_with_sep path then path ++ b
  else path ++ String sep b.

(** [os.path.join(a, *p)]. *)
Definition join (a : string) (p : list string) : string := fold_left join2 p a.

(** [p[:p.rfind(sep) + 1]]. *)
Fixpoint head_of (p : string) : string :=
  match p with
  | EmptyString => EmptyString
  | String c p' =>
      if has_sep p' then String c (head_of p')
      else if is_sep c then String c EmptyString
      else EmptyString
  end.

(** [p[p.rfind(sep) + 1:]], which is [os.path.basename]. *)
Fixpoint basename (p : string) : string :=
  match p with
  | EmptyString => EmptyString
  | String c p' => if has_sep p' then basename p'
                   else if is_sep c then p' else p
  end.

(** [os.path.dirname]: the head, without its trailing separators unless
    it consists of separators only ([head != sep * len(head)]). *)
Definition dirname (p : string) : string :=
  let head := head_of p in
  if negb (is_empty head) && negb (all_chars is_sep head)
  then rstrip is_sep head
  else head.

End os_path.

Import PyStr os_path.

(** ** Entities and the Synapse client *)

Inductive EntityType := ProjectT | FolderT | FileT.

(** An entity of [synapseclient]: a project, folder or file.  [ent_name] is
    the folder name, or the local path of a file; [ent_parent] is the
    identifier of the parent handle given to the constructor; [ent_id] is
    set once Synapse (or the dry run) has given the entity an identifier. *)
Record Entity := mkEntity {
  ent_type : EntityType;
  ent_name : string;
  ent_parent : option string;
  ent_id : option string
}.

(** [Project(id = i)]. *)
Definition Project (i : string) : Entity := mkEntity ProjectT "" None (Some i).

(** [Folder(name, parent = p)] and [File(path, parent = p)].  The
    constructor of an entity takes the identifier of the parent handle
    ([id_of(parent)]) and raises [SynapseMalformedEntityError] when the
    handle has none: [None] here. *)
Definition Folder (name : string) (parent : Entity) : option Entity :=
  match ent_id parent with
  | Some i => Some (mkEntity FolderT name (Some i) None)
  | None => None
  end.
Definition File (path : string) (parent : Entity) : option Entity :=
  match ent_id parent with
  | Some i => Some (mkEntity FileT path (Some i) None)
  | None => None
  end.

(** [entity.id = i]. *)
Definition set_id (e : Entity) (i : string) : Entity :=
  mkEntity (ent_type e) (ent_name e) (ent_parent e) (Some i).

(** What the program asks of the Synapse client, in the order it asks. *)
Inductive request :=
| NewClient                          (* synapseclient.Synapse() *)
| Login (user password : string)     (* client.login(user, password, silent=True) *)
| Get (e : Entity)                   (* client.get(e) *)
| Store (e : Entity).                (* client.store(e, forceVersion=False) *)

(** The remote store is an external collaborator: its answers may depend on
    every request made before, and each call may fail. *)
Record Synapse := mkSynapse {
  login_ok : list request -> string -> string -> bool;
  get_result : list request -> Entity -> option Entity;
  store_result : list request -> Entity -> option Entity
}.

(** ** The local file system as [os.walk] sees it *)

Inductive tree :=
| Dir (dirs : forest) (files : list string)
with forest :=
| NoDirs
| SubDir (name : string) (t : tree) (rest : forest).

(** The [dirnames] of a listing. *)
Fixpoint dirnames (ds : forest) : list string :=
  match ds with
  | NoDirs => []
  | SubDir n _ rest => n :: dirnames rest
  end.

Scheme tree_forest_ind := Induction for tree Sort Prop
  with forest_tree_ind := Induction for forest Sort Prop.
Combined Scheme tree_forest_mutind from tree_forest_ind, forest_tree_ind.

(** [os.walk(top)] on the directory [t] found at [top], top-down: the triple
    of the directory itself, then the walks of its sub-directories
    [os.path.join(top, name)] in listing order.  A sub-directory that
    [os.walk] does not enter (a symbolic link, a directory that cannot be
    listed) is left out of the tree: the program never reads [dirnames]. *)
Fixpoint walk (top : string) (t : tree) : list (string * list string * list string) :=
  match t with
  | Dir ds fs => (top, dirnames ds, fs) :: walk_dirs top ds
  end
with walk_dirs (top : string) (ds : forest) : list (string * list string * list string) :=
  match ds with
  | NoDirs => []
  | SubDir n t rest => (walk (join top [n]) t ++ walk_dirs top rest)%list
  end.

(** The environment of one run: [os.environ], the Synapse service and the
    file system ([fs p] is the directory at path [p], [None] when [p] is not
    a directory that can be listed, in which case [os.walk] yields nothing). *)
Record World := mkWorld {
  environ : gmap string string;
  synapse : Synapse;
  fs : string -> option tree
}.

Definition os_walk (W : World) (top : string) : list (string * list string * list string) :=
  match fs W top with
  | Some t => walk top t
  | None => []
  end.

(** ** The uploader object *)

Record SynapseUploader := mkUploader {
  _dry_run : bool;
  _synapse_project : string;
  _local_path : string;
  _remote_path : option string;
  _synapse_folders : gmap string Entity;
  _synapse_client : bool     (* whether [login] has set the attribute *)
}.

Definition set_folders (s : SynapseUploader) (m : gmap string Entity) : SynapseUploader :=
  mkUploader (_dry_run s) (_synapse_project s) (_local_path s) (_remote_path s)
    m (_synapse_client s).

Definition set_client (s : SynapseUploader) : SynapseUploader :=
  mkUploader (_dry_run s) (_synapse_project s) (_local_path s) (_remote_path s)
    (_synapse_folders s) true.

(** [SynapseUploader.__init__]. *)
Definition __init__ (synapse_project local_path : string)
    (remote_path : option string) (dry_run : bool) : SynapseUploader :=
  let rp :=
    match remote_path with
    | Some r =>
        if (0 <? String.length (strip r))%nat then
          let r' := rstrip is_sep (lstrip is_sep (strip r)) in
          if (String.length r' =? 0)%nat then None else Some r'
        else None
    | None => None
    end in
  mkUploader dry_run synapse_project (rstrip is_sep local_path) rp ∅ false.

(** ** Effects: console, client calls, exceptions *)

Inductive exn :=
| KeyError (key : string)        (* a missing dictionary or environment key *)
| AttributeError (attr : string) (* [self._synapse_client] before [login] *)
| SynapseError (r : request)     (* the client call [r] failed *)
| SynapseMalformedEntityError.   (* an entity built on a parent without id *)

Inductive Outcome (A : Type) :=
| Ok (a : A)
| Raise (e : exn).
Arguments Ok {A} a.
Arguments Raise {A} e.

Record State := mkState {
  self : SynapseUploader;
  stdout : list string;        (* the lines printed so far *)
  requests : list request      (* the client calls made so far *)
}.

Definition M (A : Type) : Type := State -> Outcome A * State.

Definition ret {A} (a : A) : M A := fun st => (Ok a, st).
Definition raise {A} (e : exn) : M A := fun st => (Raise e, st).
Definition bind {A B} (m : M A) (k : A -> M B) : M B :=
  fun st => match m st with
            | (Ok a, st') => k a st'
            | (Raise e, st') => (Raise e, st')
            end.

Notation "'let*' x ':=' m 'in' k" := (bind m (fun x => k))
  (at level 10, x name, m at level 100, k at level 200).
Notation "m ;; k" := (bind m (fun _ => k))
  (at level 100, k at level 200, right associativity).

(** [for x in l: body(x)]. *)
Fixpoint for_each {A} (l : list A) (body : A -> M unit) : M unit :=
  match l with
  | [] => ret tt
  | x :: l' => body x ;; for_each l' body
  end.

Definition read {A} (f : SynapseUploader -> A) : M A := fun st => (Ok (f (self st)), st).

Definition print (line : string) : M unit :=
  fun st => (Ok tt, mkState (self st) (stdout st ++ [line])%list (requests st)).

(** ** The methods of [SynapseUploader] *)

Section Methods.
Variable W : World.

(** [os.environ[key]]. *)
Definition os_environ (key : string) : M string :=
  match environ W !! key with
  | Some v => ret v
  | None => raise (KeyError key)
  end.

(** A call of a method of [self._synapse_client]: the request is logged,
    then the service answers or the call raises. *)
Definition client_call {A} (r : request) (answer : list request -> option A) : M A :=
  fun st =>
    if _synapse_client (self st) then
      let st' := mkState (self st) (stdout st) (requests st ++ [r])%list in
      match answer (requests st) with
      | Some e => (Ok e, st')
      | None => (Raise (SynapseError r), st')
      end
    else (Raise (AttributeError "_synapse_client"), st).

Definition client_get (e : Entity) : M Entity :=
  client_call (Get e) (fun h => get_result (synapse W) h e).

Definition client_store (e : Entity) : M Entity :=
  client_call (Store e) (fun h => store_result (synapse W) h e).

Definition client_login (user password : string) : M unit :=
  client_call (Login user password)
    (fun h => if login_ok (synapse W) h user password then Some tt else None).

(** [self._synapse_client = synapseclient.Synapse()]. *)
Definition new_client : M unit :=
  fun st =>
    (Ok tt, mkState (set_client (self st)) (stdout st) (requests st ++ [NewClient])%list).

(** Reading [self._synapse_client], which comes before the arguments of the
    call are evaluated. *)
Definition the_client : M unit :=
  fun st =>
    if _synapse_client (self st) then (Ok tt, st)
    else (Raise (AttributeError "_synapse_client"), st).

(** The call of the constructor of an entity. *)
Definition construct (entity : option Entity) : M Entity :=
  match entity with
  | Some e => ret e
  | None => raise SynapseMalformedEntityError
  end.

Definition get_synapse_folder (synapse_path : string) : M Entity :=
  fun st => match _synapse_folders (self st) !! synapse_path with
            | Some e => (Ok e, st)
            | None => (Raise (KeyError synapse_path), st)
            end.

Definition set_synapse_folder (synapse_path : string) (parent : Entity) : M unit :=
  fun st =>
    (Ok tt,
     mkState (set_folders (self st) (<[synapse_path := parent]> (_synapse_folders (self st))))
             (stdout st) (requests st)).

Definition login : M unit :=
  print "Logging into Synapse..." ;;
  let* syn_user := os_environ "SYNAPSE_USER" in
  let* syn_pass := os_environ "SYNAPSE_PASSWORD" in
  new_client ;;
  client_login syn_user syn_pass.

(** [self._remote_path if self._remote_path else '']. *)
Definition remote_path_or_empty (s : SynapseUploader) : string :=
  match _remote_path s with
  | Some r => if is_empty r then "" else r
  | None => ""
  end.

Definition get_synapse_path (s : SynapseUploader) (local_path : string)
    (virtual_path : bool) : string :=
  if virtual_path then join (_synapse_project s) [local_path]
  else join (_synapse_project s)
            [remote_path_or_empty s;
             replace local_path (_local_path s ++ String sep "") ""].

Definition create_directory_in_synapse (path : string) (virtual_path : bool) : M unit :=
  print ("Processing Folder: " ++ path) ;;
  let* s := read (fun s => s) in
  let full_synapse_path := get_synapse_path s path virtual_path in
  let synapse_parent_path := dirname full_synapse_path in
  let* synapse_parent := get_synapse_folder synapse_parent_path in
  let folder_name := basename full_synapse_path in
  print ("  -> " ++ full_synapse_path) ;;
  let* synapse_folder := construct (Folder folder_name synapse_parent) in
  let* synapse_folder :=
    (if _dry_run s then ret (set_id synapse_folder "syn0")
     else client_store synapse_folder) in
  set_synapse_folder full_synapse_path synapse_folder.

Definition upload_file_to_synapse (local_file : string) : M unit :=
  print ("Processing File: " ++ local_file) ;;
  let* s := read (fun s => s) in
  let full_synapse_path := get_synapse_path s local_file false in
  let synapse_parent_path := dirname full_synapse_path in
  let* synapse_parent := get_synapse_folder synapse_parent_path in
  print ("  -> " ++ full_synapse_path) ;;
  if negb (_dry_run s)
  then the_client ;;
       let* file := construct (File local_file synapse_parent) in
       client_store file ;; ret tt
  else ret tt.

(** Lines 50-55 of [start]: the folders of the remote path, root to leaf.
    [full_path] is the loop variable of the same name. *)
Fixpoint create_remote_folders (full_path : string) (folders : list string) : M unit :=
  match folders with
  | [] => ret tt
  | folder :: rest =>
      let full_path := join full_path [folder] in
      create_directory_in_synapse full_path true ;;
      create_remote_folders full_path rest
  end.

Definition create_remote_path : M unit :=
  let* remote_path := read _remote_path in
  match remote_path with
  | Some rp => create_remote_folders "" (filter_None (split rp))
  | None => ret tt
  end.

(** Lines 57-65 of [start]: the body of the walk for one triple. *)
Definition visit (entry : string * list string * list string) : M unit :=
  let '(dirpath, _, filenames) := entry in
  let* local_path := read _local_path in
  (if negb (String.eqb dirpath local_path)
   then create_directory_in_synapse dirpath false
   else ret tt) ;;
  for_each filenames (fun filename =>
    let full_file_name := join dirpath [filename] in
    upload_file_to_synapse full_file_name).

Definition upload_tree : M unit :=
  let* local_path := read _local_path in
  for_each (os_walk W local_path) visit.

Definition start : M unit :=
  let* s := read (fun s => s) in
  (if _dry_run s then print "~~ Dry Run ~~" else ret tt) ;;
  print ("Uploading to Project: " ++ _synapse_project s) ;;
  print ("Uploading Directory: " ++ _local_path s) ;;
  match _remote_path s with
  | Some rp => print ("Uploading To: " ++ rp)
  | None => ret tt
  end ;;
  login ;;
  let* project := client_get (Project (_synapse_project s)) in
  set_synapse_folder (_synapse_project s) project ;;
  create_remote_path ;;
  upload_tree ;;
  if _dry_run s then print "Dry Run Completed Successfully."
  else print "Upload Completed Successfully.".

End Methods.

(** [SynapseUploader(project, local, remote_path, dry_run).start()] in the
    world [W], from an empty console and no client call. *)
Definition run (W : World) (synapse_project local_path : string)
    (remote_path : option string) (dry_run : bool) : Outcome unit * State :=
  start W (mkState (__init__ synapse_project local_path remote_path dry_run) [] []).

(** ** Vocabulary of the specification *)

(** The console lines that announce a folder or a file. *)
Definition folder_line (path : string) : string := "Processing Folder: " ++ path.
Definition file_line (path : string) : string := "Processing File: " ++ path.
Definition arrow_line (synapse_path : string) : string := "  -> " ++ synapse_path.

Definition processing_lines (out : list string) : list string :=
  List.filter (startswith "Processing") out.
Definition folder_lines (out : list string) : list string :=
  List.filter (startswith "Processing Folder: ") out.
Definition file_lines (out : list string) : list string :=
  List.filter (startswith "Processing File: ") out.

(** What [start] prints before it logs in. *)
Definition header_lines (s : SynapseUploader) : list string :=
  ((if _dry_run s then ["~~ Dry Run ~~"] else [])
   ++ [("Uploading to Project: " ++ _synapse_project s)%string;
       ("Uploading Directory: " ++ _local_path s)%string]
   ++ match _remote_path s with
      | Some rp => [("Uploading To: " ++ rp)%string]
      | None => []
      end)%list.

(** The claim that a dry run calls the client not at all. *)
Definition dry_run_makes_no_call (W : World) (synapse_project local_path : string)
    (remote_path : option string) : Prop :=
  requests (snd (run W synapse_project local_path remote_path true)) = [].

Definition is_store (r : request) : bool :=
  match r with Store _ => true | _ => false end.

(** The claim that a dry run makes no [store] call and prints the
    [Processing] lines of the real run of the same configuration. *)
Definition dry_run_prints_the_same (W : World) (synapse_project local_path : string)
    (remote_path : option string) : Prop :=
  let dry := run W synapse_project local_path remote_path true in
  let real := run W synapse_project local_path remote_path false in
  existsb is_store (requests (snd dry)) = false
  /\ processing_lines (stdout (snd dry)) = processing_lines (stdout (snd real)).

(** [p] with [pre] removed from its front, when [p] starts with [pre]. *)
Fixpoint remove_front (pre p : string) : string :=
  match pre, p with
  | EmptyString, _ => p
  | String a pre', String b p' => if Ascii.eqb a b then remove_front pre' p' else p
  | String _ _, EmptyString => p
  end.

(** The remote path of a local path as the specification words it: the
    project identifier, the remote prefix if one is configured, and the
    local path without the local root in front, joined. *)
Definition resolve_remote_path (s : SynapseUploader) (local_path : string) : string :=
  let relative := remove_front (_local_path s ++ String sep "") local_path in
  match _remote_path s with
  | Some rp => join (_synapse_project s) [rp; relative]
  | None => join (_synapse_project s) [relative]
  end.

(** The cumulative paths of a list of segments, root to leaf:
    [a], [a/b], [a/b/c], ... *)
Fixpoint cumulative_from (acc : string) (segments : list string) : list string :=
  match segments with
  | [] => []
  | x :: rest =>
      let acc' := if is_empty acc then x else acc ++ String sep x in
      acc' :: cumulative_from acc' rest
  end.
Definition cumulative_paths (segments : list string) : list string :=
  cumulative_from "" segments.

(** The triples of the walk that [upload_tree] visits, and their parts. *)
Definition dirpath_of (entry : string * list string * list string) : string :=
  fst (fst entry).
Definition filepaths_of (entry : string * list string * list string) : list string :=
  map (fun filename => join (dirpath_of entry) [filename]) (snd entry).

(** The directories of a walk for which a folder is to be made: all but the
    local root. *)
Definition mirrored_dirs (W : World) (s : SynapseUploader) : list string :=
  List.filter (fun d => negb (String.eqb d (_local_path s)))
              (map dirpath_of (os_walk W (_local_path s))).

Definition walked_files (W : World) (s : SynapseUploader) : list string :=
  flat_map filepaths_of (os_walk W (_local_path s)).

(** ** Vocabulary of the proofs: states and computations *)

(** A property of the state that a computation keeps, whatever its outcome. *)
Definition stable {A} (P : State -> Prop) (m : M A) : Prop :=
  forall st, P st -> P (snd (m st)).

(** What [start] does once the project handle is in the folder cache
    (lines 50-70). *)
Definition mirror (W : World) (dry_run : bool) : M unit :=
  create_remote_path W ;;
  upload_tree W ;;
  if dry_run then print "Dry Run Completed Successfully."
  else print "Upload Completed Successfully.".

(** The state in which [mirror] starts when the client answered the login
    and returned the handle [project]. *)
Definition logged_in (s : SynapseUploader) (user password : string) (project : Entity) : State :=
  mkState (set_folders (set_client s) (<[_synapse_project s := project]> (_synapse_folders s)))
          (header_lines s ++ ["Logging into Synapse..."])%list
          [NewClient; Login user password; Get (Project (_synapse_project s))].

(** The four settings that [__init__] fixes for good. *)
Definition same_config (s s' : SynapseUploader) : Prop :=
  _dry_run s = _dry_run s' /\ _synapse_project s = _synapse_project s'
  /\ _local_path s = _local_path s' /\ _remote_path s = _remote_path s'.

(** [writes s m expected]: run from an uploader configured as [s], [m]
    keeps the configuration and appends to the console a prefix of
    [expected]; all of it when [m] returns. *)
Definition writes (s : SynapseUploader) (m : M unit) (expected : list string) : Prop :=
  forall st, same_config s (self st) ->
    same_config s (self (snd (m st)))
    /\ exists l, stdout (snd (m st)) = (stdout st ++ l)%list
                 /\ l `prefix_of` expected
                 /\ (fst (m st) = Ok tt -> l = expected).

(** The two lines of a folder and of a file. *)
Definition folder_report (s : SynapseUploader) (virtual_path : bool) (path : string) : list string :=
  [folder_line path; arrow_line (get_synapse_path s path virtual_path)].
Definition file_report (s : SynapseUploader) (local_file : string) : list string :=
  [file_line local_file; arrow_line (get_synapse_path s local_file false)].

(** The lines of one triple of the walk, and of the whole walk. *)
Definition visit_lines (s : SynapseUploader) (entry : string * list string * list string) : list string :=
  ((if negb (String.eqb (dirpath_of entry) (_local_path s))
    then folder_report s false (dirpath_of entry)
    else [])
   ++ flat_map (file_report s) (filepaths_of entry))%list.

Definition walk_lines (W : World) (s : SynapseUploader) : list string :=
  flat_map (visit_lines s) (os_walk W (_local_path s)).

(** The values that the loop variable [full_path] of lines 52-55 takes. *)
Fixpoint full_paths (full_path : string) (folders : list string) : list string :=
  match folders with
  | [] => []
  | folder :: rest =>
      let full_path := join full_path [folder] in
      full_path :: full_paths full_path rest
  end.

Definition remote_folder_paths (s : SynapseUploader) : list string :=
  match _remote_path s with
  | Some rp => full_paths "" (filter_None (split rp))
  | None => []
  end.

Definition finish_line (dry_run : bool) : string :=
  if dry_run then "Dry Run Completed Successfully." else "Upload Completed Successfully.".

Definition mirror_lines (W : World) (s : SynapseUploader) : list string :=
  (flat_map (folder_report s true) (remote_folder_paths s)
   ++ walk_lines W s ++ [finish_line (_dry_run s)])%list.

(** In a dry run every folder of the cache, the handle of the project [p]
    apart, carries the placeholder identifier. *)
Definition placeholders (p : string) (st : State) : Prop :=
  _dry_run (self st) = true
  /\ forall k e, _synapse_folders (self st) !! k = Some e ->
                 k <> p -> ent_id e = Some "syn0".

(** In a dry run the list of client calls stays as it is. *)
Definition no_new_call (calls : list request) (st : State) : Prop :=
  _dry_run (self st) = true /\ requests st = calls.

(** Every handle of the folder cache has an identifier. *)
Definition handles_have_ids (st : State) : Prop :=
  forall k e, _synapse_folders (self st) !! k = Some e -> is_Some (ent_id e).

(** The service accepts every [store] and answers with a handle that has
    an identifier. *)
Definition service_stores (W : World) : Prop :=
  forall h e, exists e', store_result (synapse W) h e = Some e'
                         /\ is_Some (ent_id e').

(** A folder can be made under every handle of the cache: the handles have
    identifiers, and the run is a dry run, or the client is there and the
    service stores. *)
Definition can_create (W : World) (st : State) : Prop :=
  handles_have_ids st
  /\ (_dry_run (self st) = true
      \/ (_synapse_client (self st) = true /\ service_stores W)).

(** The state of a run configured as [s] in which folders can be made. *)
Definition good (W : World) (s : SynapseUploader) (st : State) : Prop :=
  same_config s (self st) /\ can_create W st.

(** [m] returns from [st], in a good state whose cache has grown. *)
Definition returns_from (W : World) (s : SynapseUploader) (m : M unit) (st : State) : Prop :=
  exists st', m st = (Ok tt, st') /\ good W s st'
              /\ dom (_synapse_folders (self st)) ⊆ dom (_synapse_folders (self st')).

(** ** Vocabulary of the proofs: a dry run against the real run *)

(** A dry run [d] and a real run [r] that have gone the same way so far:
    same settings, the same keys in the folder cache, the same [Processing]
    lines on the console; the real run has its client; and a handle without
    identifier in the cache of the dry run (which can only be what the
    service returned for the project) is in the cache of the real run too. *)
Definition sim (d r : State) : Prop :=
  _dry_run (self d) = true /\ _dry_run (self r) = false
  /\ _synapse_client (self r) = true
  /\ _synapse_project (self d) = _synapse_project (self r)
  /\ _local_path (self d) = _local_path (self r)
  /\ _remote_path (self d) = _remote_path (self r)
  /\ dom (_synapse_folders (self d)) = dom (_synapse_folders (self r))
  /\ processing_lines (stdout d) = processing_lines (stdout r)
  /\ (forall k e, _synapse_folders (self d) !! k = Some e -> ent_id e = None ->
                  _synapse_folders (self r) !! k = Some e).

(** The run ended because the service refused a [store], or because an
    entity was to be built on a handle that the service returned without
    identifier. *)
Definition store_failed (x : Outcome unit * State) : Prop :=
  (exists e, fst x = Raise (SynapseError (Store e)))
  \/ fst x = Raise SynapseMalformedEntityError.

(** The [Processing] lines [l] are on the console, in front. *)
Definition announced (l : list string) (st : State) : Prop :=
  l `prefix_of` processing_lines (stdout st).

(** The outcomes of a step of the dry run and of the real run agree, unless
    the real run was stopped in one of these two ways, with [Processing]
    lines that the dry run has printed too. *)
Definition sim_run (x y : Outcome unit * State) : Prop :=
  (store_failed y /\ announced (processing_lines (stdout (snd y))) (snd x))
  \/ (sim (snd x) (snd y) /\ (fst x = Ok tt <-> fst y = Ok tt)).

(** [m1] in a dry run goes the way of [m2] in the real run, and never takes
    a [Processing] line back. *)
Definition simulates2 (m1 m2 : M unit) : Prop :=
  (forall l, stable (announced l) m1)
  /\ forall d r, sim d r -> sim_run (m1 d) (m2 r).
Definition simulates (m : M unit) : Prop := simulates2 m m.

(** ** Vocabulary of the proofs: names, paths and cache keys *)

(** A name as a directory listing has it: not empty, no separator. *)
Definition is_name (x : string) : bool := negb (is_empty x) && negb (has_sep x).

(** [s[n:]]. *)
Fixpoint drop_chars (n : nat) (s : string) : string :=
  match n, s with
  | O, _ => s
  | S n', String _ s' => drop_chars n' s'
  | S _, EmptyString => EmptyString
  end.

(** [q] is an initial part of [x]. *)
Definition initial (q x : string) : Prop := exists t, x = q ++ t.

(** The names of a tree are names. *)
Fixpoint valid_tree (t : tree) : bool :=
  match t with
  | Dir ds fs => valid_forest ds && forallb is_name fs
  end
with valid_forest (ds : forest) : bool :=
  match ds with
  | NoDirs => true
  | SubDir n t rest => is_name n && valid_tree t && valid_forest rest
  end.

(** A remote path without empty segment: no separator in front, at the end,
    or doubled. *)
Definition normal_path (r : string) : bool :=
  forallb (fun x => negb (is_empty x)) (split r).

(** A configuration and a world in which the walk order does keep the
    parents in the cache. *)
Definition well_formed (W : World) (s : SynapseUploader) : Prop :=
  ends_with_sep (_synapse_project s) = false
  /\ match _remote_path s with Some r => normal_path r = true | None => True end
  /\ match fs W (_local_path s) with Some t => valid_tree t = true | None => True end.

(** The cache key under which the parent of [full_path ++ sep ++ name] is
    looked up, for the project [p]. *)
Definition parent_key (p full_path : string) : string :=
  if is_empty full_path then p else join p [full_path].

(** What [os.path.join(d, name)] puts in front of the name, for a walked
    directory [d]. *)
Definition child_prefix (d : string) : string :=
  if is_empty d then "" else d ++ String sep "".

(** The pattern that [get_synapse_path] removes, and a local path without it. *)
Definition root_pattern (s : SynapseUploader) : string := _local_path s ++ String sep "".
Definition relative (s : SynapseUploader) (path : string) : string :=
  replace path (root_pattern s) "".

(** What [get_synapse_path] puts in front of a relative path, and the cache
    key of the folder that holds the top of the local tree. *)
Definition key_base (s : SynapseUploader) : string :=
  join (_synapse_project s) [remote_path_or_empty s; ""].
Definition base_key (s : SynapseUploader) : string :=
  if is_empty (remote_path_or_empty s) then _synapse_project s
  else join (_synapse_project s) [remote_path_or_empty s].

(** Every parent that a lookup may ask for below [x] is a key of the cache
    [D]: the parent of [B ++ q ++ m] for each initial part [q] of [x] and
    each [m] without separator. *)
Definition ancestors_cached (B : string) (D : gset string) (x : string) : Prop :=
  forall q m, initial q x -> has_sep m = false -> dirname (B ++ q ++ m) ∈ D.

(** The walk may visit the directory [d]: the parents below its relative
    path are cached, and the relative path is a proper relative path. *)
Definition ready (s : SynapseUploader) (D : gset string) (d : string) : Prop :=
  ancestors_cached (key_base s) D (relative s d)
  /\ starts_with_sep (relative s d) = false
  /\ is_empty (relative s d) = false
  /\ ends_with_sep (relative s d) = false.

(** The walk may visit what the directory [d] holds. *)
Definition inside (s : SynapseUploader) (D : gset string) (d : string) : Prop :=
  ancestors_cached (key_base s) D (relative s (child_prefix d))
  /\ starts_with_sep (relative s (child_prefix d)) = false.

(** ** Vocabulary of the proofs: what a run stores *)

(** The type and the name of the entities that a list of client calls
    stores, in the order of the calls. *)
Definition stored (calls : list request) : list (EntityType * string) :=
  flat_map (fun q => match q with
                     | Store e => [(ent_type e, ent_name e)]
                     | _ => []
                     end) calls.

(** What a real run stores for a folder, for one triple of the walk, and
    from the folders of the remote path on. *)
Definition folder_store (s : SynapseUploader) (virtual_path : bool) (path : string)
    : EntityType * string :=
  (FolderT, basename (get_synapse_path s path virtual_path)).

Definition visit_stores (s : SynapseUploader) (entry : string * list string * list string)
    : list (EntityType * string) :=
  ((if negb (String.eqb (dirpath_of entry) (_local_path s))
    then [folder_store s false (dirpath_of entry)]
    else [])
   ++ map (fun f => (FileT, f)) (filepaths_of entry))%list.

Definition mirror_stores (W : World) (s : SynapseUploader) : list (EntityType * string) :=
  (map (folder_store s true) (remote_folder_paths s)
   ++ flat_map (visit_stores s) (os_walk W (_local_path s)))%list.

(** A dry run stores nothing. *)
Definition when_real {A} (s : SynapseUploader) (l : list A) : list A :=
  if _dry_run s then [] else l.

(** [asks s m expected]: run from an uploader configured as [s], [m] keeps
    the configuration and appends to the client calls [store]s only, of a
    prefix of [expected]; of all of it when [m] returns. *)
Definition asks (s : SynapseUploader) (m : M unit) (expected : list (EntityType * string)) : Prop :=
  forall st, same_config s (self st) ->
    same_config s (self (snd (m st)))
    /\ exists l, requests (snd (m st)) = (requests st ++ l)%list
                 /\ Forall (fun q => is_store q = true) l
                 /\ stored l `prefix_of` expected
                 /\ (fst (m st) = Ok tt -> stored l = expected).

(** The calls that every run makes first when the service answers. *)
Definition opening_calls (user password synapse_project : string) : list request :=
  [NewClient; Login user password; Get (Project synapse_project)].

(** The completion line is not on the console. *)
Definition unfinished (dry_run : bool) (st : State) : Prop :=
  ~ In (finish_line dry_run) (stdout st).

(** ** Vocabulary of the proofs: how a run fails *)

(** The entry announced last on the console is [path], and [k] is the key
    under which its parent is looked up. *)
Definition announced_last (st : State) (k : string) : Prop :=
  exists path virtual_path,
    (last (stdout st) = Some (folder_line path)
     \/ (virtual_path = false /\ last (stdout st) = Some (file_line path)))
    /\ k = dirname (get_synapse_path (self st) path virtual_path).

(** What the state is like when a folder or a file has raised [e]. *)
Definition failure (e : exn) (st : State) : Prop :=
  match e with
  | KeyError k =>
      (k ∉ dom (_synapse_folders (self st))) /\ announced_last st k
  | SynapseError r =>
      last (requests st) = Some r /\ is_store r = true
      /\ _dry_run (self st) = false
      /\ exists full, last (stdout st) = Some (arrow_line full)
  | AttributeError _ => _synapse_client (self st) = false
  | SynapseMalformedEntityError =>
      exists full parent,
        last (stdout st) = Some (arrow_line full)
        /\ _synapse_folders (self st) !! dirname full = Some parent
        /\ ent_id parent = None
  end.

(** [m] raises in such states only. *)
Definition fails_with {A} (Q : exn -> State -> Prop) (m : M A) : Prop :=
  forall st e, fst (m st) = Raise e -> Q e (snd (m st)).

(** ** Vocabulary of the proofs: the handles of the parents *)

(** [e] is a handle that the service has returned by the time the calls
    [calls] are made: the project, or the answer to one of the [store]s. *)
Definition handle_of (W : World) (project : Entity) (calls : list request) (e : Entity) : Prop :=
  e = project
  \/ exists h f rest, calls = (h ++ Store f :: rest)%list
                      /\ store_result (synapse W) h f = Some e.

(** A real run in which the cache holds such handles only, and every
    entity was stored with the identifier of such a handle as its parent. *)
Definition linked (W : World) (project : Entity) (st : State) : Prop :=
  _dry_run (self st) = false
  /\ (forall k e, _synapse_folders (self st) !! k = Some e ->
                  handle_of W project (requests st) e)
  /\ (forall h f rest, requests st = (h ++ Store f :: rest)%list ->
        exists parent, handle_of W project h parent /\ ent_parent f = ent_id parent).

(** ** Vocabulary of the proofs: the keys of the folder cache *)

(** [e] is the handle of the folder made for the key [k]: the folder is
    named by the last segment of [k]; in a dry run [e] is this folder with
    the placeholder identifier, in a real run [e] is the answer of the
    service to the [store] of this folder. *)
Definition folder_handle (W : World) (dry_run : bool) (k : string) (e : Entity) : Prop :=
  exists parent_id,
    let folder := mkEntity FolderT (basename k) (Some parent_id) None in
    if dry_run then e = set_id folder "syn0"
    else exists h, store_result (synapse W) h folder = Some e.

(** The cache holds under [k] the handle of the folder made for [k]. *)
Definition holds_folder (W : World) (k : string) (st : State) : Prop :=
  exists e, _synapse_folders (self st) !! k = Some e
            /\ folder_handle W (_dry_run (self st)) k e.

(** [caches W s m keys]: run from an uploader configured as [s], [m] keeps
    the configuration and the folders that the cache holds, and when it
    returns it has added the keys [keys] to the folder cache, each with the
    handle of the folder made for it. *)
Definition caches (W : World) (s : SynapseUploader) (m : M unit) (keys : list string) : Prop :=
  forall st, same_config s (self st) ->
    same_config s (self (snd (m st)))
    /\ (forall k, holds_folder W k st -> holds_folder W k (snd (m st)))
    /\ (fst (m st) = Ok tt ->
        dom (_synapse_folders (self (snd (m st))))
        = dom (_synapse_folders (self st)) ∪ list_to_set keys
        /\ Forall (fun k => holds_folder W k (snd (m st))) keys).

(** The key of the folder of one triple of the walk. *)
Definition visit_keys (s : SynapseUploader) (entry : string * list string * list string)
    : list string :=
  if negb (String.eqb (dirpath_of entry) (_local_path s))
  then [get_synapse_path s (dirpath_of entry) false]
  else [].

Definition is_folder (x : EntityType * string) : bool :=
  match fst x with FolderT => true | _ => false end.

(** ** Worlds used in the examples *)

Definition credentials : gmap string string :=
  <["SYNAPSE_USER" := "user"]> (<["SYNAPSE_PASSWORD" := "secret"]> ∅).

(** A service that accepts every call and numbers what it stores. *)
Definition synapse_ok : Synapse :=
  mkSynapse (fun _ _ _ => true)
            (fun _ e => Some e)
            (fun h e => Some (set_id e (String "s" (String.concat "" (map (fun _ => "i") h))))).

(** [/data/exp1] holding [b.txt] and [sub/a.txt]. *)
Definition exp1_tree : tree :=
  Dir (SubDir "sub" (Dir NoDirs ["a.txt"]) NoDirs) ["b.txt"].
Definition exp1_world : World :=
  mkWorld credentials synapse_ok
          (fun p => if String.eqb p "/data/exp1" then Some exp1_tree else None).

(** A directory [a] that holds a directory [a] that holds a file [f]. *)
Definition nested_tree : tree := Dir (SubDir "a" (Dir NoDirs ["f"]) NoDirs) [].
Definition nested_world : World :=
  mkWorld credentials synapse_ok
          (fun p => if String.eqb p "a" then Some nested_tree else None).

(** A service that lets the program log in and refuses every [store]. *)
Definition synapse_refusing : Synapse :=
  mkSynapse (fun _ _ _ => true) (fun _ e => Some e) (fun _ _ => None).
Definition refusing_world : World :=
  mkWorld credentials synapse_refusing
          (fun p => if String.eqb p "/data/exp1" then Some exp1_tree else None).

(** A service that stores what it is given and returns it as it is, that
    is without identifier. *)
Definition synapse_forgetful : Synapse :=
  mkSynapse (fun _ _ _ => true) (fun _ e => Some e) (fun _ e => Some e).
Definition forgetful_world : World :=
  mkWorld credentials synapse_forgetful
          (fun p => if String.eqb p "/data/exp1" then Some exp1_tree else None).

(** A world without credentials in the environment. *)
Definition anonymous_world : World :=
  mkWorld ∅ synapse_ok (fun p => if String.eqb p "/data/exp1" then Some exp1_tree else None).

(** * Properties *)

(** ** The string operations on examples *)

Example split_doubled : split "x//y" = ["x"; ""; "y"].
Proof. reflexivity. Qed.
Example split_root : split "/" = [""; ""].
Proof. reflexivity. Qed.
Example join_empty_middle : join "syn1" [""; "sub"] = "syn1/sub".
Proof. reflexivity. Qed.
Example join_absolute : join "syn1" ["x"; "/f"] = "/f".
Proof. reflexivity. Qed.
Example dirname_doubled : dirname "syn1/x//y/f" = "syn1/x//y".
Proof. reflexivity. Qed.
Example dirname_root : dirname "/f" = "/".
Proof. reflexivity. Qed.
Example dirname_plain : dirname "f" = "".
Proof. reflexivity. Qed.
Example basename_file : basename "syn1/x//y/f" = "f".
Proof. reflexivity. Qed.
Example basename_trailing : basename "syn1/x/" = "".
Proof. reflexivity. Qed.
Example replace_everywhere : replace "/data/x/data/y" "/data/" "" = "xy".
Proof. reflexivity. Qed.
Example replace_no_overlap : replace "aaa" "aa" "b" = "ba".
Proof. reflexivity. Qed.
Example replace_empty_old : replace "abc" "" "-" = "-a-b-c-".
Proof. reflexivity. Qed.
Example strip_inner : strip "  a b  " = "a b".
Proof. reflexivity. Qed.
Example rstrip_seps : rstrip is_sep "a//b//" = "a//b".
Proof. reflexivity. Qed.

(** ** Stripping *)

Section Strip.
Variable p : ascii -> bool.

Lemma lstrip_all s : all_chars p s = true -> lstrip p s = "".
Proof.
  induction s as [|c s IH]; simpl; [reflexivity|].
  intros H. apply andb_prop in H as [Hc Hs]. rewrite Hc. auto.
Qed.

Lemma rstrip_all s : all_chars p s = true -> rstrip p s = "".
Proof.
  induction s as [|c s IH]; simpl; [reflexivity|].
  intros H. apply andb_prop in H as [Hc Hs]. rewrite (IH Hs), Hc. reflexivity.
Qed.

(** Trailing characters of the stripped set do not count. *)
Lemma rstrip_app_all s t : all_chars p t = true -> rstrip p (s ++ t) = rstrip p s.
Proof.
  intros Ht. induction s as [|c s IH]; simpl.
  - apply rstrip_all, Ht.
  - rewrite IH. reflexivity.
Qed.

(** A string without characters of the stripped set is left alone. *)
Lemma strip_none s :
  all_chars (fun c => negb (p c)) s = true -> lstrip p s = s /\ rstrip p s = s.
Proof.
  induction s as [|c s IH]; simpl; [auto|].
  intros H. apply andb_prop in H as [Hc Hs].
  apply negb_true_iff in Hc. rewrite Hc. simpl.
  destruct (IH Hs) as [_ ->]. auto.
Qed.
End Strip.

Lemma all_chars_impl (p q : ascii -> bool) s :
  (forall c, p c = true -> q c = true) -> all_chars p s = true -> all_chars q s = true.
Proof.
  intros Hpq. induction s as [|c s IH]; simpl; [auto|].
  intros H. apply andb_prop in H as [Hc Hs]. rewrite (Hpq _ Hc), (IH Hs). reflexivity.
Qed.

Lemma sep_not_space c : is_sep c = true -> negb (is_space c) = true.
Proof.
  unfold is_sep. intros H. apply Ascii.eqb_eq in H. subst c. reflexivity.
Qed.

Lemma ends_with_sep_rstrip s : ends_with_sep (rstrip is_sep s) = false.
Proof.
  induction s as [|c s IH]; simpl; [reflexivity|].
  destruct (rstrip is_sep s) eqn:Hr.
  - destruct (is_sep c) eqn:Hc; simpl; [reflexivity | exact Hc].
  - rewrite andb_false_r. exact IH.
Qed.

(** ** The constructor *)

Lemma init_remote_path_blank rp :
  all_chars is_space rp = true \/ all_chars is_sep rp = true ->
  forall p l d, __init__ p l (Some rp) d = __init__ p l None d.
Proof.
  intros H p l d. unfold __init__. f_equal.
  destruct H as [H | H].
  - unfold strip. rewrite (lstrip_all _ _ H). reflexivity.
  - assert (Hs : strip rp = rp).
    { unfold strip.
      pose proof (all_chars_impl _ _ _ sep_not_space H) as Hn.
      destruct (strip_none is_space rp Hn) as [-> ->]. reflexivity. }
    rewrite Hs, (lstrip_all _ _ H). simpl.
    destruct (0 <? String.length rp)%nat; reflexivity.
Qed.

(** C6: a remote prefix that is empty, or made of white space only, or of
    path separators only, gives the same uploader as no remote prefix, hence
    the same run (console lines, client calls, folder cache, outcome) in
    every world. *)
Theorem blank_remote_path_is_no_remote_path :
  forall (synapse_project local_path rp : string) (dry_run : bool),
    all_chars is_space rp = true \/ all_chars is_sep rp = true ->
    __init__ synapse_project local_path (Some rp) dry_run
      = __init__ synapse_project local_path None dry_run
    /\ forall W, run W synapse_project local_path (Some rp) dry_run
                 = run W synapse_project local_path None dry_run.
Proof.
  intros p l rp d H.
  pose proof (init_remote_path_blank rp H p l d) as E.
  split; [exact E|]. intros W. unfold run. rewrite E. reflexivity.
Qed.

Lemma blank_remote_path_is_no_remote_path_witness :
  __init__ "syn111" "/data/exp1" (Some "  ") false
    = __init__ "syn111" "/data/exp1" None false
  /\ forall W, run W "syn111" "/data/exp1" (Some "  ") false
               = run W "syn111" "/data/exp1" None false.
Proof.
  exact (blank_remote_path_is_no_remote_path "syn111" "/data/exp1" "  " false
           (or_introl eq_refl)).
Defined.

Example separators_only_remote_path :
  _remote_path (__init__ "syn111" "/data/exp1" (Some " // ") false) = None.
Proof. reflexivity. Qed.

Example mixed_remote_path_is_kept :
  _remote_path (__init__ "syn111" "/data/exp1" (Some "/ /") false) = Some " ".
Proof. reflexivity. Qed.

(** What [rstrip] takes off is made of characters of the stripped set. *)
Lemma rstrip_decompose p s :
  exists t, s = rstrip p s ++ t /\ all_chars p t = true.
Proof.
  induction s as [|c s (t & Hs & Ht)]; [exists ""; auto|].
  simpl. destruct (p c && is_empty (rstrip p s)) eqn:E.
  - apply andb_prop in E as [Hc He].
    destruct (rstrip p s); [|discriminate]. change ("" ++ t) with t in Hs. subst t.
    exists (String c s). split; [reflexivity|]. simpl. rewrite Hc, Ht. reflexivity.
  - exists t. split; [|exact Ht].
    change (String c (rstrip p s) ++ t) with (String c (rstrip p s ++ t)).
    congruence.
Qed.

(** C9: the constructor strips the trailing separators of the local root:
    the stored path is the argument without the separators at its end, all
    of them, and a root given with trailing separators yields the same
    uploader, so the same remote paths and the same run, as the root given
    without them. *)
Theorem local_root_trailing_separators :
  forall (synapse_project local_path seps : string) (remote_path : option string)
         (dry_run : bool),
    all_chars is_sep seps = true ->
    let with_seps := __init__ synapse_project (local_path ++ seps) remote_path dry_run in
    let without := __init__ synapse_project local_path remote_path dry_run in
    ends_with_sep (_local_path with_seps) = false
    /\ (exists stripped,
          (local_path ++ seps)%string = (_local_path with_seps ++ stripped)%string
          /\ all_chars is_sep stripped = true)
    /\ _local_path with_seps = _local_path without
    /\ (forall path virtual_path,
          get_synapse_path with_seps path virtual_path
          = get_synapse_path without path virtual_path)
    /\ (forall W, run W synapse_project (local_path ++ seps) remote_path dry_run
                  = run W synapse_project local_path remote_path dry_run).
Proof.
  intros p l t rp d Ht. cbv zeta.
  assert (E : __init__ p (l ++ t) rp d = __init__ p l rp d).
  { unfold __init__. rewrite (rstrip_app_all _ _ _ Ht). reflexivity. }
  split; [apply ends_with_sep_rstrip|].
  split; [apply rstrip_decompose|].
  split; [rewrite E; reflexivity|].
  split; [intros; rewrite E; reflexivity|].
  intros W. unfold run. rewrite E. reflexivity.
Qed.

Lemma local_root_trailing_separators_witness :
  let with_seps := __init__ "syn111" ("/data/exp1" ++ "//") None false in
  let without := __init__ "syn111" "/data/exp1" None false in
  ends_with_sep (_local_path with_seps) = false
  /\ (exists stripped,
        ("/data/exp1" ++ "//")%string = (_local_path with_seps ++ stripped)%string
        /\ all_chars is_sep stripped = true)
  /\ _local_path with_seps = _local_path without
  /\ (forall path virtual_path,
        get_synapse_path with_seps path virtual_path
        = get_synapse_path without path virtual_path)
  /\ (forall W, run W "syn111" ("/data/exp1" ++ "//") None false
                = run W "syn111" "/data/exp1" None false).
Proof.
  exact (local_root_trailing_separators "syn111" "/data/exp1" "//" None false eq_refl).
Defined.

(** ** The monad *)

Lemma bind_Ok {A B} (m : M A) (k : A -> M B) st a st' :
  m st = (Ok a, st') -> bind m k st = k a st'.
Proof. unfold bind. intros ->. reflexivity. Qed.

Lemma bind_Raise {A B} (m : M A) (k : A -> M B) st e st' :
  m st = (Raise e, st') -> bind m k st = (Raise e, st').
Proof. unfold bind. intros ->. reflexivity. Qed.

Lemma stable_ret {A} P (a : A) : stable P (ret a).
Proof. intros st H. exact H. Qed.

Lemma stable_bind {A B} P (m : M A) (k : A -> M B) :
  stable P m -> (forall a, stable P (k a)) -> stable P (bind m k).
Proof.
  intros Hm Hk st H. unfold bind. specialize (Hm st H).
  destruct (m st) as [[a | e] st1]; simpl in *; [apply Hk, Hm | exact Hm].
Qed.

Lemma stable_for_each {A} P (l : list A) (body : A -> M unit) :
  (forall x, stable P (body x)) -> stable P (for_each l body).
Proof.
  intros Hb. induction l as [|x l IH]; simpl.
  - apply stable_ret.
  - apply stable_bind; auto.
Qed.

(** ** The constructors of the entities *)

Lemma Folder_inv name parent folder :
  Folder name parent = Some folder ->
  folder = mkEntity FolderT name (ent_id parent) None /\ is_Some (ent_id parent).
Proof.
  unfold Folder. destruct (ent_id parent); [|discriminate].
  intros [= <-]. eauto.
Qed.

Lemma File_inv path parent file :
  File path parent = Some file ->
  file = mkEntity FileT path (ent_id parent) None /\ is_Some (ent_id parent).
Proof.
  unfold File. destruct (ent_id parent); [|discriminate].
  intros [= <-]. eauto.
Qed.

Lemma Folder_is_Some name parent :
  is_Some (ent_id parent) -> exists folder, Folder name parent = Some folder.
Proof. intros [i Hi]. unfold Folder. rewrite Hi. eauto. Qed.

Lemma File_is_Some path parent :
  is_Some (ent_id parent) -> exists file, File path parent = Some file.
Proof. intros [i Hi]. unfold File. rewrite Hi. eauto. Qed.

Lemma Folder_None name parent : Folder name parent = None -> ent_id parent = None.
Proof. unfold Folder. destruct (ent_id parent); [discriminate | reflexivity]. Qed.

Lemma File_None path parent : File path parent = None -> ent_id parent = None.
Proof. unfold File. destruct (ent_id parent); [discriminate | reflexivity]. Qed.

(** ** The methods, case by case *)

Section MethodFacts.
Variable W : World.

Lemma login_eq st :
  login W st =
  let out := (stdout st ++ ["Logging into Synapse..."])%list in
  match environ W !! "SYNAPSE_USER" with
  | None => (Raise (KeyError "SYNAPSE_USER"), mkState (self st) out (requests st))
  | Some user =>
      match environ W !! "SYNAPSE_PASSWORD" with
      | None => (Raise (KeyError "SYNAPSE_PASSWORD"), mkState (self st) out (requests st))
      | Some password =>
          let st' := mkState (set_client (self st)) out
                       ((requests st ++ [NewClient]) ++ [Login user password])%list in
          if login_ok (synapse W) (requests st ++ [NewClient])%list user password
          then (Ok tt, st')
          else (Raise (SynapseError (Login user password)), st')
      end
  end.
Proof.
  unfold login, bind, print, os_environ, new_client, client_login, client_call. simpl.
  destruct (environ W !! "SYNAPSE_USER"); [|reflexivity].
  destruct (environ W !! "SYNAPSE_PASSWORD"); [|reflexivity].
  simpl. destruct (login_ok _ _ _ _); reflexivity.
Qed.

Lemma create_directory_in_synapse_eq path virtual_path st :
  create_directory_in_synapse W path virtual_path st =
  let s := self st in
  let full := get_synapse_path s path virtual_path in
  let out1 := (stdout st ++ [folder_line path])%list in
  match _synapse_folders s !! dirname full with
  | None => (Raise (KeyError (dirname full)), mkState s out1 (requests st))
  | Some parent =>
      let out2 := (out1 ++ [arrow_line full])%list in
      match Folder (basename full) parent with
      | None => (Raise SynapseMalformedEntityError, mkState s out2 (requests st))
      | Some folder =>
          if _dry_run s then
            (Ok tt, mkState (set_folders s (<[full := set_id folder "syn0"]>
                                              (_synapse_folders s)))
                           out2 (requests st))
          else if _synapse_client s then
            let reqs := (requests st ++ [Store folder])%list in
            match store_result (synapse W) (requests st) folder with
            | Some e => (Ok tt, mkState (set_folders s (<[full := e]> (_synapse_folders s)))
                                       out2 reqs)
            | None => (Raise (SynapseError (Store folder)), mkState s out2 reqs)
            end
          else (Raise (AttributeError "_synapse_client"), mkState s out2 (requests st))
      end
  end.
Proof.
  unfold create_directory_in_synapse, bind, print, read, get_synapse_folder,
    set_synapse_folder, client_store, client_call, construct, ret, raise,
    folder_line, arrow_line.
  simpl.
  destruct (_synapse_folders (self st) !! _); [|reflexivity].
  simpl. destruct (Folder _ _); [|reflexivity].
  simpl. destruct (_dry_run (self st)); [reflexivity|].
  simpl. destruct (_synapse_client (self st)); [|reflexivity].
  destruct (store_result _ _ _); reflexivity.
Qed.

Lemma upload_file_to_synapse_eq local_file st :
  upload_file_to_synapse W local_file st =
  let s := self st in
  let full := get_synapse_path s local_file false in
  let out1 := (stdout st ++ [file_line local_file])%list in
  match _synapse_folders s !! dirname full with
  | None => (Raise (KeyError (dirname full)), mkState s out1 (requests st))
  | Some parent =>
      let out2 := (out1 ++ [arrow_line full])%list in
      if _dry_run s then (Ok tt, mkState s out2 (requests st))
      else if _synapse_client s then
        match File local_file parent with
        | None => (Raise SynapseMalformedEntityError, mkState s out2 (requests st))
        | Some file =>
            let reqs := (requests st ++ [Store file])%list in
            match store_result (synapse W) (requests st) file with
            | Some _ => (Ok tt, mkState s out2 reqs)
            | None => (Raise (SynapseError (Store file)), mkState s out2 reqs)
            end
        end
      else (Raise (AttributeError "_synapse_client"), mkState s out2 (requests st))
  end.
Proof.
  unfold upload_file_to_synapse, bind, print, read, get_synapse_folder,
    client_store, client_call, the_client, construct, ret, raise,
    file_line, arrow_line.
  simpl.
  destruct (_synapse_folders (self st) !! _); [|reflexivity].
  simpl. destruct (_dry_run (self st)); [reflexivity|].
  simpl. destruct (_synapse_client (self st)) eqn:Ec; [|reflexivity].
  destruct (File _ _); [|reflexivity].
  simpl. rewrite Ec. destruct (store_result _ _ _); reflexivity.
Qed.

End MethodFacts.

Section StartFacts.
Variable W : World.

(** [start] is its header, then the login, then the rest. *)
Lemma start_eq st :
  start W st =
  let s := self st in
  (login W ;;
   let* project := client_get W (Project (_synapse_project s)) in
   set_synapse_folder (_synapse_project s) project ;;
   create_remote_path W ;;
   upload_tree W ;;
   if _dry_run s then print "Dry Run Completed Successfully."
   else print "Upload Completed Successfully.")
    (mkState s (stdout st ++ header_lines s)%list (requests st)).
Proof.
  unfold start, header_lines.
  unfold bind at 1. unfold read at 1.
  destruct (_dry_run (self st)), (_remote_path (self st)); simpl;
    unfold bind at 1; simpl; unfold bind at 1; simpl; unfold bind at 1; simpl;
    repeat (unfold bind at 1; simpl);
    repeat rewrite <- app_assoc; reflexivity.
Qed.

End StartFacts.

(** ** Credentials *)

Lemma login_without_credentials W st :
  environ W !! "SYNAPSE_USER" = None \/ environ W !! "SYNAPSE_PASSWORD" = None ->
  exists key,
    (key = "SYNAPSE_USER" \/ key = "SYNAPSE_PASSWORD")
    /\ fst (login W st) = Raise (KeyError key)
    /\ requests (snd (login W st)) = requests st
    /\ self (snd (login W st)) = self st.
Proof.
  intros H. rewrite login_eq. cbv zeta.
  destruct (environ W !! "SYNAPSE_USER") as [u|] eqn:Hu.
  - destruct H as [H | H]; [discriminate|]. rewrite H.
    exists "SYNAPSE_PASSWORD". auto.
  - exists "SYNAPSE_USER". auto.
Qed.

(** C8: when [SYNAPSE_USER] or [SYNAPSE_PASSWORD] is missing from the
    environment, [login] raises the [KeyError] of the missing variable
    without constructing or calling the client, and the whole run ends with
    that error and an empty list of client calls. *)
Theorem missing_credentials_abort_before_any_call :
  forall W,
    environ W !! "SYNAPSE_USER" = None \/ environ W !! "SYNAPSE_PASSWORD" = None ->
    (forall st, exists key,
        (key = "SYNAPSE_USER" \/ key = "SYNAPSE_PASSWORD")
        /\ fst (login W st) = Raise (KeyError key)
        /\ requests (snd (login W st)) = requests st
        /\ _synapse_client (self (snd (login W st))) = _synapse_client (self st))
    /\ (forall synapse_project local_path remote_path dry_run, exists key,
        (key = "SYNAPSE_USER" \/ key = "SYNAPSE_PASSWORD")
        /\ fst (run W synapse_project local_path remote_path dry_run) = Raise (KeyError key)
        /\ requests (snd (run W synapse_project local_path remote_path dry_run)) = []).
Proof.
  intros W H. split.
  - intros st. destruct (login_without_credentials W st H) as (key & Hk & Ho & Hr & Hs).
    exists key. rewrite Hs. auto.
  - intros p l rp d. unfold run. rewrite start_eq. cbv zeta.
    match goal with |- context [bind (login W) _ ?s] => set (st1 := s) end.
    destruct (login_without_credentials W st1 H) as (key & Hk & Ho & Hr & _).
    exists key. split; [exact Hk|].
    destruct (login W st1) as [[[] | e] st2] eqn:E; simpl in *; [discriminate|].
    rewrite (bind_Raise _ _ _ _ _ E). auto.
Qed.

Lemma missing_credentials_abort_before_any_call_witness :
  (forall st, exists key,
      (key = "SYNAPSE_USER" \/ key = "SYNAPSE_PASSWORD")
      /\ fst (login anonymous_world st) = Raise (KeyError key)
      /\ requests (snd (login anonymous_world st)) = requests st
      /\ _synapse_client (self (snd (login anonymous_world st))) = _synapse_client (self st))
  /\ (forall synapse_project local_path remote_path dry_run, exists key,
      (key = "SYNAPSE_USER" \/ key = "SYNAPSE_PASSWORD")
      /\ fst (run anonymous_world synapse_project local_path remote_path dry_run)
         = Raise (KeyError key)
      /\ requests (snd (run anonymous_world synapse_project local_path remote_path dry_run))
         = []).
Proof.
  exact (missing_credentials_abort_before_any_call anonymous_world (or_introl eq_refl)).
Defined.

Example run_without_credentials :
  let r := run anonymous_world "syn111" "/data/exp1" None false in
  fst r = Raise (KeyError "SYNAPSE_USER")
  /\ stdout (snd r) = ["Uploading to Project: syn111"; "Uploading Directory: /data/exp1";
                       "Logging into Synapse..."]
  /\ requests (snd r) = [].
Proof. vm_compute. auto. Qed.

(** ** The scenarios of the specification *)

Example scenario_no_prefix :
  let r := run exp1_world "syn111" "/data/exp1" None false in
  fst r = Ok tt
  /\ stdout (snd r) =
       ["Uploading to Project: syn111"; "Uploading Directory: /data/exp1";
        "Logging into Synapse...";
        "Processing File: /data/exp1/b.txt"; "  -> syn111/b.txt";
        "Processing Folder: /data/exp1/sub"; "  -> syn111/sub";
        "Processing File: /data/exp1/sub/a.txt"; "  -> syn111/sub/a.txt";
        "Upload Completed Successfully."]
  /\ map is_store (requests (snd r)) = [false; false; false; true; true; true].
Proof. vm_compute. auto. Qed.

Example scenario_prefix_dry_run :
  let r := run exp1_world "syn111" "/data/exp1" (Some "results/run1") true in
  fst r = Ok tt
  /\ stdout (snd r) =
       ["~~ Dry Run ~~";
        "Uploading to Project: syn111"; "Uploading Directory: /data/exp1";
        "Uploading To: results/run1"; "Logging into Synapse...";
        "Processing Folder: results"; "  -> syn111/results";
        "Processing Folder: results/run1"; "  -> syn111/results/run1";
        "Processing File: /data/exp1/b.txt"; "  -> syn111/results/run1/b.txt";
        "Processing Folder: /data/exp1/sub"; "  -> syn111/results/run1/sub";
        "Processing File: /data/exp1/sub/a.txt"; "  -> syn111/results/run1/sub/a.txt";
        "Dry Run Completed Successfully."]
  /\ requests (snd r) = [NewClient; Login "user" "secret"; Get (Project "syn111")].
Proof. vm_compute. auto. Qed.

(** ** A run, case by case *)

Lemma run_eq W p l rp d :
  run W p l rp d =
  let s := __init__ p l rp d in
  let out := (header_lines s ++ ["Logging into Synapse..."])%list in
  match environ W !! "SYNAPSE_USER" with
  | None => (Raise (KeyError "SYNAPSE_USER"), mkState s out [])
  | Some user =>
      match environ W !! "SYNAPSE_PASSWORD" with
      | None => (Raise (KeyError "SYNAPSE_PASSWORD"), mkState s out [])
      | Some password =>
          let reqs := [NewClient; Login user password] in
          if login_ok (synapse W) [NewClient] user password then
            match get_result (synapse W) reqs (Project p) with
            | Some project => mirror W d (logged_in s user password project)
            | None => (Raise (SynapseError (Get (Project p))),
                       mkState (set_client s) out (reqs ++ [Get (Project p)])%list)
            end
          else (Raise (SynapseError (Login user password)), mkState (set_client s) out reqs)
      end
  end.
Proof.
  unfold run. rewrite start_eq. cbv zeta.
  unfold bind at 1. rewrite login_eq. cbv zeta. simpl.
  destruct (environ W !! "SYNAPSE_USER") as [u|]; [|reflexivity].
  destruct (environ W !! "SYNAPSE_PASSWORD") as [pw|]; [|reflexivity].
  destruct (login_ok _ _ _ _); [|reflexivity].
  unfold bind at 1. unfold client_get, client_call. simpl.
  destruct (get_result _ _ _); reflexivity.
Qed.

(** ** What [mirror] keeps *)

Section Stable.
Variable W : World.
Variable P : State -> Prop.
Hypothesis P_print : forall line, stable P (print line).
Hypothesis P_create : forall path virtual_path,
    stable P (create_directory_in_synapse W path virtual_path).
Hypothesis P_upload : forall local_file, stable P (upload_file_to_synapse W local_file).

Lemma stable_read {A B} (f : SynapseUploader -> A) (k : A -> M B) :
  (forall a, stable P (k a)) -> stable P (bind (read f) k).
Proof. intros Hk. apply stable_bind; [intros st H; exact H | exact Hk]. Qed.

Lemma stable_create_remote_folders folders :
  forall full_path, stable P (create_remote_folders W full_path folders).
Proof.
  induction folders as [|x folders IH]; intros full_path; simpl.
  - apply stable_ret.
  - apply stable_bind; [apply P_create | intros _; apply IH].
Qed.

Lemma stable_create_remote_path : stable P (create_remote_path W).
Proof.
  unfold create_remote_path. apply stable_read. intros [rp|].
  - apply stable_create_remote_folders.
  - apply stable_ret.
Qed.

Lemma stable_visit entry : stable P (visit W entry).
Proof.
  destruct entry as [[dirpath ds] filenames]. unfold visit.
  apply stable_read. intros local_path. apply stable_bind.
  - destruct (negb _); [apply P_create | apply stable_ret].
  - intros _. apply stable_for_each. intros f. apply P_upload.
Qed.

Lemma stable_upload_tree : stable P (upload_tree W).
Proof.
  unfold upload_tree. apply stable_read. intros local_path.
  apply stable_for_each, stable_visit.
Qed.

Lemma stable_mirror d : stable P (mirror W d).
Proof.
  unfold mirror. apply stable_bind; [apply stable_create_remote_path|].
  intros _. apply stable_bind; [apply stable_upload_tree|].
  intros _. destruct d; apply P_print.
Qed.
End Stable.

(** ** Dry runs *)

Section DryRun.
Variable W : World.

Lemma create_directory_dry path virtual_path st :
  _dry_run (self st) = true ->
  fst (create_directory_in_synapse W path virtual_path st) = Ok tt ->
  exists parent folder,
    _synapse_folders (self st)
      !! dirname (get_synapse_path (self st) path virtual_path) = Some parent
    /\ Folder (basename (get_synapse_path (self st) path virtual_path)) parent
       = Some folder
    /\ _synapse_folders (self (snd (create_directory_in_synapse W path virtual_path st)))
       = <[get_synapse_path (self st) path virtual_path := set_id folder "syn0"]>
           (_synapse_folders (self st)).
Proof.
  intros Hd. rewrite create_directory_in_synapse_eq. cbv zeta.
  destruct (_synapse_folders (self st) !! _) as [parent|]; [|discriminate].
  destruct (Folder _ parent) as [folder|] eqn:Ef; [|discriminate].
  rewrite Hd. simpl. intros _. exists parent, folder. auto.
Qed.

Lemma placeholders_create p path virtual_path :
  stable (placeholders p) (create_directory_in_synapse W path virtual_path).
Proof.
  intros st [Hd H]. rewrite create_directory_in_synapse_eq. cbv zeta.
  destruct (_synapse_folders (self st) !! _) as [parent|]; [|split; assumption].
  destruct (Folder _ parent) as [folder|]; [|split; assumption].
  rewrite Hd. split; [exact Hd|]. simpl. intros k e Hk Hne.
  apply lookup_insert_Some in Hk as [[_ <-] | [_ Hk]]; [reflexivity|eauto].
Qed.

Lemma placeholders_upload p local_file :
  stable (placeholders p) (upload_file_to_synapse W local_file).
Proof.
  intros st [Hd H]. rewrite upload_file_to_synapse_eq. cbv zeta.
  destruct (_synapse_folders (self st) !! _) as [parent|]; [|split; assumption].
  rewrite Hd. split; assumption.
Qed.

Lemma placeholders_mirror p d : stable (placeholders p) (mirror W d).
Proof.
  apply stable_mirror.
  - intros line st H. exact H.
  - apply placeholders_create.
  - apply placeholders_upload.
Qed.

Lemma no_new_call_mirror calls d : stable (no_new_call calls) (mirror W d).
Proof.
  apply stable_mirror.
  - intros line st H. exact H.
  - intros path v st [Hd H]. rewrite create_directory_in_synapse_eq. cbv zeta.
    destruct (_synapse_folders (self st) !! _) as [parent|]; [|split; assumption].
    destruct (Folder _ parent) as [folder|]; [|split; assumption].
    rewrite Hd. split; assumption.
  - intros f st [Hd H]. rewrite upload_file_to_synapse_eq. cbv zeta.
    destruct (_synapse_folders (self st) !! _) as [parent|]; [|split; assumption].
    rewrite Hd. split; assumption.
Qed.
End DryRun.

Lemma dry_run_placeholders W p l rp k e :
  _synapse_folders (self (snd (run W p l rp true))) !! k = Some e ->
  k <> p -> ent_id e = Some "syn0".
Proof.
  rewrite run_eq. cbv zeta.
  destruct (environ W !! "SYNAPSE_USER") as [u|]; [|simpl; rewrite lookup_empty; discriminate].
  destruct (environ W !! "SYNAPSE_PASSWORD") as [pw|];
    [|simpl; rewrite lookup_empty; discriminate].
  destruct (login_ok _ _ _ _); [|simpl; rewrite lookup_empty; discriminate].
  destruct (get_result _ _ _) as [project|]; [|simpl; rewrite lookup_empty; discriminate].
  intros Hk Hne.
  assert (H0 : placeholders p (logged_in (__init__ p l rp true) u pw project)).
  { split; [reflexivity|]. simpl. intros k' e' Hk' Hne'.
    rewrite lookup_insert_ne in Hk' by congruence.
    rewrite lookup_empty in Hk'. discriminate. }
  pose proof (placeholders_mirror W p true _ H0) as [_ H].
  exact (H k e Hk Hne).
Qed.

(** C10: in a dry run every simulated folder gets the same identifier
    [syn0]: a successful [create_directory_in_synapse] caches the folder
    with [syn0] as its identifier, and after the run every entry of the
    folder cache other than the project handle has identifier [syn0]. *)
Theorem dry_run_folders_share_one_identifier :
  forall W,
    (forall path virtual_path st,
        _dry_run (self st) = true ->
        fst (create_directory_in_synapse W path virtual_path st) = Ok tt ->
        exists e,
          _synapse_folders (self (snd (create_directory_in_synapse W path virtual_path st)))
          = <[get_synapse_path (self st) path virtual_path := e]> (_synapse_folders (self st))
          /\ ent_id e = Some "syn0")
    /\ (forall synapse_project local_path remote_path k e,
        _synapse_folders (self (snd (run W synapse_project local_path remote_path true))) !! k
        = Some e ->
        k <> synapse_project ->
        ent_id e = Some "syn0").
Proof.
  intros W. split.
  - intros path v st Hd Hok.
    destruct (create_directory_dry W path v st Hd Hok) as (parent & folder & _ & _ & E).
    eexists. split; [exact E | reflexivity].
  - intros p l rp k e. apply dry_run_placeholders.
Qed.

Lemma dry_run_folders_share_one_identifier_witness :
  exists e,
    _synapse_folders (self (snd (run exp1_world "syn111" "/data/exp1" (Some "results/run1") true)))
      !! "syn111/results/run1/sub" = Some e
    /\ ent_id e = Some "syn0".
Proof.
  eexists. split; [vm_compute; reflexivity|].
  apply (proj2 (dry_run_folders_share_one_identifier exp1_world)
           "syn111" "/data/exp1" (Some "results/run1") "syn111/results/run1/sub").
  - vm_compute. reflexivity.
  - discriminate.
Defined.

(** ** The console lines of a computation *)

Lemma same_config_refl s : same_config s s.
Proof. repeat split. Qed.

Lemma get_synapse_path_same_config s s' path v :
  same_config s s' -> get_synapse_path s' path v = get_synapse_path s path v.
Proof.
  intros (_ & Hp & Hl & Hr). unfold get_synapse_path, remote_path_or_empty.
  rewrite Hp, Hl, Hr. reflexivity.
Qed.

Section Writes.
Variable W : World.
Variable s : SynapseUploader.

Lemma writes_ret : writes s (ret tt) [].
Proof.
  intros st H. split; [exact H|]. exists []. simpl.
  rewrite app_nil_r. auto.
Qed.

Lemma writes_print line : writes s (print line) [line].
Proof. intros st H. split; [exact H|]. exists [line]. simpl. auto. Qed.

Lemma writes_bind m1 m2 e1 e2 :
  writes s m1 e1 -> writes s m2 e2 -> writes s (m1 ;; m2) (e1 ++ e2)%list.
Proof.
  intros H1 H2 st Hc. unfold bind.
  destruct (H1 st Hc) as (Hc1 & l1 & Ho1 & Hp1 & Hok1).
  destruct (m1 st) as [[[] | e] st1]; simpl in *.
  - destruct (H2 st1 Hc1) as (Hc2 & l2 & Ho2 & Hp2 & Hok2).
    split; [exact Hc2|]. exists (l1 ++ l2)%list.
    rewrite Ho2, Ho1, app_assoc. rewrite (Hok1 eq_refl) in *.
    split; [reflexivity|]. split; [apply prefix_app, Hp2|].
    intros Hok. rewrite (Hok2 Hok). reflexivity.
  - split; [exact Hc1|]. exists l1. split; [exact Ho1|].
    split; [apply prefix_app_r, Hp1 | discriminate].
Qed.

Lemma writes_for_each {A} (l : list A) (body : A -> M unit) (f : A -> list string) :
  (forall x, writes s (body x) (f x)) -> writes s (for_each l body) (flat_map f l).
Proof.
  intros Hb. induction l as [|x l IH]; simpl.
  - apply writes_ret.
  - apply writes_bind; auto.
Qed.

(** Reading one of the fixed settings. *)
Lemma writes_read {A} (f : SynapseUploader -> A) (k : A -> M unit) expected :
  (forall s', same_config s s' -> f s' = f s) ->
  writes s (k (f s)) expected ->
  writes s (let* x := read f in k x) expected.
Proof.
  intros Hf Hk st Hc. unfold bind, read. rewrite (Hf _ Hc). apply Hk, Hc.
Qed.

Lemma writes_create path v :
  writes s (create_directory_in_synapse W path v)
         [folder_line path; arrow_line (get_synapse_path s path v)].
Proof.
  intros st Hc. rewrite create_directory_in_synapse_eq. cbv zeta.
  rewrite (get_synapse_path_same_config _ _ _ _ Hc).
  destruct (_synapse_folders (self st) !! _) as [parent|].
  2:{ split; [exact Hc|]. exists [folder_line path]. simpl.
      split; [reflexivity|]. split; [|discriminate].
      exists [arrow_line (get_synapse_path s path v)]. reflexivity. }
  assert (Hall : forall st' o,
             same_config s (self st') ->
             stdout st' = ((stdout st ++ [folder_line path])
                             ++ [arrow_line (get_synapse_path s path v)])%list ->
             same_config s (self (snd (o, st')))
             /\ exists l, stdout (snd (o : Outcome unit, st')) = (stdout st ++ l)%list
                /\ l `prefix_of` [folder_line path; arrow_line (get_synapse_path s path v)]
                /\ (fst (o, st') = Ok tt ->
                    l = [folder_line path; arrow_line (get_synapse_path s path v)])).
  { intros st' o Hc' Ho. split; [exact Hc'|]. eexists. simpl. rewrite Ho.
    rewrite <- app_assoc. split; [reflexivity|]. split; [reflexivity|]. auto. }
  destruct (Folder _ parent) as [folder|]; [|apply Hall; [exact Hc | reflexivity]].
  destruct (_dry_run (self st)); [apply Hall; [exact Hc | reflexivity]|].
  destruct (_synapse_client (self st)); [|apply Hall; [exact Hc | reflexivity]].
  destruct (store_result _ _ _); apply Hall; try exact Hc; reflexivity.
Qed.

Lemma writes_upload local_file :
  writes s (upload_file_to_synapse W local_file)
         [file_line local_file; arrow_line (get_synapse_path s local_file false)].
Proof.
  intros st Hc. rewrite upload_file_to_synapse_eq. cbv zeta.
  rewrite (get_synapse_path_same_config _ _ _ _ Hc).
  destruct (_synapse_folders (self st) !! _) as [parent|].
  2:{ split; [exact Hc|]. exists [file_line local_file]. simpl.
      split; [reflexivity|]. split; [|discriminate].
      exists [arrow_line (get_synapse_path s local_file false)]. reflexivity. }
  assert (Hall : forall st' o,
             same_config s (self st') ->
             stdout st' = ((stdout st ++ [file_line local_file])
                             ++ [arrow_line (get_synapse_path s local_file false)])%list ->
             same_config s (self (snd (o, st')))
             /\ exists l, stdout (snd (o : Outcome unit, st')) = (stdout st ++ l)%list
                /\ l `prefix_of` [file_line local_file;
                                  arrow_line (get_synapse_path s local_file false)]
                /\ (fst (o, st') = Ok tt ->
                    l = [file_line local_file;
                         arrow_line (get_synapse_path s local_file false)])).
  { intros st' o Hc' Ho. split; [exact Hc'|]. eexists. simpl. rewrite Ho.
    rewrite <- app_assoc. split; [reflexivity|]. split; [reflexivity|]. auto. }
  destruct (_dry_run (self st)); [apply Hall; [exact Hc | reflexivity]|].
  destruct (_synapse_client (self st)); [|apply Hall; [exact Hc | reflexivity]].
  destruct (File _ parent) as [file|]; [|apply Hall; [exact Hc | reflexivity]].
  destruct (store_result _ _ _); apply Hall; try exact Hc; reflexivity.
Qed.

Lemma writes_visit entry : writes s (visit W entry) (visit_lines s entry).
Proof.
  destruct entry as [[dirpath ds] filenames]. unfold visit, visit_lines, filepaths_of.
  simpl dirpath_of. simpl snd.
  apply (writes_read _local_path); [intros s' (_ & _ & <- & _); reflexivity|].
  apply writes_bind.
  - destruct (negb _); [apply writes_create | apply writes_ret].
  - rewrite flat_map_concat_map, map_map, <- flat_map_concat_map.
    apply writes_for_each. intros f. apply writes_upload.
Qed.

Lemma writes_upload_tree : writes s (upload_tree W) (walk_lines W s).
Proof.
  unfold upload_tree, walk_lines.
  apply (writes_read _local_path); [intros s' (_ & _ & <- & _); reflexivity|].
  apply writes_for_each, writes_visit.
Qed.
End Writes.

Section WritesMirror.
Variable W : World.
Variable s : SynapseUploader.

Lemma writes_create_remote_folders folders :
  forall full_path,
    writes s (create_remote_folders W full_path folders)
           (flat_map (folder_report s true) (full_paths full_path folders)).
Proof.
  induction folders as [|x folders IH]; intros full_path; simpl.
  - apply writes_ret.
  - apply (writes_bind s _ _ (folder_report s true _)); [apply writes_create | apply IH].
Qed.

Lemma writes_create_remote_path :
  writes s (create_remote_path W) (flat_map (folder_report s true) (remote_folder_paths s)).
Proof.
  unfold create_remote_path, remote_folder_paths.
  apply (writes_read s _remote_path); [intros s' (_ & _ & _ & <-); reflexivity|].
  destruct (_remote_path s) as [rp|].
  - apply writes_create_remote_folders.
  - apply writes_ret.
Qed.

Lemma writes_mirror : writes s (mirror W (_dry_run s)) (mirror_lines W s).
Proof.
  unfold mirror, mirror_lines.
  apply writes_bind; [apply writes_create_remote_path|].
  apply writes_bind; [apply writes_upload_tree|].
  unfold finish_line. destruct (_dry_run s); apply writes_print.
Qed.
End WritesMirror.

(** ** Sorting the console lines *)



Lemma filter_flat_map {A B} (P : B -> bool) (f : A -> list B) (l : list A) :
  List.filter P (flat_map f l) = flat_map (fun x => List.filter P (f x)) l.
Proof.
  induction l as [|x l IH]; simpl; [reflexivity|].
  rewrite List.filter_app, IH. reflexivity.
Qed.

Lemma flat_map_nil {A B} (l : list A) : flat_map (fun _ : A => @nil B) l = [].
Proof. induction l; simpl; auto. Qed.

Lemma flat_map_singleton {A B} (f : A -> B) (l : list A) :
  flat_map (fun x => [f x]) l = map f l.
Proof. induction l as [|x l IH]; simpl; [reflexivity | rewrite IH; reflexivity]. Qed.

Section Lines.
Variable W : World.
Variable s : SynapseUploader.

Lemma folder_lines_file_report f : folder_lines (file_report s f) = [].
Proof. reflexivity. Qed.

Lemma file_lines_folder_report v path : file_lines (folder_report s v path) = [].
Proof. reflexivity. Qed.

Lemma file_lines_file_report f : file_lines (file_report s f) = [file_line f].
Proof. reflexivity. Qed.

Lemma folder_lines_visit_lines entry :
  folder_lines (visit_lines s entry)
  = if negb (String.eqb (dirpath_of entry) (_local_path s))
    then [folder_line (dirpath_of entry)] else [].
Proof.
  unfold visit_lines, folder_lines.
  rewrite List.filter_app, filter_flat_map.
  rewrite (flat_map_ext _ (fun _ => [])), flat_map_nil
    by (intros f; apply folder_lines_file_report).
  rewrite app_nil_r.
  destruct (negb (String.eqb (dirpath_of entry) (_local_path s))); reflexivity.
Qed.

Lemma file_lines_visit_lines entry :
  file_lines (visit_lines s entry) = map file_line (filepaths_of entry).
Proof.
  unfold visit_lines, file_lines.
  rewrite List.filter_app, filter_flat_map.
  rewrite (flat_map_ext _ (fun f => [file_line f]))
    by (intros f; apply file_lines_file_report).
  rewrite flat_map_singleton.
  destruct (negb (String.eqb (dirpath_of entry) (_local_path s))); reflexivity.
Qed.

Lemma folder_lines_walk_lines :
  folder_lines (walk_lines W s) = map folder_line (mirrored_dirs W s).
Proof.
  unfold walk_lines, mirrored_dirs. unfold folder_lines at 1.
  rewrite filter_flat_map.
  rewrite (flat_map_ext _ _ folder_lines_visit_lines).
  induction (os_walk W (_local_path s)) as [|entry l IH]; [reflexivity|].
  cbn [flat_map map List.filter]. rewrite IH.
  destruct (negb (String.eqb (dirpath_of entry) (_local_path s))); reflexivity.
Qed.

Lemma file_lines_walk_lines :
  file_lines (walk_lines W s) = map file_line (walked_files W s).
Proof.
  unfold walk_lines, walked_files. unfold file_lines at 1.
  rewrite filter_flat_map.
  rewrite (flat_map_ext _ _ file_lines_visit_lines).
  induction (os_walk W (_local_path s)) as [|entry l IH]; [reflexivity|].
  cbn [flat_map]. rewrite IH, map_app. reflexivity.
Qed.
End Lines.

(** ** Dry runs and the client *)

Lemma file_lines_header s : file_lines (header_lines s ++ ["Logging into Synapse..."]) = [].
Proof.
  unfold header_lines.
  destruct (_dry_run s), (_remote_path s); reflexivity.
Qed.

Lemma file_lines_mirror_lines W s :
  file_lines (mirror_lines W s) = map file_line (walked_files W s).
Proof.
  unfold mirror_lines. unfold file_lines at 1.
  rewrite !List.filter_app, filter_flat_map.
  rewrite (flat_map_ext _ (fun _ => [])), flat_map_nil
    by (intros f; apply file_lines_folder_report).
  fold (file_lines (walk_lines W s)). rewrite file_lines_walk_lines.
  unfold finish_line. destruct (_dry_run s); simpl; apply app_nil_r.
Qed.

Lemma dry_run_requests W p l rp :
  exists user password,
    requests (snd (run W p l rp true))
      `prefix_of` [NewClient; Login user password; Get (Project p)].
Proof.
  rewrite run_eq. cbv zeta.
  destruct (environ W !! "SYNAPSE_USER") as [u|];
    [|exists "", ""; apply prefix_nil].
  destruct (environ W !! "SYNAPSE_PASSWORD") as [pw|];
    [|exists "", ""; apply prefix_nil].
  exists u, pw.
  destruct (login_ok _ _ _ _); [|exists [Get (Project p)]; reflexivity].
  destruct (get_result _ _ _) as [project|]; [|reflexivity].
  assert (H0 : no_new_call [NewClient; Login u pw; Get (Project p)]
                 (logged_in (__init__ p l rp true) u pw project))
    by (split; reflexivity).
  destruct (no_new_call_mirror W _ true _ H0) as [_ ->]. reflexivity.
Qed.

Lemma dry_run_no_store W p l rp :
  Forall (fun q => is_store q = false) (requests (snd (run W p l rp true))).
Proof.
  destruct (dry_run_requests W p l rp) as (u & pw & t & Ht).
  assert (Hall : Forall (fun q => is_store q = false)
                   [NewClient; Login u pw; Get (Project p)])
    by (repeat constructor).
  rewrite Ht in Hall. apply Forall_app in Hall. apply Hall.
Qed.

(** C4 as stated fails: a dry run does call the client, it logs in and
    fetches the project. *)
Lemma dry_run_calls_the_client :
  ~ dry_run_makes_no_call exp1_world "syn111" "/data/exp1" None.
Proof. unfold dry_run_makes_no_call. vm_compute. discriminate. Qed.

(** C4, amended: a dry run makes no [store] call; its only client calls are
    the construction of the client, the login and the fetch of the project,
    in this order, made before the walk.  Every folder it caches, the
    project handle apart, carries the placeholder identifier [syn0], and
    when the run returns every file of the walk has its [Processing File]
    line on the console, in walk order. *)
Theorem dry_run_stores_nothing :
  forall W synapse_project local_path remote_path,
    let r := run W synapse_project local_path remote_path true in
    (exists user password,
        requests (snd r)
          `prefix_of` [NewClient; Login user password; Get (Project synapse_project)])
    /\ Forall (fun q => is_store q = false) (requests (snd r))
    /\ (forall k e, _synapse_folders (self (snd r)) !! k = Some e ->
                    k <> synapse_project -> ent_id e = Some "syn0")
    /\ (fst r = Ok tt ->
        file_lines (stdout (snd r))
        = map file_line
              (walked_files W (__init__ synapse_project local_path remote_path true))).
Proof.
  intros W p l rp r.
  pose proof (dry_run_requests W p l rp) as Hreq. fold r in Hreq.
  split; [exact Hreq|]. split.
  - apply dry_run_no_store.
  - split.
    + intros k e. apply dry_run_placeholders.
    + subst r. rewrite run_eq. cbv zeta.
      destruct (environ W !! "SYNAPSE_USER") as [u|]; [|discriminate].
      destruct (environ W !! "SYNAPSE_PASSWORD") as [pw|]; [|discriminate].
      destruct (login_ok _ _ _ _); [|discriminate].
      destruct (get_result _ _ _) as [project|]; [|discriminate].
      set (s := __init__ p l rp true).
      destruct (writes_mirror W s (logged_in s u pw project) (same_config_refl _))
        as (_ & out & Hout & _ & Hok).
      change (_dry_run s) with true in Hout, Hok.
      intros Ho. rewrite Hout, (Hok Ho). unfold file_lines at 1.
      rewrite List.filter_app.
      fold (file_lines (stdout (logged_in s u pw project))).
      fold (file_lines (mirror_lines W s)).
      rewrite file_lines_mirror_lines.
      unfold logged_in. cbn [stdout]. rewrite file_lines_header. reflexivity.
Qed.

Lemma dry_run_stores_nothing_witness :
  file_lines (stdout (snd (run exp1_world "syn111" "/data/exp1" None true)))
  = map file_line ["/data/exp1/b.txt"; "/data/exp1/sub/a.txt"].
Proof.
  apply (proj2 (proj2 (proj2
           (dry_run_stores_nothing exp1_world "syn111" "/data/exp1" None)))).
  vm_compute. reflexivity.
Defined.

(** ** Strings and paths *)

Lemma append_cons c (a b : string) : String c a ++ b = String c (a ++ b).
Proof. reflexivity. Qed.

Lemma append_nil_r (a : string) : a ++ "" = a.
Proof.
  induction a as [|c a IH]; [reflexivity|].
  rewrite append_cons, IH. reflexivity.
Qed.

Lemma append_assoc (a b c : string) : (a ++ b) ++ c = a ++ (b ++ c).
Proof.
  induction a as [|x a IH]; [reflexivity|].
  rewrite !append_cons, IH. reflexivity.
Qed.

Lemma is_empty_true s : is_empty s = true -> s = "".
Proof. destruct s; [reflexivity | discriminate]. Qed.

Lemma is_empty_app a b : is_empty (a ++ b) = is_empty a && is_empty b.
Proof. destruct a; reflexivity. Qed.

Lemma has_sep_app a b : has_sep (a ++ b) = has_sep a || has_sep b.
Proof.
  induction a as [|c a IH]; simpl; [reflexivity|].
  rewrite IH. apply orb_assoc.
Qed.

Lemma all_chars_app p a b : all_chars p (a ++ b) = all_chars p a && all_chars p b.
Proof.
  induction a as [|c a IH]; simpl; [reflexivity|].
  rewrite IH. apply andb_assoc.
Qed.

Lemma ends_with_sep_has_sep s : ends_with_sep s = true -> has_sep s = true.
Proof.
  induction s as [|c s IH]; simpl; [discriminate|].
  destruct s as [|c' s'].
  - intros ->. reflexivity.
  - intros H. rewrite (IH H). apply orb_true_r.
Qed.

Lemma ends_with_sep_app a b : is_empty b = false -> ends_with_sep (a ++ b) = ends_with_sep b.
Proof.
  intros Hb. induction a as [|c a IH]; simpl; [reflexivity|].
  destruct (a ++ b) eqn:E; [|exact IH].
  exfalso. destruct a; [change (b = "") in E; subst b; discriminate | discriminate E].
Qed.

Lemma no_sep_not_ends s : has_sep s = false -> ends_with_sep s = false.
Proof.
  intros H. destruct (ends_with_sep s) eqn:E; [|reflexivity].
  apply ends_with_sep_has_sep in E. congruence.
Qed.

Lemma no_sep_not_starts s : has_sep s = false -> starts_with_sep s = false.
Proof. destruct s as [|c s]; simpl; [reflexivity|]. apply orb_false_elim. Qed.

Lemma starts_with_sep_app a b : is_empty a = false -> starts_with_sep (a ++ b) = starts_with_sep a.
Proof. destruct a; [discriminate | reflexivity]. Qed.

Lemma head_of_no_sep x : has_sep x = false -> head_of x = "".
Proof.
  induction x as [|c x IH]; simpl; [reflexivity|].
  intros H. apply orb_false_elim in H as [Hc Hx]. rewrite Hx, Hc. reflexivity.
Qed.

Lemma head_of_ends_with_sep a : ends_with_sep a = true -> head_of a = a.
Proof.
  induction a as [|c a IH]; simpl; [reflexivity|].
  destruct a as [|c' a'].
  - intros ->. reflexivity.
  - intros H. rewrite (ends_with_sep_has_sep _ H), (IH H). reflexivity.
Qed.

Lemma head_of_app_no_sep a x : has_sep x = false -> head_of (a ++ x) = head_of a.
Proof.
  intros Hx. induction a as [|c a IH]; simpl; [apply head_of_no_sep, Hx|].
  rewrite has_sep_app, Hx, orb_false_r, IH. reflexivity.
Qed.

(** The head of [k/x] is [k/] when [x] has no separator. *)
Lemma head_of_child k x : has_sep x = false -> head_of (k ++ String sep x) = k ++ String sep "".
Proof.
  intros Hx.
  change (String sep x) with (String sep "" ++ x).
  rewrite <- append_assoc, (head_of_app_no_sep _ _ Hx).
  apply head_of_ends_with_sep. apply ends_with_sep_app. reflexivity.
Qed.

Lemma all_sep_ends_with_sep k :
  is_empty k = false -> ends_with_sep k = false -> all_chars is_sep k = false.
Proof.
  induction k as [|c k IH]; simpl; [discriminate|]. intros _.
  destruct k as [|c' k'].
  - intros ->. reflexivity.
  - intros H. rewrite (IH eq_refl H). apply andb_false_r.
Qed.

Lemma rstrip_no_trailing k : ends_with_sep k = false -> rstrip is_sep k = k.
Proof.
  induction k as [|c k IH]; simpl; [reflexivity|].
  destruct k as [|c' k'].
  - intros ->. reflexivity.
  - intros H. rewrite (IH H). rewrite andb_false_r. reflexivity.
Qed.

(** [os.path.dirname] of a child is the parent, for a parent that is not
    empty and has no trailing separator. *)
Lemma dirname_child k x :
  is_empty k = false -> ends_with_sep k = false -> has_sep x = false ->
  dirname (k ++ String sep x) = k.
Proof.
  intros Hk He Hx. unfold dirname. rewrite (head_of_child _ _ Hx).
  rewrite is_empty_app, Hk, all_chars_app, (all_sep_ends_with_sep _ Hk He). simpl.
  rewrite rstrip_app_all by reflexivity. apply rstrip_no_trailing, He.
Qed.

Lemma dirname_top x : has_sep x = false -> dirname x = "".
Proof. intros Hx. unfold dirname. rewrite (head_of_no_sep _ Hx). reflexivity. Qed.

Lemma is_name_inv x : is_name x = true -> is_empty x = false /\ has_sep x = false.
Proof.
  unfold is_name. intros H. apply andb_prop in H as [H1 H2].
  apply negb_true_iff in H1, H2. auto.
Qed.

(** [os.path.join] of a path without trailing separator and a relative
    component. *)
Lemma join2_relative p c :
  ends_with_sep p = false -> starts_with_sep c = false ->
  join2 p c = if is_empty p then c else p ++ String sep c.
Proof.
  intros Hp Hc. unfold join2. rewrite Hc, Hp, orb_false_r.
  destruct p; reflexivity.
Qed.

Lemma ends_with_sep_join2 p c :
  is_empty c = false -> ends_with_sep c = false -> starts_with_sep c = false ->
  ends_with_sep (join2 p c) = false /\ is_empty (join2 p c) = false.
Proof.
  intros Hc He Hs. unfold join2. rewrite Hs.
  destruct (is_empty p || ends_with_sep p).
  - rewrite ends_with_sep_app, is_empty_app, Hc, andb_false_r by exact Hc. auto.
  - rewrite ends_with_sep_app, is_empty_app by reflexivity.
    rewrite andb_false_r. split; [|reflexivity].
    change (String sep c) with (String sep "" ++ c).
    rewrite ends_with_sep_app by exact Hc. exact He.
Qed.

(** The parent of the key of a top-level name is the project key. *)
Lemma dirname_join2_name p x :
  ends_with_sep p = false -> is_name x = true -> dirname (join2 p x) = p.
Proof.
  intros Hp Hx. apply is_name_inv in Hx as [Hne Hns].
  rewrite join2_relative by auto using no_sep_not_starts.
  destruct (is_empty p) eqn:E.
  - apply is_empty_true in E. subst p. apply dirname_top, Hns.
  - apply dirname_child; assumption.
Qed.

(** The parent of the key of [c/x] is the key of [c]. *)
Lemma dirname_join2_child p c x :
  ends_with_sep p = false ->
  is_empty c = false -> ends_with_sep c = false -> starts_with_sep c = false ->
  is_name x = true ->
  dirname (join2 p (c ++ String sep x)) = join2 p c.
Proof.
  intros Hp Hc He Hs Hx. apply is_name_inv in Hx as [Hne Hns].
  rewrite !join2_relative
    by (try rewrite starts_with_sep_app; assumption).
  destruct (is_empty p) eqn:E.
  - apply dirname_child; assumption.
  - change (String sep (c ++ String sep x)) with (String sep c ++ String sep x).
    rewrite <- append_assoc. apply dirname_child; [| |exact Hns].
    + rewrite is_empty_app, E. reflexivity.
    + change (String sep c) with (String sep "" ++ c).
      rewrite <- append_assoc, ends_with_sep_app by exact Hc. exact He.
Qed.

(** ** The folders of the remote path *)

Lemma split_no_sep s : Forall (fun x => has_sep x = false) (split s).
Proof.
  induction s as [|c s IH]; simpl; [repeat constructor|].
  destruct (is_sep c) eqn:Hc; [constructor; [reflexivity | exact IH]|].
  destruct (split s) as [|h t]; [repeat constructor; simpl; rewrite Hc; reflexivity|].
  inversion IH as [|? ? Hh Ht]; subst. constructor; [|exact Ht].
  simpl. rewrite Hc, Hh. reflexivity.
Qed.

Lemma filter_None_names s : Forall (fun x => is_name x = true) (filter_None (split s)).
Proof.
  unfold filter_None. induction (split_no_sep s) as [|x l Hx Hl IH]; simpl; [constructor|].
  destruct (is_empty x) eqn:E; simpl; [exact IH|].
  constructor; [|exact IH]. unfold is_name. rewrite E, Hx. reflexivity.
Qed.

Lemma cumulative_step acc x :
  ends_with_sep acc = false -> is_name x = true ->
  join acc [x] = (if is_empty acc then x else acc ++ String sep x)
  /\ is_empty (join acc [x]) = false
  /\ ends_with_sep (join acc [x]) = false
  /\ (starts_with_sep acc = false -> starts_with_sep (join acc [x]) = false).
Proof.
  intros Ha Hx. destruct (is_name_inv _ Hx) as [Hne Hns].
  pose proof (no_sep_not_starts _ Hns) as Hst.
  pose proof (no_sep_not_ends _ Hns) as Hen.
  change (join acc [x]) with (join2 acc x).
  destruct (ends_with_sep_join2 acc x Hne Hen Hst) as [H1 H2].
  rewrite (join2_relative _ _ Ha Hst) in *.
  repeat split; try assumption.
  destruct acc; [intros _; exact Hst | intros H; exact H].
Qed.



Section RemotePath.
Variable W : World.

Lemma can_create_insert st k e out calls :
  can_create W st -> is_Some (ent_id e) ->
  can_create W (mkState (set_folders (self st) (<[k := e]> (_synapse_folders (self st))))
                        out calls).
Proof.
  intros [Hids Hc] He. split; [|exact Hc].
  intros k' e'. cbn [self _synapse_folders set_folders]. intros H.
  apply lookup_insert_Some in H as [[_ <-] | [_ H]]; [exact He | exact (Hids _ _ H)].
Qed.

Lemma create_directory_ok path v st parent :
  can_create W st ->
  _synapse_folders (self st) !! dirname (get_synapse_path (self st) path v) = Some parent ->
  exists folder e,
    Folder (basename (get_synapse_path (self st) path v)) parent = Some folder
    /\ is_Some (ent_id e)
    /\ create_directory_in_synapse W path v st
       = (Ok tt,
          mkState (set_folders (self st)
                     (<[get_synapse_path (self st) path v := e]> (_synapse_folders (self st))))
                  (stdout st ++ folder_report (self st) v path)%list
                  (if _dry_run (self st) then requests st
                   else requests st ++ [Store folder])%list).
Proof.
  intros [Hids Hc] Hp. rewrite create_directory_in_synapse_eq. cbv zeta. rewrite Hp.
  destruct (Folder_is_Some (basename (get_synapse_path (self st) path v)) parent
              (Hids _ _ Hp)) as [folder Ef].
  rewrite Ef. unfold folder_report. rewrite <- app_assoc. simpl.
  exists folder.
  destruct (_dry_run (self st)) eqn:Hd.
  - exists (set_id folder "syn0"). repeat split. simpl. eauto.
  - destruct Hc as [Hc | [Hc Hs]]; [congruence|]. rewrite Hc.
    destruct (Hs (requests st) folder) as (e & -> & He).
    exists e. repeat split. exact He.
Qed.

Lemma create_remote_folders_ok segments :
  Forall (fun x => is_name x = true) segments ->
  forall acc st,
    let p := _synapse_project (self st) in
    ends_with_sep p = false ->
    ends_with_sep acc = false -> starts_with_sep acc = false ->
    is_Some (_synapse_folders (self st) !! parent_key p acc) ->
    can_create W st ->
    exists st',
      create_remote_folders W acc segments st = (Ok tt, st')
      /\ same_config (self st) (self st')
      /\ can_create W st'
      /\ dom (_synapse_folders (self st'))
         = dom (_synapse_folders (self st))
             ∪ list_to_set (map (fun c => join p [c]) (cumulative_from acc segments)).
Proof.
  induction 1 as [|x l Hx Hl IH]; intros acc st p Hp Ha Hs [parent Hpar] Hc.
  - exists st. simpl. split; [reflexivity|]. split; [apply same_config_refl|].
    split; [exact Hc|]. symmetry. apply union_empty_r_L.
  - simpl create_remote_folders.
    destruct (cumulative_step acc x Ha Hx) as (E & Hne & He & Hst).
    specialize (Hst Hs).
    assert (Hdir : dirname (get_synapse_path (self st) (join acc [x]) true)
                   = parent_key p acc).
    { unfold get_synapse_path, parent_key. fold p.
      change (join p [join acc [x]]) with (join2 p (join acc [x])).
      rewrite E. destruct (is_empty acc) eqn:Hacc.
      - apply dirname_join2_name; assumption.
      - apply dirname_join2_child; assumption. }
    rewrite <- Hdir in Hpar.
    destruct (create_directory_ok _ true st parent Hc Hpar) as (folder & e & _ & Hid & Hcd).
    rewrite (bind_Ok _ _ _ _ _ Hcd).
    match goal with |- context [create_remote_folders W _ l ?s1] => set (st1 := s1) end.
    destruct (IH (join acc [x]) st1) as (st' & Hrun & Hcfg & Hc' & Hdom).
    + exact Hp.
    + exact He.
    + exact Hst.
    + unfold parent_key. rewrite Hne. subst st1. simpl.
      rewrite lookup_insert_eq. eauto.
    + subst st1. apply can_create_insert; assumption.
    + exists st'. split; [exact Hrun|]. split; [exact Hcfg|]. split; [exact Hc'|].
      rewrite Hdom. subst st1. simpl. rewrite dom_insert_L.
      rewrite <- E. fold p. unfold get_synapse_path.
      rewrite (comm_L (∪) {[_]} (dom _)), <- (assoc_L (∪)). reflexivity.
Qed.

End RemotePath.

(** ** A dry run against the real run *)

Lemma processing_lines_app a b :
  processing_lines (a ++ b) = (processing_lines a ++ processing_lines b)%list.
Proof. apply List.filter_app. Qed.

Lemma processing_lines_header s :
  processing_lines (header_lines s ++ ["Logging into Synapse..."]) = [].
Proof. unfold header_lines. destruct (_dry_run s), (_remote_path s); reflexivity. Qed.

Lemma announced_app l st out :
  announced l st -> announced l (mkState (self st) (stdout st ++ out)%list (requests st)).
Proof.
  unfold announced. cbn [stdout]. rewrite processing_lines_app.
  intros H. apply prefix_app_r, H.
Qed.

Lemma announced_print l line : stable (announced l) (print line).
Proof. intros st H. apply (announced_app l st [line] H). Qed.

Lemma announced_create W l path v :
  stable (announced l) (create_directory_in_synapse W path v).
Proof.
  intros st H. rewrite create_directory_in_synapse_eq. cbv zeta.
  pose proof (announced_app l st [folder_line path] H) as H1.
  pose proof (announced_app l _ [arrow_line (get_synapse_path (self st) path v)] H1) as H2.
  destruct (_synapse_folders (self st) !! _); [|exact H1].
  destruct (Folder _ _); [|exact H2].
  destruct (_dry_run (self st)); [exact H2|].
  destruct (_synapse_client (self st)); [|exact H2].
  destruct (store_result _ _ _); exact H2.
Qed.

Lemma announced_upload W l local_file :
  stable (announced l) (upload_file_to_synapse W local_file).
Proof.
  intros st H. rewrite upload_file_to_synapse_eq. cbv zeta.
  pose proof (announced_app l st [file_line local_file] H) as H1.
  pose proof (announced_app l _ [arrow_line (get_synapse_path (self st) local_file false)] H1)
    as H2.
  destruct (_synapse_folders (self st) !! _); [|exact H1].
  destruct (_dry_run (self st)); [exact H2|].
  destruct (_synapse_client (self st)); [|exact H2].
  destruct (File _ _); [|exact H2].
  destruct (store_result _ _ _); exact H2.
Qed.

Lemma simulates2_bind m1 m2 k1 k2 :
  simulates2 m1 m2 -> simulates2 k1 k2 -> simulates2 (m1 ;; k1) (m2 ;; k2).
Proof.
  intros [G1 S1] [Gk Sk]. split.
  - intros l. apply stable_bind; [apply G1 | intros _; apply Gk].
  - intros d r Hs. destruct (S1 d r Hs) as [[He Hpre] | [Hs' Hiff]].
    + left. unfold bind.
      destruct (m2 r) as [[[]|e2] r'];
        [destruct He as [[e He] | He]; discriminate|].
      split; [exact He|]. cbn [snd] in *.
      destruct (m1 d) as [[[]|e1] d']; cbn [snd] in *; [apply Gk, Hpre | exact Hpre].
    + unfold bind.
      destruct (m1 d) as [[[]|e1] d'], (m2 r) as [[[]|e2] r']; simpl in *.
      * apply Sk, Hs'.
      * destruct Hiff as [Hiff _]. specialize (Hiff eq_refl). discriminate.
      * destruct Hiff as [_ Hiff]. specialize (Hiff eq_refl). discriminate.
      * right. split; [exact Hs'|]. split; discriminate.
Qed.

Lemma simulates_ret : simulates (ret tt).
Proof.
  split; [intros l st H; exact H|].
  intros d r Hs. right. split; [exact Hs | reflexivity].
Qed.

Lemma simulates_for_each {A} (l : list A) (body : A -> M unit) :
  (forall x, simulates (body x)) -> simulates (for_each l body).
Proof.
  intros Hb. induction l as [|x l IH]; simpl.
  - apply simulates_ret.
  - apply simulates2_bind; [apply Hb | exact IH].
Qed.

(** Reading a setting that the two runs share. *)
Lemma simulates_read {A} (f : SynapseUploader -> A) (k : A -> M unit) :
  (forall d r, sim d r -> f (self d) = f (self r)) ->
  (forall a, simulates (k a)) ->
  simulates (let* x := read f in k x).
Proof.
  intros Hf Hk. split.
  - intros l. apply stable_bind; [intros st H; exact H | intros a; apply Hk].
  - intros d r Hs. unfold bind, read. rewrite (Hf d r Hs). apply Hk, Hs.
Qed.

Lemma sim_get_synapse_path d r path v :
  sim d r -> get_synapse_path (self d) path v = get_synapse_path (self r) path v.
Proof.
  intros (_ & _ & _ & Hp & Hl & Hr & _). unfold get_synapse_path, remote_path_or_empty.
  rewrite Hp, Hl, Hr. reflexivity.
Qed.

Lemma sim_lookup d r k :
  sim d r ->
  (_synapse_folders (self d) !! k = None /\ _synapse_folders (self r) !! k = None)
  \/ (exists e e', _synapse_folders (self d) !! k = Some e
                   /\ _synapse_folders (self r) !! k = Some e').
Proof.
  intros (_ & _ & _ & _ & _ & _ & Hdom & _).
  destruct (_synapse_folders (self d) !! k) as [e|] eqn:Ed.
  - right. assert (Hin : k ∈ dom (_synapse_folders (self r))).
    { rewrite <- Hdom. apply elem_of_dom. eauto. }
    apply elem_of_dom in Hin as [e' He']. eauto.
  - left. split; [reflexivity|].
    apply not_elem_of_dom. rewrite <- Hdom. apply not_elem_of_dom. exact Ed.
Qed.

Section Simulation.
Variable W : World.

(** The two runs after a step that has only printed. *)
Lemma sim_print d r out1 out2 :
  sim d r ->
  processing_lines out1 = processing_lines out2 ->
  sim (mkState (self d) (stdout d ++ out1)%list (requests d))
      (mkState (self r) (stdout r ++ out2)%list (requests r)).
Proof.
  intros (Hd & Hr & Hc & Hp & Hl & Hrp & Hdom & Hout & Hid) Ho.
  repeat split; try assumption. simpl.
  rewrite !processing_lines_app, Hout, Ho. reflexivity.
Qed.

Lemma simulates_create path v : simulates (create_directory_in_synapse W path v).
Proof.
  split; [intros l; apply announced_create|].
  intros d r Hs. rewrite !create_directory_in_synapse_eq. cbv zeta.
  rewrite <- (sim_get_synapse_path d r path v Hs).
  set (full := get_synapse_path (self d) path v).
  pose proof Hs as (Hd & Hr & Hc & Hp & Hl & Hrp & Hdom & Hout & Hid).
  destruct (sim_lookup d r (dirname full) Hs) as [[-> ->] | (e & e' & Ee & Ee')].
  - right. split; [|split; discriminate].
    apply (sim_print d r [_] [_] Hs). reflexivity.
  - rewrite Ee, Ee'.
    pose proof (sim_print d r [folder_line path; arrow_line full]
                  [folder_line path; arrow_line full] Hs eq_refl) as Hs2.
    change (stdout ?x ++ [?a; ?b])%list with (stdout x ++ [a] ++ [b])%list in Hs2.
    rewrite !app_assoc in Hs2.
    destruct (Folder (basename full) e) as [fd|] eqn:Efd.
    + rewrite Hd. destruct (Folder (basename full) e') as [fr|] eqn:Efr.
      * rewrite Hr, Hc.
        destruct (store_result _ _ _) as [e''|].
        -- right. split; [|split; reflexivity].
           destruct Hs2 as (_ & _ & _ & _ & _ & _ & _ & Hout2 & _).
           repeat split; try assumption; simpl.
           ++ rewrite !dom_insert_L, Hdom. reflexivity.
           ++ intros k x Hk Hx.
              apply lookup_insert_Some in Hk as [[_ <-] | [Hne Hk]]; [discriminate|].
              rewrite lookup_insert_ne by exact Hne. exact (Hid k x Hk Hx).
        -- left. split; [left; eexists; reflexivity|].
           unfold announced. simpl. rewrite !processing_lines_app, Hout. reflexivity.
      * left. split; [right; reflexivity|].
        unfold announced. simpl. rewrite !processing_lines_app, Hout. reflexivity.
    + apply Folder_None in Efd. rewrite (Hid _ _ Ee Efd) in Ee'.
      injection Ee' as <-. unfold Folder. rewrite Efd.
      right. split; [exact Hs2 | split; discriminate].
Qed.

Lemma simulates_upload local_file : simulates (upload_file_to_synapse W local_file).
Proof.
  split; [intros l; apply announced_upload|].
  intros d r Hs. rewrite !upload_file_to_synapse_eq. cbv zeta.
  rewrite <- (sim_get_synapse_path d r local_file false Hs).
  set (full := get_synapse_path (self d) local_file false).
  pose proof Hs as (Hd & Hr & Hc & Hp & Hl & Hrp & Hdom & Hout & Hid).
  destruct (sim_lookup d r (dirname full) Hs) as [[-> ->] | (e & e' & -> & ->)].
  - right. split; [|split; discriminate].
    apply (sim_print d r [_] [_] Hs). reflexivity.
  - rewrite Hd, Hr, Hc.
    destruct (File local_file e') as [file|].
    + destruct (store_result _ _ _) as [e''|].
      * right. split; [|split; reflexivity].
        repeat split; try assumption; simpl.
        rewrite !processing_lines_app, Hout. reflexivity.
      * left. split; [left; eexists; reflexivity|].
        unfold announced. simpl. rewrite !processing_lines_app, Hout. reflexivity.
    + left. split; [right; reflexivity|].
      unfold announced. simpl. rewrite !processing_lines_app, Hout. reflexivity.
Qed.

Lemma simulates_create_remote_folders folders :
  forall full_path, simulates (create_remote_folders W full_path folders).
Proof.
  induction folders as [|x folders IH]; intros full_path; simpl.
  - apply simulates_ret.
  - apply simulates2_bind; [apply simulates_create | apply IH].
Qed.

Lemma simulates_create_remote_path : simulates (create_remote_path W).
Proof.
  unfold create_remote_path. apply simulates_read.
  - intros d r (_ & _ & _ & _ & _ & Hrp & _). exact Hrp.
  - intros [rp|]; [apply simulates_create_remote_folders | apply simulates_ret].
Qed.

Lemma simulates_visit entry : simulates (visit W entry).
Proof.
  destruct entry as [[dirpath ds] filenames]. unfold visit.
  apply simulates_read.
  - intros d r (_ & _ & _ & _ & Hl & _). exact Hl.
  - intros local_path. apply simulates2_bind.
    + destruct (negb _); [apply simulates_create | apply simulates_ret].
    + apply simulates_for_each. intros f. apply simulates_upload.
Qed.

Lemma simulates_upload_tree : simulates (upload_tree W).
Proof.
  unfold upload_tree. apply simulates_read.
  - intros d r (_ & _ & _ & _ & Hl & _). exact Hl.
  - intros local_path. apply simulates_for_each, simulates_visit.
Qed.

Lemma simulates_mirror : simulates2 (mirror W true) (mirror W false).
Proof.
  unfold mirror.
  apply simulates2_bind; [apply simulates_create_remote_path|].
  apply simulates2_bind; [apply simulates_upload_tree|].
  split; [intros l; apply announced_print|].
  intros d r Hs. right. split; [|split; reflexivity].
  apply (sim_print d r [_] [_] Hs). reflexivity.
Qed.

End Simulation.

(** The two runs of a configuration are alike when they start to mirror. *)
Lemma sim_logged_in p l rp u pw project :
  sim (logged_in (__init__ p l rp true) u pw project)
      (logged_in (__init__ p l rp false) u pw project).
Proof. repeat split. intros k e H _. exact H. Qed.

(** When the service refuses the first [store], the real run stops there
    and the dry run goes on. *)
Example real_run_stopped_by_the_service :
  let dry := run refusing_world "syn111" "/data/exp1" None true in
  let real := run refusing_world "syn111" "/data/exp1" None false in
  fst real = Raise (SynapseError (Store (mkEntity FileT "/data/exp1/b.txt"
                                                  (Some "syn111") None)))
  /\ processing_lines (stdout (snd real)) = [file_line "/data/exp1/b.txt"]
  /\ processing_lines (stdout (snd dry))
     = [file_line "/data/exp1/b.txt"; folder_line "/data/exp1/sub";
        file_line "/data/exp1/sub/a.txt"].
Proof. vm_compute. auto. Qed.

(** When the service stores a folder and returns a handle without
    identifier, the real run stops at the first entry below this folder,
    and the dry run goes on. *)
Example real_run_stopped_by_a_handle_without_identifier :
  let dry := run forgetful_world "syn111" "/data/exp1" None true in
  let real := run forgetful_world "syn111" "/data/exp1" None false in
  fst real = Raise SynapseMalformedEntityError
  /\ fst dry = Ok tt
  /\ processing_lines (stdout (snd real))
     = [file_line "/data/exp1/b.txt"; folder_line "/data/exp1/sub";
        file_line "/data/exp1/sub/a.txt"]
  /\ map is_store (requests (snd real)) = [false; false; false; true; true].
Proof. vm_compute. auto. Qed.

(** C3 as stated fails: where the service refuses a [store], the real run
    stops after its first [Processing] line and the dry run prints three. *)
Lemma dry_run_prints_more_than_the_real_run :
  ~ dry_run_prints_the_same refusing_world "syn111" "/data/exp1" None.
Proof. intros [_ H]. vm_compute in H. discriminate. Qed.

(** C3, amended: a dry run makes no [store] call, so uploads no file.  The
    [Processing] lines of the real run of the same configuration in the same
    world are always the first of the [Processing] lines of the dry run, and
    unless the real run is stopped by the service refusing a [store], or by
    a handle that the service returned without identifier, the two runs
    print the same [Processing] lines and return or raise alike. *)
Theorem dry_run_prints_what_the_real_run_prints :
  forall W synapse_project local_path remote_path,
    let dry := run W synapse_project local_path remote_path true in
    let real := run W synapse_project local_path remote_path false in
    Forall (fun q => is_store q = false) (requests (snd dry))
    /\ processing_lines (stdout (snd real)) `prefix_of` processing_lines (stdout (snd dry))
    /\ ((forall e, fst real <> Raise (SynapseError (Store e))) ->
        fst real <> Raise SynapseMalformedEntityError ->
        processing_lines (stdout (snd dry)) = processing_lines (stdout (snd real))
        /\ (fst dry = Ok tt <-> fst real = Ok tt)).
Proof.
  intros W p l rp dry real.
  split; [apply dry_run_no_store|].
  subst dry real. rewrite !run_eq. cbv zeta.
  assert (Hraise : forall e (sd sr : SynapseUploader) qd qr,
             let xd := (@Raise unit e,
                        mkState sd (header_lines (__init__ p l rp true)
                                      ++ ["Logging into Synapse..."])%list qd) in
             let xr := (@Raise unit e,
                        mkState sr (header_lines (__init__ p l rp false)
                                      ++ ["Logging into Synapse..."])%list qr) in
             processing_lines (stdout (snd xr)) `prefix_of` processing_lines (stdout (snd xd))
             /\ ((forall e', fst xr <> Raise (SynapseError (Store e'))) ->
                 fst xr <> Raise SynapseMalformedEntityError ->
                 processing_lines (stdout (snd xd)) = processing_lines (stdout (snd xr))
                 /\ (fst xd = Ok tt <-> fst xr = Ok tt))).
  { intros. subst xd xr. cbn [stdout snd fst]. rewrite !processing_lines_header.
    split; [reflexivity|]. intros _ _. split; [reflexivity|]. split; discriminate. }
  destruct (environ W !! "SYNAPSE_USER") as [u|]; [|apply Hraise].
  destruct (environ W !! "SYNAPSE_PASSWORD") as [pw|]; [|apply Hraise].
  destruct (login_ok _ _ _ _); [|apply Hraise].
  destruct (get_result _ _ _) as [project|]; [|apply Hraise].
  destruct (proj2 (simulates_mirror W) _ _
              (sim_logged_in p l rp u pw project))
    as [[He Hpre] | [(_ & _ & _ & _ & _ & _ & _ & Hout & _) Hiff]].
  - split; [exact Hpre|]. intros Hreal Hid. exfalso.
    destruct He as [[e He] | He]; [exact (Hreal e He) | exact (Hid He)].
  - split; [rewrite Hout; reflexivity|]. intros _ _. split; [exact Hout | exact Hiff].
Qed.

Lemma dry_run_prints_what_the_real_run_prints_witness :
  let dry := run exp1_world "syn111" "/data/exp1" (Some "results/run1") true in
  let real := run exp1_world "syn111" "/data/exp1" (Some "results/run1") false in
  processing_lines (stdout (snd dry)) = processing_lines (stdout (snd real))
  /\ (fst dry = Ok tt <-> fst real = Ok tt).
Proof.
  apply (proj2 (proj2 (dry_run_prints_what_the_real_run_prints
                         exp1_world "syn111" "/data/exp1" (Some "results/run1")))).
  - intros e. vm_compute. discriminate.
  - vm_compute. discriminate.
Defined.

(** ** [str.replace] *)

Lemma startswith_app pre t : startswith pre (pre ++ t) = true.
Proof.
  induction pre as [|c pre IH]; [reflexivity|].
  rewrite append_cons. simpl. rewrite Ascii.eqb_refl, IH. reflexivity.
Qed.

Lemma startswith_inv pre s : startswith pre s = true -> exists t, s = pre ++ t.
Proof.
  revert s. induction pre as [|c pre IH]; intros s H.
  - exists s. reflexivity.
  - destruct s as [|c' s]; simpl in H; [discriminate|].
    apply andb_prop in H as [Hc Hs]. apply Ascii.eqb_eq in Hc. subst c'.
    destruct (IH _ Hs) as [t ->]. exists t. reflexivity.
Qed.

Lemma length_append (a b : string) :
  String.length (a ++ b) = String.length a + String.length b.
Proof.
  induction a as [|c a IH]; [reflexivity|].
  rewrite append_cons. simpl. rewrite IH. reflexivity.
Qed.

Lemma drop_chars_app a b : drop_chars (String.length a) (a ++ b) = b.
Proof. induction a as [|c a IH]; [destruct b; reflexivity | exact IH]. Qed.

Lemma startswith_has_sep pre s :
  startswith pre s = true -> has_sep pre = true -> has_sep s = true.
Proof.
  intros H Hp. destruct (startswith_inv _ _ H) as [t ->].
  rewrite has_sep_app, Hp. reflexivity.
Qed.

(** A pattern that ends with a separator does not reach into a name. *)
Lemma startswith_app_name pre a n :
  ends_with_sep pre = true -> has_sep n = false ->
  startswith pre (a ++ n) = true -> startswith pre a = true.
Proof.
  intros Hp Hn. revert a. induction pre as [|x pre IH]; intros a H; [reflexivity|].
  destruct a as [|y a].
  - apply startswith_has_sep in H; [|apply ends_with_sep_has_sep, Hp].
    change ("" ++ n) with n in H. congruence.
  - rewrite append_cons in H. simpl in H |- *.
    apply andb_prop in H as [Hxy H]. rewrite Hxy. simpl.
    destruct pre as [|x' pre']; [reflexivity|].
    apply IH; [exact Hp | exact H].
Qed.

(** A pattern found in [a ++ [c]] but not in [a] is all of [a ++ [c]]. *)
Lemma startswith_snoc pre a c :
  startswith pre (a ++ String c "") = true -> startswith pre a = false ->
  pre = a ++ String c "".
Proof.
  revert a. induction pre as [|x pre IH]; intros a H Hn.
  - destruct a; discriminate.
  - destruct a as [|y a].
    + change ("" ++ String c "") with (String c "") in *. simpl in H.
      apply andb_prop in H as [Hx H]. apply Ascii.eqb_eq in Hx. subst x.
      destruct pre; [reflexivity | discriminate].
    + rewrite append_cons in *. simpl in H, Hn.
      apply andb_prop in H as [Hx H]. rewrite Hx in Hn. simpl in Hn.
      apply Ascii.eqb_eq in Hx. subst y. f_equal. apply IH; assumption.
Qed.

Section Replace.
Variables old new : string.
Hypothesis old_not_empty : is_empty old = false.

Lemma replace_from_drop k s :
  replace_from old new k s = replace_from old new 0 (drop_chars k s).
Proof.
  revert k. induction s as [|c s IH]; intros [|k]; try reflexivity.
  simpl. apply IH.
Qed.

Lemma replace_from_match t :
  replace_from old new 0 (old ++ t) = new ++ replace_from old new 0 t.
Proof.
  destruct old as [|c old'] eqn:E; [discriminate|].
  rewrite append_cons. cbn [replace_from]. rewrite <- append_cons, <- E.
  rewrite startswith_app. f_equal.
  rewrite replace_from_drop. f_equal.
  replace (String.length old - 1) with (String.length old')
    by (rewrite E; simpl; lia).
  apply drop_chars_app.
Qed.

Lemma replace_from_char c s :
  startswith old (String c s) = false ->
  replace_from old new 0 (String c s) = String c (replace_from old new 0 s).
Proof. intros H. cbn [replace_from]. rewrite H. reflexivity. Qed.

(** Induction along the scan of [replace]. *)
Lemma scan_ind (P : string -> Prop) :
  P "" ->
  (forall t, P t -> P (old ++ t)) ->
  (forall c s, startswith old (String c s) = false -> P s -> P (String c s)) ->
  forall s, P s.
Proof.
  intros Hnil Hmatch Hchar s.
  remember (String.length s) as n eqn:Hn.
  revert s Hn. induction n as [n IH] using lt_wf_ind. intros s Hn.
  destruct s as [|c s]; [exact Hnil|].
  destruct (startswith old (String c s)) eqn:E.
  - destruct (startswith_inv _ _ E) as [t Ht]. rewrite Ht.
    apply Hmatch. apply (IH (String.length t)); [|reflexivity].
    subst n. rewrite Ht, length_append.
    destruct old; [discriminate | simpl; lia].
  - apply (Hchar _ _ E). apply (IH (String.length s)); [|reflexivity].
    subst n. simpl. lia.
Qed.

End Replace.

(** ** Removing the local root from a walked path *)

Lemma append_eq_append (a b q t : string) :
  a ++ b = q ++ t ->
  (exists u, a = q ++ u /\ t = u ++ b) \/ (exists u, q = a ++ u /\ b = u ++ t).
Proof.
  revert q. induction a as [|c a IH]; intros q H.
  - right. exists q. split; [reflexivity | exact H].
  - destruct q as [|c' q].
    + left. exists (String c a). split; [reflexivity|]. symmetry. exact H.
    + rewrite !append_cons in H. inversion H as [[Hc Hrest]]. subst c'.
      destruct (IH _ Hrest) as [(u & -> & ->) | (u & -> & ->)].
      * left. exists u. split; reflexivity.
      * right. exists u. split; reflexivity.
Qed.

Lemma initial_nil x : initial "" x.
Proof. exists x. reflexivity. Qed.

Lemma initial_refl x : initial x x.
Proof. exists "". symmetry. apply append_nil_r. Qed.

Lemma initial_cons c q x : initial q x -> initial (String c q) (String c x).
Proof. intros [t ->]. exists t. reflexivity. Qed.

Lemma initial_trans q x y : initial q x -> initial x y -> initial q y.
Proof. intros [t ->] [u ->]. exists (t ++ u). apply append_assoc. Qed.

Section RemoveRoot.
Variable pat : string.
Hypothesis pat_sep : ends_with_sep pat = true.

Lemma pat_not_empty : is_empty pat = false.
Proof. destruct pat; [discriminate | reflexivity]. Qed.

Lemma pat_has_sep : has_sep pat = true.
Proof. apply ends_with_sep_has_sep, pat_sep. Qed.

Lemma remove_no_sep x : has_sep x = false -> replace_from pat "" 0 x = x.
Proof.
  induction x as [|c x IH]; [reflexivity|]. intros H.
  rewrite replace_from_char.
  - rewrite IH; [reflexivity|]. simpl in H. apply orb_false_elim in H. apply H.
  - destruct (startswith pat (String c x)) eqn:E; [|reflexivity].
    apply startswith_has_sep in E; [congruence | apply pat_has_sep].
Qed.

Lemma remove_pat : replace_from pat "" 0 pat = "".
Proof.
  rewrite <- (append_nil_r pat) at 2.
  rewrite (replace_from_match _ _ pat_not_empty). reflexivity.
Qed.

(** The name at the end of a path is kept as it is. *)
Lemma remove_app_name n u :
  has_sep n = false ->
  replace_from pat "" 0 (u ++ n) = replace_from pat "" 0 u ++ n.
Proof.
  intros Hn. induction u as [|t IH|c s Hc IH] using (scan_ind pat pat_not_empty).
  - apply remove_no_sep, Hn.
  - rewrite append_assoc, !(replace_from_match _ _ pat_not_empty). exact IH.
  - rewrite append_cons, !replace_from_char, IH; [reflexivity | exact Hc |].
    destruct (startswith pat (String c (s ++ n))) eqn:E; [|reflexivity].
    rewrite <- append_cons in E.
    apply (startswith_app_name _ _ _ pat_sep Hn) in E. congruence.
Qed.

(** A separator added at the end of a path is kept, or it closes a match
    and what is left is an initial part of the result without it. *)
Lemma remove_snoc_sep u :
  replace_from pat "" 0 (u ++ String sep "")
  = replace_from pat "" 0 u ++ String sep ""
  \/ initial (replace_from pat "" 0 (u ++ String sep "")) (replace_from pat "" 0 u).
Proof.
  induction u as [|t IH|c s Hc IH] using (scan_ind pat pat_not_empty).
  - change ("" ++ String sep "") with (String sep "").
    destruct (startswith pat (String sep "")) eqn:E.
    + right. destruct (startswith_inv _ _ E) as [t Ht]. rewrite Ht.
      rewrite (replace_from_match _ _ pat_not_empty).
      assert (Ht' : t = "").
      { apply (f_equal String.length) in Ht. rewrite length_append in Ht.
        pose proof pat_not_empty as Hp.
        destruct pat; [discriminate|]. destruct t; [reflexivity|]. simpl in Ht. lia. }
      subst t. apply initial_refl.
    + left. rewrite replace_from_char by exact E. reflexivity.
  - rewrite append_assoc, !(replace_from_match _ _ pat_not_empty). exact IH.
  - rewrite (replace_from_char _ _ c s Hc).
    destruct (startswith pat (String c s ++ String sep "")) eqn:E.
    + right. rewrite <- (startswith_snoc _ _ _ E Hc), remove_pat. apply initial_nil.
    + rewrite append_cons in *. rewrite (replace_from_char _ _ _ _ E).
      destruct IH as [-> | IH]; [left; reflexivity | right; apply initial_cons, IH].
Qed.

End RemoveRoot.

(** ** The cache keeps the parents *)

Lemma join2_base j rel :
  starts_with_sep rel = false -> join2 j rel = join2 j "" ++ rel.
Proof.
  intros H. unfold join2. rewrite H. simpl starts_with_sep. cbv iota.
  destruct (is_empty j || ends_with_sep j).
  - rewrite append_nil_r. reflexivity.
  - rewrite append_assoc. reflexivity.
Qed.

Lemma root_pattern_sep s : ends_with_sep (root_pattern s) = true.
Proof. unfold root_pattern. rewrite ends_with_sep_app; reflexivity. Qed.

Lemma relative_eq s path : relative s path = replace_from (root_pattern s) "" 0 path.
Proof.
  unfold relative, replace.
  rewrite (pat_not_empty _ (root_pattern_sep s)). reflexivity.
Qed.

(** The key of a walked path is the base followed by the relative path. *)
Lemma get_synapse_path_relative s path :
  starts_with_sep (relative s path) = false ->
  get_synapse_path s path false = key_base s ++ relative s path.
Proof.
  intros H. unfold get_synapse_path, key_base, join. cbn [fold_left].
  fold (root_pattern s). fold (relative s path). apply join2_base, H.
Qed.

(** The parent of a key right under the base is the key of the base. *)
Lemma dirname_key_base s m :
  ends_with_sep (_synapse_project s) = false ->
  (is_empty (remote_path_or_empty s) = false ->
   ends_with_sep (remote_path_or_empty s) = false
   /\ starts_with_sep (remote_path_or_empty s) = false) ->
  has_sep m = false ->
  dirname (key_base s ++ m) = base_key s.
Proof.
  intros Hp Hr Hm. unfold key_base, base_key, join. cbn [fold_left].
  set (p := _synapse_project s) in *. set (r := remote_path_or_empty s) in *.
  destruct (is_empty r) eqn:Er.
  - apply is_empty_true in Er. rewrite Er.
    destruct (is_empty p) eqn:Ep.
    + apply is_empty_true in Ep. rewrite Ep. apply dirname_top, Hm.
    + unfold join2 at 2. simpl starts_with_sep. cbv iota.
      rewrite Ep, Hp. simpl orb. cbv iota.
      unfold join2. simpl starts_with_sep. cbv iota.
      rewrite ends_with_sep_app by reflexivity. simpl ends_with_sep.
      rewrite orb_true_r, append_nil_r, append_assoc.
      apply dirname_child; assumption.
  - destruct (Hr eq_refl) as [He Hs].
    destruct (ends_with_sep_join2 p r Er He Hs) as [Hje Hjn].
    unfold join2 at 1. simpl starts_with_sep. cbv iota.
    rewrite Hje, Hjn. simpl orb. cbv iota.
    rewrite append_assoc. apply dirname_child; assumption.
Qed.

Section Ancestors.
Variable B : string.

Lemma ancestors_cached_mono D D' x :
  D ⊆ D' -> ancestors_cached B D x -> ancestors_cached B D' x.
Proof. intros HD H q m Hq Hm. apply HD, H; assumption. Qed.

Lemma ancestors_cached_initial D y x :
  initial y x -> ancestors_cached B D x -> ancestors_cached B D y.
Proof. intros Hy H q m Hq Hm. apply H; [eapply initial_trans; eassumption | exact Hm]. Qed.

(** From a directory to one of its entries. *)
Lemma ancestors_cached_name D g n :
  has_sep n = false -> ancestors_cached B D g -> ancestors_cached B D (g ++ n).
Proof.
  intros Hn H q m [t Ht] Hm.
  destruct (append_eq_append _ _ _ _ Ht) as [(u & Hg & _) | (u & -> & Hu)].
  - apply H; [exists u; exact Hg | exact Hm].
  - rewrite append_assoc. apply H; [apply initial_refl|].
    rewrite has_sep_app, Hm, orb_false_r.
    rewrite Hu, has_sep_app in Hn. apply orb_false_elim in Hn. apply Hn.
Qed.

(** From a directory whose folder is cached to what lies below it. *)
Lemma ancestors_cached_sep D x :
  is_empty (B ++ x) = false -> ends_with_sep (B ++ x) = false ->
  (B ++ x) ∈ D ->
  ancestors_cached B D x -> ancestors_cached B D (x ++ String sep "").
Proof.
  intros Hne Hend Hin H q m [t Ht] Hm.
  destruct (append_eq_append _ _ _ _ Ht) as [(u & Hx & _) | (u & -> & Hu)].
  - apply H; [exists u; exact Hx | exact Hm].
  - destruct u as [|c u].
    + rewrite append_nil_r. apply H; [apply initial_refl | exact Hm].
    + rewrite append_cons in Hu. inversion Hu as [[Hc Hu']].
      destruct u; [|discriminate].
      replace (B ++ (x ++ String sep "") ++ m) with ((B ++ x) ++ String sep m)
        by (rewrite !append_assoc; reflexivity).
      rewrite dirname_child by assumption. exact Hin.
Qed.

End Ancestors.

Lemma starts_with_sep_initial y x :
  initial y x -> starts_with_sep x = false -> starts_with_sep y = false.
Proof. intros [t ->]. destruct y; [reflexivity | intros H; exact H]. Qed.

Lemma child_prefix_join d n :
  ends_with_sep d = false -> is_name n = true ->
  join d [n] = child_prefix d ++ n.
Proof.
  intros Hd Hn. destruct (cumulative_step d n Hd Hn) as (E & _).
  rewrite E. unfold child_prefix. destruct (is_empty d); [reflexivity|].
  rewrite append_assoc. reflexivity.
Qed.

Section Parents.
Variable s : SynapseUploader.

Lemma relative_child_prefix_root : relative s (child_prefix (_local_path s)) = "".
Proof.
  rewrite relative_eq. unfold child_prefix.
  destruct (is_empty (_local_path s)); [reflexivity|].
  apply (remove_pat _ (root_pattern_sep s)).
Qed.

Lemma inside_root D :
  ancestors_cached (key_base s) D "" -> inside s D (_local_path s).
Proof.
  intros H. unfold inside. rewrite relative_child_prefix_root. split; [exact H | reflexivity].
Qed.

Lemma ready_root_inside D : ready s D (_local_path s) -> inside s D (_local_path s).
Proof.
  intros (H & _). apply inside_root.
  apply (ancestors_cached_initial _ _ _ _ (initial_nil _) H).
Qed.

Lemma inside_mono D D' d : D ⊆ D' -> inside s D d -> inside s D' d.
Proof.
  intros HD (H & H'). split; [|exact H'].
  apply (ancestors_cached_mono _ _ _ _ HD H).
Qed.

(** An entry of a directory that may be visited inside may be visited. *)
Lemma inside_ready D d n :
  ends_with_sep d = false -> is_name n = true -> inside s D d ->
  ready s D (join d [n])
  /\ is_empty (join d [n]) = false /\ ends_with_sep (join d [n]) = false.
Proof.
  intros Hd Hn (Hanc & Hst).
  destruct (cumulative_step d n Hd Hn) as (_ & Hne & Hen & _).
  split; [|split; assumption].
  rewrite (child_prefix_join _ _ Hd Hn).
  destruct (is_name_inv _ Hn) as [Hn1 Hn2].
  unfold ready. rewrite relative_eq in *.
  rewrite (remove_app_name _ (root_pattern_sep s) _ _ Hn2).
  set (g := replace_from (root_pattern s) "" 0 (child_prefix d)) in *.
  split; [apply ancestors_cached_name; assumption|].
  split; [|split].
  - destruct g; [apply no_sep_not_starts, Hn2 | exact Hst].
  - rewrite is_empty_app, Hn1. apply andb_false_r.
  - rewrite ends_with_sep_app by exact Hn1. apply no_sep_not_ends, Hn2.
Qed.

(** The key of a path that may be visited, and its parent. *)
Lemma ready_key D d :
  ready s D d ->
  get_synapse_path s d false = key_base s ++ relative s d
  /\ dirname (get_synapse_path s d false) ∈ D.
Proof.
  intros (Hanc & Hst & _). rewrite (get_synapse_path_relative _ _ Hst).
  split; [reflexivity|].
  rewrite <- (append_nil_r (relative s d)).
  apply Hanc; [apply initial_refl | reflexivity].
Qed.

(** Once the folder of a directory is cached, what it holds may be visited. *)
Lemma ready_inside D D' d :
  is_empty d = false ->
  D ⊆ D' -> get_synapse_path s d false ∈ D' ->
  ready s D d -> inside s D' d.
Proof.
  intros Hd HD Hkey Hr.
  destruct (ready_key _ _ Hr) as [Ekey _]. rewrite Ekey in Hkey.
  destruct Hr as (Hanc & Hst & Hne & Hen).
  apply (ancestors_cached_mono _ _ _ _ HD) in Hanc.
  unfold inside, child_prefix. rewrite Hd.
  rewrite relative_eq in *.
  destruct (remove_snoc_sep _ (root_pattern_sep s) d) as [-> | Hini].
  - split.
    + apply ancestors_cached_sep; try assumption.
      * rewrite is_empty_app, Hne. apply andb_false_r.
      * rewrite ends_with_sep_app by exact Hne. exact Hen.
    + rewrite starts_with_sep_app by exact Hne. exact Hst.
  - split.
    + apply (ancestors_cached_initial _ _ _ _ Hini Hanc).
    + apply (starts_with_sep_initial _ _ Hini Hst).
Qed.

End Parents.

(** ** A remote path without empty segment *)

Lemma split_not_nil s : split s <> [].
Proof.
  induction s as [|c s IH]; simpl; [discriminate|].
  destruct (is_sep c); [discriminate|]. destruct (split s); discriminate.
Qed.

Lemma is_sep_eq c : is_sep c = true -> c = sep.
Proof. apply Ascii.eqb_eq. Qed.

(** [os.sep.join(s.split(os.sep)) == s]. *)
Lemma concat_split s : String.concat (String sep "") (split s) = s.
Proof.
  induction s as [|c s IH]; [reflexivity|]. simpl split.
  destruct (is_sep c) eqn:Hc.
  - apply is_sep_eq in Hc. subst c.
    destruct (split s) as [|h t] eqn:E; [exfalso; exact (split_not_nil _ E)|].
    change (String.concat (String sep "") ("" :: h :: t))
      with ("" ++ String sep "" ++ String.concat (String sep "") (h :: t)).
    rewrite IH. reflexivity.
  - destruct (split s) as [|h t] eqn:E; [exfalso; exact (split_not_nil _ E)|].
    destruct t as [|h' t'].
    + change (String c h = String c s). f_equal. exact IH.
    + change (String c (h ++ String sep "" ++ String.concat (String sep "") (h' :: t'))
              = String c s).
      f_equal. exact IH.
Qed.

Lemma normal_path_names r :
  normal_path r = true ->
  filter_None (split r) = split r /\ Forall (fun x => is_name x = true) (split r).
Proof.
  intros H. unfold normal_path in H.
  assert (E : filter_None (split r) = split r).
  { unfold filter_None. induction (split r) as [|x l IH]; [reflexivity|].
    simpl in H |- *. apply andb_prop in H as [Hx Hl]. rewrite Hx, (IH Hl). reflexivity. }
  split; [exact E|]. rewrite <- E. apply filter_None_names.
Qed.

Lemma cumulative_from_wf segments :
  Forall (fun x => is_name x = true) segments ->
  forall acc, ends_with_sep acc = false -> starts_with_sep acc = false ->
    Forall (fun c => is_empty c = false /\ ends_with_sep c = false
                     /\ starts_with_sep c = false)
           (cumulative_from acc segments).
Proof.
  induction 1 as [|x l Hx Hl IH]; intros acc Ha Hs; simpl; [constructor|].
  destruct (cumulative_step acc x Ha Hx) as (E & Hne & He & Hst).
  rewrite E in *. constructor; [auto|]. apply IH; auto.
Qed.

Lemma cumulative_from_concat segments :
  Forall (fun x => is_name x = true) segments -> segments <> [] ->
  forall acc,
    In ((if is_empty acc then "" else acc ++ String sep "")
          ++ String.concat (String sep "") segments)
       (cumulative_from acc segments).
Proof.
  induction 1 as [|x l Hx Hl IH]; intros Hnil acc; [congruence|].
  destruct l as [|y l].
  - left. cbn [String.concat]. destruct (is_empty acc); [reflexivity|].
    rewrite append_assoc. reflexivity.
  - set (acc' := if is_empty acc then x else acc ++ String sep x).
    change (cumulative_from acc (x :: y :: l))
      with (acc' :: cumulative_from acc' (y :: l)).
    right. specialize (IH ltac:(discriminate) acc').
    assert (Hne : is_empty acc' = false).
    { destruct (is_name_inv _ Hx) as [Hx1 _]. subst acc'.
      destruct (is_empty acc); [exact Hx1|].
      rewrite is_empty_app. apply andb_false_r. }
    rewrite Hne in IH.
    replace ((if is_empty acc then "" else acc ++ String sep "")
               ++ String.concat (String sep "") (x :: y :: l))
      with ((acc' ++ String sep "") ++ String.concat (String sep "") (y :: l));
      [exact IH|].
    change (String.concat (String sep "") (x :: y :: l))
      with (x ++ String sep "" ++ String.concat (String sep "") (y :: l)).
    subst acc'. destruct (is_empty acc); rewrite !append_assoc; reflexivity.
Qed.

(** A remote path without empty segment is the last of its cumulative
    paths, and is a proper relative path. *)
Lemma normal_path_cumulative r :
  normal_path r = true ->
  In r (cumulative_paths (filter_None (split r)))
  /\ is_empty r = false /\ ends_with_sep r = false /\ starts_with_sep r = false.
Proof.
  intros H. destruct (normal_path_names r H) as [E Hnames]. rewrite E.
  pose proof (cumulative_from_concat _ Hnames (split_not_nil r) "") as Hin.
  cbn [is_empty] in Hin. change ("" ++ ?x) with x in Hin. rewrite concat_split in Hin.
  split; [exact Hin|].
  pose proof (cumulative_from_wf _ Hnames "" eq_refl eq_refl) as Hwf.
  rewrite Forall_forall in Hwf. apply (Hwf r). apply list_elem_of_In. exact Hin.
Qed.

(** ** The walk returns *)

Lemma for_each_app {A} (l1 l2 : list A) (body : A -> M unit) st :
  for_each (l1 ++ l2) body st = (for_each l1 body ;; for_each l2 body) st.
Proof.
  revert st. induction l1 as [|x l1 IH]; intros st; [reflexivity|].
  simpl. unfold bind in *.
  destruct (body x st) as [[[]|e] st1]; [apply IH | reflexivity].
Qed.

Section WalkReturns.
Variable W : World.
Variable s : SynapseUploader.

Lemma returns_from_ret st : good W s st -> returns_from W s (ret tt) st.
Proof. intros Hg. exists st. split; [reflexivity|]. split; [exact Hg | reflexivity]. Qed.

(** A folder is made for a directory that may be visited. *)
Lemma create_directory_returns st d :
  good W s st -> ready s (dom (_synapse_folders (self st))) d ->
  exists st', create_directory_in_synapse W d false st = (Ok tt, st')
              /\ good W s st'
              /\ dom (_synapse_folders (self st'))
                 = {[get_synapse_path s d false]} ∪ dom (_synapse_folders (self st)).
Proof.
  intros [Hcfg Hc] Hr. destruct (ready_key _ _ _ Hr) as [_ Hin].
  rewrite <- (get_synapse_path_same_config _ _ d false Hcfg) in *.
  apply elem_of_dom in Hin as [parent Hparent].
  destruct (create_directory_ok W d false st parent Hc Hparent)
    as (folder & e & _ & Hid & E).
  eexists. split; [exact E|].
  split; [split; [exact Hcfg | apply can_create_insert; assumption]|].
  simpl. apply dom_insert_L.
Qed.

(** A file of a directory that may be visited inside is uploaded. *)
Lemma upload_file_returns st d n :
  ends_with_sep d = false -> is_name n = true ->
  good W s st -> inside s (dom (_synapse_folders (self st))) d ->
  exists st', upload_file_to_synapse W (join d [n]) st = (Ok tt, st')
              /\ self st' = self st.
Proof.
  intros Hd Hn [Hcfg Hc] Hi.
  destruct (inside_ready _ _ _ _ Hd Hn Hi) as (Hr & _).
  destruct (ready_key _ _ _ Hr) as [_ Hin].
  rewrite <- (get_synapse_path_same_config _ _ _ false Hcfg) in Hin.
  apply elem_of_dom in Hin as [parent Hparent].
  rewrite upload_file_to_synapse_eq. cbv zeta. rewrite Hparent.
  destruct (_dry_run (self st)) eqn:Hdry; [eexists; split; reflexivity|].
  destruct Hc as [Hids [Hc | [Hc Hs]]]; [congruence|]. rewrite Hc.
  destruct (File_is_Some (join d [n]) parent (Hids _ _ Hparent)) as [file ->].
  destruct (Hs (requests st) file) as (e & -> & _).
  eexists; split; reflexivity.
Qed.

Lemma upload_files_return d filenames :
  ends_with_sep d = false -> forallb is_name filenames = true ->
  forall st, good W s st -> inside s (dom (_synapse_folders (self st))) d ->
    exists st',
      for_each filenames (fun filename => upload_file_to_synapse W (join d [filename])) st
      = (Ok tt, st')
      /\ self st' = self st.
Proof.
  intros Hd. induction filenames as [|n l IH]; intros Hl st Hg Hi.
  - exists st. split; reflexivity.
  - simpl in Hl. apply andb_prop in Hl as [Hn Hl].
    destruct (upload_file_returns st d n Hd Hn Hg Hi) as (st1 & E1 & Hs1).
    simpl for_each. rewrite (bind_Ok _ _ _ _ _ E1).
    destruct (IH Hl st1) as (st2 & E2 & Hs2).
    + unfold good, can_create, handles_have_ids in *. rewrite Hs1. exact Hg.
    + rewrite Hs1. exact Hi.
    + exists st2. split; [exact E2 | congruence].
Qed.

(** One triple of the walk: the folder of the directory, unless it is the
    local root, then its files. *)
Lemma visit_returns d names filenames st :
  ends_with_sep d = false -> forallb is_name filenames = true ->
  good W s st ->
  (ready s (dom (_synapse_folders (self st))) d /\ is_empty d = false)
  \/ (d = _local_path s /\ inside s (dom (_synapse_folders (self st))) d) ->
  exists st', visit W (d, names, filenames) st = (Ok tt, st')
              /\ good W s st'
              /\ dom (_synapse_folders (self st)) ⊆ dom (_synapse_folders (self st'))
              /\ inside s (dom (_synapse_folders (self st'))) d.
Proof.
  intros Hd Hfs Hg Hpre. unfold visit. unfold bind at 1. unfold read.
  assert (Hroot : _local_path (self st) = _local_path s).
  { destruct Hg as [(_ & _ & <- & _) _]. reflexivity. }
  rewrite Hroot.
  assert (Hfirst : exists st1,
             (if negb (String.eqb d (_local_path s))
              then create_directory_in_synapse W d false else ret tt) st = (Ok tt, st1)
             /\ good W s st1
             /\ dom (_synapse_folders (self st)) ⊆ dom (_synapse_folders (self st1))
             /\ inside s (dom (_synapse_folders (self st1))) d).
  { destruct (String.eqb d (_local_path s)) eqn:E; simpl negb; cbv iota.
    - apply String.eqb_eq in E. exists st. split; [reflexivity|].
      split; [exact Hg|]. split; [reflexivity|].
      destruct Hpre as [[Hr _] | [_ Hi]]; [|exact Hi].
      rewrite E in *. apply ready_root_inside, Hr.
    - apply String.eqb_neq in E.
      destruct Hpre as [[Hr Hne] | [Heq _]]; [|congruence].
      destruct (create_directory_returns st d Hg Hr) as (st1 & E1 & Hg1 & Hdom).
      exists st1. split; [exact E1|]. split; [exact Hg1|].
      split; [rewrite Hdom; apply union_subseteq_r|].
      apply (ready_inside s (dom (_synapse_folders (self st)))); try assumption.
      + rewrite Hdom. apply union_subseteq_r.
      + rewrite Hdom. apply elem_of_union_l, elem_of_singleton. reflexivity. }
  destruct Hfirst as (st1 & E1 & Hg1 & Hd1 & Hi1).
  rewrite (bind_Ok _ _ _ _ _ E1).
  destruct (upload_files_return d filenames Hd Hfs st1 Hg1 Hi1) as (st2 & E2 & Hs2).
  exists st2. split; [exact E2|]. rewrite Hs2.
  split; [|split; assumption].
  unfold good, can_create, handles_have_ids in *. rewrite Hs2. exact Hg1.
Qed.

(** The walk of a tree with proper names returns. *)
Lemma walk_returns t :
  forall d st,
    valid_tree t = true -> ends_with_sep d = false -> good W s st ->
    (ready s (dom (_synapse_folders (self st))) d /\ is_empty d = false)
    \/ (d = _local_path s /\ inside s (dom (_synapse_folders (self st))) d) ->
    returns_from W s (for_each (walk d t) (visit W)) st.
Proof.
  induction t as [ds IHds fs | | n t IHt rest IHrest]
    using tree_forest_ind
    with (P0 := fun ds => forall d st,
                  valid_forest ds = true -> ends_with_sep d = false -> good W s st ->
                  inside s (dom (_synapse_folders (self st))) d ->
                  returns_from W s (for_each (walk_dirs d ds) (visit W)) st).
  - intros d st Hv Hd Hg Hpre. simpl in Hv. apply andb_prop in Hv as [Hds Hfs].
    simpl walk. simpl for_each.
    destruct (visit_returns d (dirnames ds) fs st Hd Hfs Hg Hpre)
      as (st1 & E1 & Hg1 & Hdom1 & Hi1).
    destruct (IHds d st1 Hds Hd Hg1 Hi1) as (st2 & E2 & Hg2 & Hd2).
    exists st2. rewrite (bind_Ok _ _ _ _ _ E1).
    split; [exact E2|]. split; [exact Hg2|]. etransitivity; eassumption.
  - intros d st _ _ Hg _. apply returns_from_ret, Hg.
  - intros d st Hv Hd Hg Hi. simpl in Hv.
    apply andb_prop in Hv as [Hv Hrest]. apply andb_prop in Hv as [Hn Ht].
    simpl walk_dirs.
    destruct (inside_ready s _ d n Hd Hn Hi) as (Hr & Hne & Hen).
    assert (H1 : returns_from W s (for_each (walk (join d [n]) t) (visit W)) st).
    { apply IHt; auto. }
    destruct H1 as (st1 & E1 & Hg1 & Hd1).
    destruct (IHrest d st1 Hrest Hd Hg1 (inside_mono s _ _ d Hd1 Hi))
      as (st2 & E2 & Hg2 & Hd2).
    exists st2. rewrite for_each_app, (bind_Ok _ _ _ _ _ E1).
    split; [exact E2|]. split; [exact Hg2|]. etransitivity; eassumption.
Qed.

End WalkReturns.

Section MirrorReturns.
Variable W : World.
Variable s : SynapseUploader.
Hypothesis root_trimmed : ends_with_sep (_local_path s) = false.
Hypothesis config_ok : well_formed W s.

Lemma upload_tree_returns st :
  good W s st ->
  ancestors_cached (key_base s) (dom (_synapse_folders (self st))) "" ->
  returns_from W s (upload_tree W) st.
Proof.
  intros Hg Hanc.
  assert (Hroot : _local_path (self st) = _local_path s).
  { destruct Hg as [(_ & _ & <- & _) _]. reflexivity. }
  assert (E : upload_tree W st = for_each (os_walk W (_local_path s)) (visit W) st).
  { unfold upload_tree, bind, read. rewrite Hroot. reflexivity. }
  unfold returns_from. rewrite E.
  change (returns_from W s (for_each (os_walk W (_local_path s)) (visit W)) st).
  unfold os_walk.
  destruct config_ok as (_ & _ & Hfs).
  destruct (fs W (_local_path s)) as [t|]; [|apply returns_from_ret, Hg].
  apply (walk_returns W s t); auto.
  right. split; [reflexivity | apply inside_root, Hanc].
Qed.

Lemma initial_of_nil q : initial q "" -> q = "".
Proof. intros [t Ht]. destruct q; [reflexivity | discriminate]. Qed.

(** Once the folders of the remote path are cached, the parent of every
    top-level entry is cached. *)
Lemma create_remote_path_returns st :
  good W s st ->
  is_Some (_synapse_folders (self st) !! _synapse_project s) ->
  exists st', create_remote_path W st = (Ok tt, st')
              /\ good W s st'
              /\ ancestors_cached (key_base s) (dom (_synapse_folders (self st'))) "".
Proof.
  intros Hg Hproj. pose proof Hg as [Hcfg Hc].
  pose proof Hcfg as (Hdry & Hp & Hl & Hrp).
  destruct config_ok as (Hpe & Hnormal & _).
  unfold create_remote_path, bind, read. rewrite <- Hrp.
  assert (Hanc : forall st', base_key s ∈ dom (_synapse_folders (self st')) ->
             (is_empty (remote_path_or_empty s) = false ->
              ends_with_sep (remote_path_or_empty s) = false
              /\ starts_with_sep (remote_path_or_empty s) = false) ->
             ancestors_cached (key_base s) (dom (_synapse_folders (self st'))) "").
  { intros st' Hin Hr q m Hq Hm. apply initial_of_nil in Hq. subst q.
    change ("" ++ m) with m. rewrite dirname_key_base by assumption. exact Hin. }
  destruct (_remote_path s) as [r|] eqn:Er.
  - destruct (normal_path_cumulative r Hnormal) as (Hin & Hne & Hen & Hst).
    destruct (normal_path_names r Hnormal) as [_ Hnames'].
    pose proof (filter_None_names r) as Hnames.
    destruct (create_remote_folders_ok W _ Hnames "" st) as (st' & E & Hcfg' & Hc' & Hdom);
      try reflexivity; try assumption.
    + rewrite <- Hp. exact Hpe.
    + unfold parent_key. simpl is_empty. cbv iota. rewrite <- Hp. exact Hproj.
    + exists st'. split; [exact E|].
      assert (Hro : remote_path_or_empty s = r).
      { unfold remote_path_or_empty. rewrite Er, Hne. reflexivity. }
      split; [split|].
      * destruct Hcfg' as (H1 & H2 & H3 & H4). repeat split; congruence.
      * exact Hc'.
      * apply Hanc.
        -- unfold base_key. rewrite Hro, Hne, Hdom, <- Hp.
           apply elem_of_union_r, elem_of_list_to_set, list_elem_of_In.
           apply (in_map (fun c => join (_synapse_project s) [c])). exact Hin.
        -- intros _. rewrite Hro. auto.
  - exists st. split; [reflexivity|]. split; [exact Hg|].
    assert (Hro : remote_path_or_empty s = "").
    { unfold remote_path_or_empty. rewrite Er. reflexivity. }
    apply Hanc.
    + unfold base_key. rewrite Hro. simpl is_empty. cbv iota.
      apply elem_of_dom. exact Hproj.
    + rewrite Hro. discriminate.
Qed.

Lemma mirror_returns st :
  good W s st ->
  is_Some (_synapse_folders (self st) !! _synapse_project s) ->
  fst (mirror W (_dry_run s) st) = Ok tt.
Proof.
  intros Hg Hproj.
  destruct (create_remote_path_returns st Hg Hproj) as (st1 & E1 & Hg1 & Hanc).
  destruct (upload_tree_returns st1 Hg1 Hanc) as (st2 & E2 & _).
  unfold mirror. rewrite (bind_Ok _ _ _ _ _ E1), (bind_Ok _ _ _ _ _ E2).
  destruct (_dry_run s); reflexivity.
Qed.

End MirrorReturns.

(** X1: the walk order does keep the parents in the cache, and the run
    returns, for a project identifier without trailing separator, a remote
    path without doubled separator, a tree whose names are names, and a
    service that answers with handles that have identifiers: the project
    that it returns has one, and in a real run it accepts every [store]
    and returns a handle that has one. *)
Theorem well_formed_run_returns :
  forall W synapse_project local_path remote_path dry_run user password project,
    well_formed W (__init__ synapse_project local_path remote_path dry_run) ->
    environ W !! "SYNAPSE_USER" = Some user ->
    environ W !! "SYNAPSE_PASSWORD" = Some password ->
    login_ok (synapse W) [NewClient] user password = true ->
    get_result (synapse W) [NewClient; Login user password] (Project synapse_project)
    = Some project ->
    is_Some (ent_id project) ->
    dry_run = true
    \/ (forall h e, exists e', store_result (synapse W) h e = Some e'
                               /\ is_Some (ent_id e')) ->
    fst (run W synapse_project local_path remote_path dry_run) = Ok tt.
Proof.
  intros W p l rp d u pw project Hwf Hu Hpw Hlogin Hget Hid Hstore.
  rewrite run_eq. cbv zeta. rewrite Hu, Hpw, Hlogin, Hget.
  set (s := __init__ p l rp d) in *.
  change d with (_dry_run s) at 1.
  apply (mirror_returns W s).
  - apply ends_with_sep_rstrip.
  - exact Hwf.
  - split; [repeat split|]. split.
    + intros k e. cbn [logged_in self _synapse_folders set_folders]. intros H.
      apply lookup_insert_Some in H as [[_ <-] | [_ H]]; [exact Hid|].
      change (_synapse_folders s) with (∅ : gmap string Entity) in H.
      rewrite lookup_empty in H. discriminate.
    + destruct Hstore as [-> | Hs];
        [left; reflexivity | right; split; [reflexivity | exact Hs]].
  - simpl. rewrite lookup_insert_eq. eauto.
Qed.

Lemma well_formed_run_returns_witness :
  fst (run exp1_world "syn111" "/data/exp1" (Some " /results/run1/ ") false) = Ok tt.
Proof.
  apply (well_formed_run_returns exp1_world "syn111" "/data/exp1"
           (Some " /results/run1/ ") false "user" "secret" (Project "syn111")).
  - repeat split.
  - reflexivity.
  - reflexivity.
  - reflexivity.
  - reflexivity.
  - eexists. reflexivity.
  - right. intros h e. eexists. split; [reflexivity | eexists; reflexivity].
Defined.

(** ** Where the code and the specification agree *)

Lemma remove_front_app pre rest : remove_front pre (pre ++ rest) = rest.
Proof.
  induction pre as [|c pre IH]; [destruct rest; reflexivity|].
  rewrite append_cons. simpl. rewrite Ascii.eqb_refl. exact IH.
Qed.

Lemma join2_empty_middle p rel : join2 (join2 p "") rel = join2 p rel.
Proof.
  unfold join2 at 1 3. destruct (starts_with_sep rel); [reflexivity|].
  unfold join2. simpl starts_with_sep. cbv iota.
  destruct (is_empty p || ends_with_sep p) eqn:E.
  - rewrite append_nil_r, E. reflexivity.
  - rewrite ends_with_sep_app by reflexivity. simpl ends_with_sep.
    rewrite orb_true_r, append_assoc. reflexivity.
Qed.

(** A path under the local root in which the root followed by a separator
    does not occur again resolves as the specification says: the root is
    removed from the front. *)
Lemma get_synapse_path_strips_front s rest :
  relative s rest = rest ->
  get_synapse_path s (root_pattern s ++ rest) false
  = resolve_remote_path s (root_pattern s ++ rest).
Proof.
  intros Hrest. unfold get_synapse_path, resolve_remote_path.
  fold (root_pattern s). fold (relative s (root_pattern s ++ rest)).
  rewrite remove_front_app, relative_eq.
  rewrite (replace_from_match _ _ (pat_not_empty _ (root_pattern_sep s))).
  change ("" ++ ?x) with x. rewrite <- relative_eq, Hrest.
  unfold remote_path_or_empty. destruct (_remote_path s) as [r|].
  - destruct r; reflexivity.
  - unfold join. cbn [fold_left]. apply join2_empty_middle.
Qed.

(** So do the entries of the local root itself. *)
Lemma get_synapse_path_top_level s n :
  has_sep n = false ->
  get_synapse_path s (root_pattern s ++ n) false
  = resolve_remote_path s (root_pattern s ++ n).
Proof.
  intros Hn. apply get_synapse_path_strips_front.
  rewrite relative_eq. apply (remove_no_sep _ (root_pattern_sep s)), Hn.
Qed.

(** ** The directories below the local root *)

Lemma join_name_longer d n :
  ends_with_sep d = false -> is_name n = true ->
  String.length d < String.length (join d [n]).
Proof.
  intros Hd Hn. destruct (cumulative_step d n Hd Hn) as (E & _).
  destruct (is_name_inv _ Hn) as [Hne _]. rewrite E.
  destruct d as [|c d]; [destruct n; [discriminate | simpl; lia]|].
  cbn [is_empty]. rewrite length_append. simpl. lia.
Qed.

(** Every directory that the walk of a tree with proper names reaches
    below [d] has a longer path than [d]. *)
Lemma walk_below :
  (forall t d, valid_tree t = true -> ends_with_sep d = false ->
     Forall (fun e => String.length d <= String.length (dirpath_of e)) (walk d t))
  /\ (forall ds d, valid_forest ds = true -> ends_with_sep d = false ->
        Forall (fun e => String.length d < String.length (dirpath_of e))
               (walk_dirs d ds)).
Proof.
  apply tree_forest_mutind.
  - intros ds IHds fs d Hv Hd. simpl in Hv. apply andb_prop in Hv as [Hds _].
    simpl walk. constructor; [reflexivity|].
    apply (Forall_impl _ _ _ (IHds d Hds Hd)). intros e He. apply Nat.lt_le_incl, He.
  - intros d _ _. constructor.
  - intros n t IHt rest IHrest d Hv Hd. simpl in Hv.
    apply andb_prop in Hv as [Hv Hrest]. apply andb_prop in Hv as [Hn Ht].
    simpl walk_dirs. apply Forall_app. split; [|apply IHrest; assumption].
    destruct (cumulative_step d n Hd Hn) as (_ & _ & Hen & _).
    pose proof (join_name_longer d n Hd Hn) as Hlt.
    apply (Forall_impl _ _ _ (IHt _ Ht Hen)). intros e He.
    apply (Nat.lt_le_trans _ _ _ Hlt He).
Qed.

(** With proper names, the directories of the walk other than the local
    root are all the directories of the walk but the first: no directory
    below the root has the path of the root. *)
Lemma mirrored_dirs_below_root W s t :
  ends_with_sep (_local_path s) = false ->
  fs W (_local_path s) = Some t -> valid_tree t = true ->
  mirrored_dirs W s = tail (map dirpath_of (walk (_local_path s) t)).
Proof.
  intros Hroot Hfs Hv. unfold mirrored_dirs, os_walk. rewrite Hfs.
  destruct t as [ds fs']. simpl walk. cbn [map List.filter dirpath_of fst tail].
  rewrite String.eqb_refl. cbn [negb].
  simpl in Hv. apply andb_prop in Hv as [Hds _].
  pose proof (proj2 walk_below ds (_local_path s) Hds Hroot) as Hbelow.
  induction Hbelow as [|e l He Hl IH]; [reflexivity|].
  cbn [map List.filter]. rewrite IH.
  destruct (String.eqb (dirpath_of e) (_local_path s)) eqn:E; [|reflexivity].
  apply String.eqb_eq in E. rewrite E in He. lia.
Qed.

(** ** Where the code leaves the specification *)

(** C1: [get_synapse_path] removes every occurrence of the local root
    followed by a separator, not only the one in front.  With the local
    root [a], the walked file [a/a/f] resolves to [syn1/f] where the
    specification gives [syn1/a/f], and the real run stores the file under
    the project, not under the folder of [a/a]. *)
Theorem get_synapse_path_drops_inner_root :
  let s := __init__ "syn1" "a" None false in
  In "a/a/f" (walked_files nested_world s)
  /\ get_synapse_path s "a/a/f" false = "syn1/f"
  /\ resolve_remote_path s "a/a/f" = "syn1/a/f"
  /\ fst (run nested_world "syn1" "a" None false) = Ok tt
  /\ In (Store (mkEntity FileT "a/a/f" (Some "syn1") None))
        (requests (snd (run nested_world "syn1" "a" None false))).
Proof.
  cbv zeta. vm_compute. repeat split; auto 10.
Qed.

(** C2: a remote path with a doubled separator makes the parent lookup
    fail.  The folders of [results//run1] are cached under [syn111/results]
    and [syn111/results/run1], but the first file of the walk looks its
    parent up under [syn111/results//run1], and the run, dry or not, ends
    with that [KeyError]. *)
Theorem doubled_separator_breaks_parent_lookup :
  forall dry_run,
    let r := run exp1_world "syn111" "/data/exp1" (Some "results//run1") dry_run in
    fst r = Raise (KeyError "syn111/results//run1")
    /\ processing_lines (stdout (snd r))
       = [folder_line "results"; folder_line "results/run1"; file_line "/data/exp1/b.txt"]
    /\ is_Some (_synapse_folders (self (snd r)) !! "syn111/results/run1")
    /\ _synapse_folders (self (snd r)) !! "syn111/results//run1" = None.
Proof.
  intros [|]; cbv zeta; vm_compute; repeat split; eauto.
Qed.

(** ** The folder cache *)

(** X4: the folder cache is a dictionary.  What [set_synapse_folder] puts
    under a key is what [get_synapse_folder] returns for it; the other keys
    answer as before; a second entry for the key replaces the first; the
    console, the client calls and the settings are left alone; and a key
    that is not there raises [KeyError] with this key and changes nothing. *)
Theorem folder_cache_round_trip :
  forall (k : string) (e : Entity) (st : State),
    let st' := snd (set_synapse_folder k e st) in
    fst (set_synapse_folder k e st) = Ok tt
    /\ get_synapse_folder k st' = (Ok e, st')
    /\ (forall k', k' <> k ->
          fst (get_synapse_folder k' st') = fst (get_synapse_folder k' st))
    /\ (forall e0, snd (set_synapse_folder k e (snd (set_synapse_folder k e0 st))) = st')
    /\ stdout st' = stdout st /\ requests st' = requests st
    /\ same_config (self st) (self st')
    /\ _synapse_client (self st') = _synapse_client (self st)
    /\ (forall k', snd (get_synapse_folder k' st) = st)
    /\ (forall k', k' ∉ dom (_synapse_folders (self st)) ->
          get_synapse_folder k' st = (Raise (KeyError k'), st)).
Proof.
  intros k e st. cbv zeta. unfold set_synapse_folder, get_synapse_folder. simpl.
  rewrite lookup_insert_eq.
  repeat split.
  - intros k' Hk. rewrite lookup_insert_ne by congruence.
    destruct (_ !! k'); reflexivity.
  - intros e0. rewrite insert_insert_eq. reflexivity.
  - intros k'. destruct (_ !! k'); reflexivity.
  - intros k' Hk. apply not_elem_of_dom in Hk. rewrite Hk. reflexivity.
Qed.

(** ** What the constructor stores *)

Lemma rstrip_empty p s : is_empty (rstrip p s) = all_chars p s.
Proof.
  induction s as [|c s IH]; simpl; [reflexivity|].
  rewrite IH. destruct (p c), (all_chars p s); reflexivity.
Qed.

Lemma lstrip_empty p s : is_empty (lstrip p s) = all_chars p s.
Proof.
  induction s as [|c s IH]; simpl; [reflexivity|].
  destruct (p c); [exact IH | reflexivity].
Qed.

Lemma starts_with_sep_lstrip s : starts_with_sep (lstrip is_sep s) = false.
Proof.
  induction s as [|c s IH]; simpl; [reflexivity|].
  destruct (is_sep c) eqn:Hc; [exact IH | exact Hc].
Qed.

(** Stripping at the right leaves a first character that is not stripped. *)
Lemma rstrip_keeps_front p c s : p c = false -> rstrip p (String c s) = String c (rstrip p s).
Proof. intros Hc. simpl. rewrite Hc. reflexivity. Qed.

Lemma rstrip_lstrip_sep x :
  let y := rstrip is_sep (lstrip is_sep x) in
  is_empty y = all_chars is_sep x
  /\ starts_with_sep y = false /\ ends_with_sep y = false.
Proof.
  cbv zeta. split; [|split; [|apply ends_with_sep_rstrip]].
  - induction x as [|c x IH]; [reflexivity|].
    simpl lstrip. simpl all_chars. destruct (is_sep c) eqn:Hc; [exact IH|].
    rewrite (rstrip_keeps_front _ _ _ Hc). reflexivity.
  - pose proof (starts_with_sep_lstrip x) as H.
    destruct (lstrip is_sep x) as [|c y]; [reflexivity|].
    simpl in H. rewrite (rstrip_keeps_front _ _ _ H). exact H.
Qed.

Lemma length_zero_empty s : (String.length s =? 0)%nat = is_empty s.
Proof. destruct s; reflexivity. Qed.

Lemma length_pos_empty s : (0 <? String.length s)%nat = negb (is_empty s).
Proof. destruct s; reflexivity. Qed.

(** X5: what [__init__] stores.  The local root is stored as the empty
    path exactly when it is given as separators only.  A remote path is
    dropped exactly when, white space stripped at both ends, only
    separators are left; a remote path that is kept is the stripped
    argument without the separators at its two ends, is not empty, and
    neither begins nor ends with a separator. *)
Theorem init_stores_trimmed_paths :
  forall (synapse_project local_path : string) (remote_path : option string)
         (dry_run : bool),
    let s := __init__ synapse_project local_path remote_path dry_run in
    (is_empty (_local_path s) = true <-> all_chars is_sep local_path = true)
    /\ (forall r, remote_path = Some r ->
          (_remote_path s = None <-> all_chars is_sep (strip r) = true))
    /\ (forall r', _remote_path s = Some r' ->
          is_empty r' = false /\ starts_with_sep r' = false
          /\ ends_with_sep r' = false
          /\ exists r, remote_path = Some r
                       /\ r' = rstrip is_sep (lstrip is_sep (strip r))).
Proof.
  intros p l rp d. cbv zeta. unfold __init__. cbn [_local_path _remote_path].
  split; [rewrite rstrip_empty; reflexivity|].
  split.
  - intros r ->. rewrite length_pos_empty, length_zero_empty.
    destruct (rstrip_lstrip_sep (strip r)) as (He & _ & _). rewrite He.
    destruct (strip r) as [|c x] eqn:E; [simpl; tauto|].
    cbn [is_empty negb].
    destruct (all_chars is_sep (String c x)); split; congruence.
  - intros r' H. destruct rp as [r|]; [|discriminate].
    rewrite length_pos_empty, length_zero_empty in H.
    destruct (rstrip_lstrip_sep (strip r)) as (He & Hs & Ht).
    destruct (negb (is_empty (strip r))); [|discriminate].
    destruct (is_empty (rstrip is_sep (lstrip is_sep (strip r)))) eqn:E; [discriminate|].
    injection H as <-. rewrite E.
    repeat split; [exact Hs | exact Ht |]. exists r. split; reflexivity.
Qed.

(** ** Remote paths below the local root *)

(** X2: a local path made of the local root, a separator and a rest in
    which the root followed by a separator does not occur resolves to the
    project, the remote path if there is one, and the rest, joined; this is
    the remote path that the specification gives. *)
Theorem get_synapse_path_removes_root_in_front :
  forall (s : SynapseUploader) (rest : string),
    relative s rest = rest ->
    get_synapse_path s (root_pattern s ++ rest) false
    = join (_synapse_project s) [remote_path_or_empty s; rest]
    /\ get_synapse_path s (root_pattern s ++ rest) false
       = resolve_remote_path s (root_pattern s ++ rest).
Proof.
  intros s rest Hrest. split; [|apply get_synapse_path_strips_front, Hrest].
  unfold get_synapse_path. fold (root_pattern s).
  fold (relative s (root_pattern s ++ rest)). rewrite relative_eq.
  rewrite (replace_from_match _ _ (pat_not_empty _ (root_pattern_sep s))).
  change ("" ++ ?x) with x. rewrite <- relative_eq, Hrest. reflexivity.
Qed.

Lemma get_synapse_path_removes_root_in_front_witness :
  let s := __init__ "syn111" "/data/exp1" (Some "results") false in
  get_synapse_path s (root_pattern s ++ "sub/a.txt") false
  = join "syn111" ["results"; "sub/a.txt"]
  /\ get_synapse_path s (root_pattern s ++ "sub/a.txt") false
     = resolve_remote_path s (root_pattern s ++ "sub/a.txt").
Proof.
  exact (get_synapse_path_removes_root_in_front
           (__init__ "syn111" "/data/exp1" (Some "results") false) "sub/a.txt"
           eq_refl).
Defined.

Lemma starts_with_sep_no_sep n : has_sep n = false -> starts_with_sep n = false.
Proof.
  destruct n as [|c n]; [reflexivity|]. simpl.
  intros H. apply orb_false_iff in H as [Hc _]. exact Hc.
Qed.

Lemma init_remote_path_trimmed p l rp d r :
  _remote_path (__init__ p l rp d) = Some r ->
  is_empty r = false /\ starts_with_sep r = false /\ ends_with_sep r = false.
Proof.
  unfold __init__. cbn [_remote_path]. intros H.
  destruct rp as [r0|]; [|discriminate].
  destruct (0 <? String.length (strip r0))%nat; [|discriminate].
  rewrite length_zero_empty in H.
  destruct (rstrip_lstrip_sep (strip r0)) as (_ & Hs & Ht).
  destruct (is_empty (rstrip is_sep (lstrip is_sep (strip r0)))) eqn:E; [discriminate|].
  injection H as <-. auto.
Qed.

(** X6: what lies in the local root itself is placed under the project,
    or, with a remote path, under the folder whose key is the project
    joined with the whole remote path: this is the key under which the
    parent of such a file or directory is looked up. *)
Theorem top_level_entries_hang_under_the_remote_path :
  forall (synapse_project local_path : string) (remote_path : option string)
         (dry_run : bool) (name : string),
    ends_with_sep synapse_project = false ->
    has_sep name = false ->
    let s := __init__ synapse_project local_path remote_path dry_run in
    dirname (get_synapse_path s (join (_local_path s) [name]) false)
    = match _remote_path s with
      | Some r => join synapse_project [r]
      | None => synapse_project
      end.
Proof.
  intros p l rp d n Hp Hn. cbv zeta.
  set (s := __init__ p l rp d).
  assert (Hrel : relative s (join (_local_path s) [n]) = n).
  { unfold join. cbn [fold_left]. unfold join2.
    rewrite (starts_with_sep_no_sep _ Hn).
    replace (ends_with_sep (_local_path s)) with false
      by (symmetry; apply ends_with_sep_rstrip).
    rewrite orb_false_r, relative_eq.
    destruct (is_empty (_local_path s)) eqn:E.
    - destruct (_local_path s); [|discriminate].
      apply (remove_no_sep _ (root_pattern_sep s)), Hn.
    - change (_local_path s ++ String sep n) with (_local_path s ++ String sep "" ++ n).
      rewrite <- append_assoc. fold (root_pattern s).
      rewrite (replace_from_match _ _ (pat_not_empty _ (root_pattern_sep s))).
      change ("" ++ ?x) with x. apply (remove_no_sep _ (root_pattern_sep s)), Hn. }
  rewrite get_synapse_path_relative
    by (rewrite Hrel; apply starts_with_sep_no_sep, Hn).
  rewrite Hrel.
  assert (Hr : forall r, _remote_path s = Some r ->
               is_empty r = false /\ starts_with_sep r = false /\ ends_with_sep r = false)
    by (intros r; apply init_remote_path_trimmed).
  rewrite dirname_key_base; [|exact Hp| |exact Hn].
  - unfold base_key, remote_path_or_empty.
    destruct (_remote_path s) as [r|]; [|reflexivity].
    destruct (Hr r eq_refl) as (He & _). rewrite He. cbv iota. rewrite He.
    reflexivity.
  - unfold remote_path_or_empty. destruct (_remote_path s) as [r|]; [|discriminate].
    destruct (Hr r eq_refl) as (He & Hs & Ht). rewrite He. auto.
Qed.

Lemma top_level_entries_hang_under_the_remote_path_witness :
  let s := __init__ "syn111" "/data/exp1/" (Some "/results/run1/") false in
  dirname (get_synapse_path s (join (_local_path s) ["b.txt"]) false)
  = match _remote_path s with
    | Some r => join "syn111" [r]
    | None => "syn111"
    end.
Proof.
  exact (top_level_entries_hang_under_the_remote_path
           "syn111" "/data/exp1/" (Some "/results/run1/") false "b.txt"
           eq_refl eq_refl).
Defined.

(** ** What [start] keeps *)

Section StableStart.
Variable W : World.
Variable P : State -> Prop.
Hypothesis P_print : forall line, stable P (print line).
Hypothesis P_new_client : stable P new_client.
Hypothesis P_call : forall A (r : request) (answer : list request -> option A),
    stable P (client_call r answer).
Hypothesis P_set : forall k e, stable P (set_synapse_folder k e).

Lemma stable_get_synapse_folder {B} k (f : Entity -> M B) :
  (forall e, stable P (f e)) -> stable P (bind (get_synapse_folder k) f).
Proof.
  intros Hf. apply stable_bind; [|exact Hf].
  intros st H. unfold get_synapse_folder. destruct (_ !! k); exact H.
Qed.

Lemma stable_os_environ {B} key (f : string -> M B) :
  (forall v, stable P (f v)) -> stable P (bind (os_environ W key) f).
Proof.
  intros Hf. apply stable_bind; [|exact Hf].
  intros st H. unfold os_environ. destruct (environ W !! key); exact H.
Qed.

Lemma stable_construct entity : stable P (construct entity).
Proof. intros st H. destruct entity; exact H. Qed.

Lemma stable_login : stable P (login W).
Proof.
  unfold login. apply stable_bind; [apply P_print | intros _].
  apply stable_os_environ. intros user.
  apply stable_os_environ. intros password.
  apply stable_bind; [apply P_new_client | intros _]. apply P_call.
Qed.

Lemma stable_create path virtual_path :
  stable P (create_directory_in_synapse W path virtual_path).
Proof.
  unfold create_directory_in_synapse.
  apply stable_bind; [apply P_print | intros _].
  apply stable_read. intros s. apply stable_get_synapse_folder. intros parent.
  apply stable_bind; [apply P_print | intros _].
  apply stable_bind; [apply stable_construct | intros folder].
  apply stable_bind; [|intros e; apply P_set].
  destruct (_dry_run s); [apply stable_ret | apply P_call].
Qed.

Lemma stable_upload local_file : stable P (upload_file_to_synapse W local_file).
Proof.
  unfold upload_file_to_synapse.
  apply stable_bind; [apply P_print | intros _].
  apply stable_read. intros s. apply stable_get_synapse_folder. intros parent.
  apply stable_bind; [apply P_print | intros _].
  destruct (negb (_dry_run s)); [|apply stable_ret].
  apply stable_bind; [intros st H; unfold the_client; destruct (_ : bool); exact H|].
  intros _. apply stable_bind; [apply stable_construct | intros file].
  apply stable_bind; [apply P_call | intros _; apply stable_ret].
Qed.

Lemma stable_start : stable P (start W).
Proof.
  unfold start. apply stable_read. intros s.
  apply stable_bind; [destruct (_dry_run s); [apply P_print | apply stable_ret] | intros _].
  apply stable_bind; [apply P_print | intros _].
  apply stable_bind; [apply P_print | intros _].
  apply stable_bind;
    [destruct (_remote_path s); [apply P_print | apply stable_ret] | intros _].
  apply stable_bind; [apply stable_login | intros _].
  apply stable_bind; [apply P_call | intros project].
  apply stable_bind; [apply P_set | intros _].
  apply stable_bind;
    [apply stable_create_remote_path; intros; apply stable_create | intros _].
  apply stable_bind;
    [apply stable_upload_tree; intros; [apply stable_create | apply stable_upload]
    | intros _].
  destruct (_dry_run s); apply P_print.
Qed.
End StableStart.

Lemma stable_keys W (K : gset string) :
  stable (fun st => K ⊆ dom (_synapse_folders (self st))) (start W)
  /\ forall path v,
       stable (fun st => K ⊆ dom (_synapse_folders (self st)))
              (create_directory_in_synapse W path v).
Proof.
  assert (Hset : forall k e,
             stable (fun st => K ⊆ dom (_synapse_folders (self st)))
                    (set_synapse_folder k e)).
  { intros k e st H. simpl. rewrite dom_insert_L.
    intros x Hx. apply elem_of_union_r, H, Hx. }
  assert (Hcall : forall A (r : request) (answer : list request -> option A),
             stable (fun st => K ⊆ dom (_synapse_folders (self st)))
                    (client_call r answer)).
  { intros A r answer st H. unfold client_call.
    destruct (_synapse_client (self st)); [|exact H].
    destruct (answer (requests st)); exact H. }
  split; [apply stable_start | intros path v; apply stable_create];
    try assumption; intros; intros st H; exact H.
Qed.

(** X7: the folder cache only grows.  [start] and
    [create_directory_in_synapse] never take a key out of the cache,
    whatever their outcome; [upload_file_to_synapse] and [login] leave the
    cache as it is, and an upload leaves the whole uploader as it is. *)
Theorem folder_cache_only_grows :
  forall (W : World) (st : State),
    dom (_synapse_folders (self st))
      ⊆ dom (_synapse_folders (self (snd (start W st))))
    /\ (forall path virtual_path,
          dom (_synapse_folders (self st))
            ⊆ dom (_synapse_folders
                     (self (snd (create_directory_in_synapse W path virtual_path st)))))
    /\ (forall local_file,
          self (snd (upload_file_to_synapse W local_file st)) = self st)
    /\ _synapse_folders (self (snd (login W st))) = _synapse_folders (self st).
Proof.
  intros W st.
  destruct (stable_keys W (dom (_synapse_folders (self st)))) as [Hstart Hcreate].
  split; [apply Hstart; reflexivity|].
  split; [intros path v; apply Hcreate; reflexivity|].
  split.
  - intros f. rewrite upload_file_to_synapse_eq. cbv zeta.
    destruct (_ !! _); [|reflexivity].
    destruct (_dry_run (self st)); [reflexivity|].
    destruct (_synapse_client (self st)); [|reflexivity].
    destruct (File _ _); [|reflexivity].
    destruct (store_result _ _ _); reflexivity.
  - rewrite login_eq. cbv zeta.
    destruct (environ W !! "SYNAPSE_USER"); [|reflexivity].
    destruct (environ W !! "SYNAPSE_PASSWORD"); [|reflexivity].
    destruct (login_ok _ _ _ _); reflexivity.
Qed.

(** ** The frame of the console *)

Lemma startswith_differ pre x y :
  startswith pre x = true -> startswith pre y = false -> x <> y.
Proof. intros Hx Hy ->. congruence. Qed.

Lemma finish_line_differs d x :
  startswith "P" x = true \/ startswith " " x = true
  \/ startswith "~" x = true \/ startswith "Uploading" x = true
  \/ startswith "L" x = true ->
  finish_line d <> x.
Proof.
  intros H E. subst x.
  destruct d; simpl in H; intuition discriminate.
Qed.

Lemma unfinished_header d s s' calls :
  unfinished d (mkState s' (header_lines s ++ ["Logging into Synapse..."])%list calls).
Proof.
  unfold unfinished, header_lines. cbn [stdout]. intros H.
  apply in_app_or in H as [H | H].
  - apply in_app_or in H as [H | H];
      [destruct (_dry_run s); [destruct H as [H | []] | destruct H]|].
    + symmetry in H. revert H. apply finish_line_differs. auto.
    + apply in_app_or in H as [H | H].
      * destruct H as [H | [H | []]]; symmetry in H; revert H;
          apply finish_line_differs; auto 6.
      * destruct (_remote_path s); [destruct H as [H | []] | destruct H].
        symmetry in H. revert H. apply finish_line_differs. auto 6.
  - destruct H as [H | []]. symmetry in H. revert H.
    apply finish_line_differs. auto 6.
Qed.

(** A computation that prints [Processing] and arrow lines only. *)
Lemma unfinished_writes d s m expected :
  writes s m expected ->
  Forall (fun x => startswith "P" x = true \/ startswith " " x = true) expected ->
  forall st, same_config s (self st) -> unfinished d st -> unfinished d (snd (m st)).
Proof.
  intros Hw Hall st Hc Hu. unfold unfinished in *.
  destruct (Hw st Hc) as (_ & l & -> & [t Hp] & _).
  intros H. apply in_app_or in H as [H | H]; [exact (Hu H)|].
  rewrite Forall_forall in Hall.
  assert (Hin : In (finish_line d) expected) by (rewrite Hp; apply in_or_app; auto).
  apply list_elem_of_In, Hall in Hin.
  destruct d; simpl in Hin; destruct Hin; discriminate.
Qed.

Lemma unfinished_create W d path v :
  stable (unfinished d) (create_directory_in_synapse W path v).
Proof.
  intros st. apply (unfinished_writes d (self st) _ _ (writes_create W _ path v)).
  - constructor; [left; reflexivity|]. constructor; [right; reflexivity|]. constructor.
  - apply same_config_refl.
Qed.

Lemma unfinished_upload W d local_file :
  stable (unfinished d) (upload_file_to_synapse W local_file).
Proof.
  intros st. apply (unfinished_writes d (self st) _ _ (writes_upload W _ local_file)).
  - constructor; [left; reflexivity|]. constructor; [right; reflexivity|]. constructor.
  - apply same_config_refl.
Qed.

(** [mirror] prints the completion line last, and only when it returns. *)
Lemma mirror_finish W d st :
  unfinished d st ->
  (fst (mirror W d st) = Ok tt
   /\ exists out, stdout (snd (mirror W d st)) = (out ++ [finish_line d])%list
                  /\ unfinished d (mkState (self st) out []))
  \/ ((exists e, fst (mirror W d st) = Raise e) /\ unfinished d (snd (mirror W d st))).
Proof.
  intros Hu. unfold mirror.
  pose proof (stable_create_remote_path W _ (unfinished_create W d) st Hu) as H1.
  destruct (create_remote_path W st) as [[[] | e] st1] eqn:E1;
    [rewrite (bind_Ok _ _ _ _ _ E1) | rewrite (bind_Raise _ _ _ _ _ E1); right; eauto].
  simpl in H1.
  pose proof (stable_upload_tree W _ (unfinished_create W d) (unfinished_upload W d)
                st1 H1) as H2.
  destruct (upload_tree W st1) as [[[] | e] st2] eqn:E2;
    [rewrite (bind_Ok _ _ _ _ _ E2) | rewrite (bind_Raise _ _ _ _ _ E2); right; eauto].
  simpl in H2. left. split; [destruct d; reflexivity|].
  exists (stdout st2). split; [destruct d; reflexivity | exact H2].
Qed.

Lemma stdout_grows_mirror W d out :
  stable (fun st => out `prefix_of` stdout st) (mirror W d).
Proof.
  apply stable_mirror.
  - intros line st H. simpl. apply prefix_app_r, H.
  - intros path v st H.
    destruct (writes_create W (self st) path v st (same_config_refl _))
      as (_ & l & -> & _).
    apply prefix_app_r, H.
  - intros f st H.
    destruct (writes_upload W (self st) f st (same_config_refl _))
      as (_ & l & -> & _).
    apply prefix_app_r, H.
Qed.

(** X8: the frame of the console.  Every run first prints the header (the
    dry-run banner if the run is one, the project, the directory, the
    remote path if there is one) and the login line, whatever happens
    next; the completion line is on the console if and only if the run
    returned, and it is then the last line. *)
Theorem console_frame :
  forall (W : World) (synapse_project local_path : string)
         (remote_path : option string) (dry_run : bool),
    let r := run W synapse_project local_path remote_path dry_run in
    let s := __init__ synapse_project local_path remote_path dry_run in
    (header_lines s ++ ["Logging into Synapse..."])%list `prefix_of` stdout (snd r)
    /\ (fst r = Ok tt <-> In (finish_line dry_run) (stdout (snd r)))
    /\ (fst r = Ok tt -> last (stdout (snd r)) = Some (finish_line dry_run)).
Proof.
  intros W p l rp d. cbv zeta. rewrite run_eq. cbv zeta.
  set (s := __init__ p l rp d).
  assert (Hfail : forall e s' calls,
             let x := (Raise e : Outcome unit,
                       mkState s' (header_lines s ++ ["Logging into Synapse..."])%list
                               calls) in
             (header_lines s ++ ["Logging into Synapse..."])%list `prefix_of` stdout (snd x)
             /\ (fst x = Ok tt <-> In (finish_line d) (stdout (snd x)))
             /\ (fst x = Ok tt -> last (stdout (snd x)) = Some (finish_line d))).
  { intros e s' calls. cbv zeta. cbn [fst snd stdout].
    split; [reflexivity|]. split; [|discriminate].
    split; [discriminate|]. intros H.
    destruct (unfinished_header d s s' calls H). }
  destruct (environ W !! "SYNAPSE_USER") as [u|]; [|apply Hfail].
  destruct (environ W !! "SYNAPSE_PASSWORD") as [pw|]; [|apply Hfail].
  destruct (login_ok _ _ _ _); [|apply Hfail].
  destruct (get_result _ _ _) as [project|]; [|apply Hfail].
  split; [apply stdout_grows_mirror; reflexivity|].
  destruct (mirror_finish W d (logged_in s u pw project))
    as [(Hok & out & Hout & _) | ((e & He) & Hu)];
    [apply unfinished_header| |].
  - rewrite Hok, Hout. split.
    + split; [intros _; apply in_or_app; right; left; reflexivity | reflexivity].
    + intros _. apply last_snoc.
  - rewrite He. split; [|discriminate].
    split; [discriminate | intros H; destruct (Hu H)].
Qed.

(** ** The client calls of a computation *)

Lemma stored_app l1 l2 : stored (l1 ++ l2) = (stored l1 ++ stored l2)%list.
Proof. apply flat_map_app. Qed.

Lemma when_real_app {A} s (l1 l2 : list A) :
  (when_real s l1 ++ when_real s l2)%list = when_real s (l1 ++ l2)%list.
Proof. unfold when_real. destruct (_dry_run s); reflexivity. Qed.

Lemma when_real_nil {A} s : when_real s (@nil A) = [].
Proof. unfold when_real. destruct (_dry_run s); reflexivity. Qed.

Lemma when_real_flat_map {A B} s (f : A -> list B) (l : list A) :
  flat_map (fun x => when_real s (f x)) l = when_real s (flat_map f l).
Proof.
  unfold when_real. destruct (_dry_run s); [apply flat_map_nil | reflexivity].
Qed.

Section Asks.
Variable W : World.
Variable s : SynapseUploader.

Lemma asks_ret : asks s (ret tt) [].
Proof.
  intros st H. split; [exact H|]. exists []. simpl.
  rewrite app_nil_r. auto.
Qed.

Lemma asks_print line : asks s (print line) [].
Proof.
  intros st H. split; [exact H|]. exists []. simpl.
  rewrite app_nil_r. auto.
Qed.

Lemma asks_bind m1 m2 e1 e2 :
  asks s m1 e1 -> asks s m2 e2 -> asks s (m1 ;; m2) (e1 ++ e2)%list.
Proof.
  intros H1 H2 st Hc. unfold bind.
  destruct (H1 st Hc) as (Hc1 & l1 & Ho1 & Hs1 & Hp1 & Hok1).
  destruct (m1 st) as [[[] | e] st1]; simpl in *.
  - destruct (H2 st1 Hc1) as (Hc2 & l2 & Ho2 & Hs2 & Hp2 & Hok2).
    split; [exact Hc2|]. exists (l1 ++ l2)%list.
    rewrite Ho2, Ho1, app_assoc, stored_app, (Hok1 eq_refl).
    split; [reflexivity|]. split; [apply Forall_app; auto|].
    split; [apply prefix_app, Hp2|].
    intros Hok. rewrite (Hok2 Hok). reflexivity.
  - split; [exact Hc1|]. exists l1. split; [exact Ho1|]. split; [exact Hs1|].
    split; [apply prefix_app_r, Hp1 | discriminate].
Qed.

Lemma asks_for_each {A} (l : list A) (body : A -> M unit)
    (f : A -> list (EntityType * string)) :
  (forall x, asks s (body x) (f x)) -> asks s (for_each l body) (flat_map f l).
Proof.
  intros Hb. induction l as [|x l IH]; simpl.
  - apply asks_ret.
  - apply asks_bind; auto.
Qed.

Lemma asks_read {A} (f : SynapseUploader -> A) (k : A -> M unit) expected :
  (forall s', same_config s s' -> f s' = f s) ->
  asks s (k (f s)) expected ->
  asks s (let* x := read f in k x) expected.
Proof.
  intros Hf Hk st Hc. unfold bind, read. rewrite (Hf _ Hc). apply Hk, Hc.
Qed.

(** One call: a [store] of an entity of type [t] named [n]. *)
Lemma asks_one (st st' : State) (o : Outcome unit) e :
  same_config s (self st') ->
  requests st' = (requests st ++ [Store e])%list ->
  same_config s (self (snd (o, st')))
  /\ exists l, requests (snd (o, st')) = (requests st ++ l)%list
               /\ Forall (fun q => is_store q = true) l
               /\ stored l `prefix_of` [(ent_type e, ent_name e)]
               /\ (fst (o, st') = Ok tt -> stored l = [(ent_type e, ent_name e)]).
Proof.
  intros Hc Hr. split; [exact Hc|]. exists [Store e]. simpl.
  split; [exact Hr|]. split; [repeat constructor|]. split; [reflexivity | auto].
Qed.

(** No call. *)
Lemma asks_none (st st' : State) (o : Outcome unit) expected :
  same_config s (self st') ->
  requests st' = requests st ->
  (o = Ok tt -> expected = []) ->
  same_config s (self (snd (o, st')))
  /\ exists l, requests (snd (o, st')) = (requests st ++ l)%list
               /\ Forall (fun q => is_store q = true) l
               /\ stored l `prefix_of` expected
               /\ (fst (o, st') = Ok tt -> stored l = expected).
Proof.
  intros Hc Hr He. split; [exact Hc|]. exists []. simpl.
  rewrite app_nil_r. split; [exact Hr|]. split; [constructor|].
  split; [apply prefix_nil|]. intros Ho. symmetry. apply He, Ho.
Qed.

Lemma asks_create path v :
  asks s (create_directory_in_synapse W path v) (when_real s [folder_store s v path]).
Proof.
  intros st Hc. rewrite create_directory_in_synapse_eq. cbv zeta.
  rewrite (get_synapse_path_same_config _ _ _ _ Hc).
  unfold when_real. destruct Hc as (Hd & Hrest). rewrite Hd.
  assert (Hc : same_config s (self st)) by (split; assumption).
  destruct (_synapse_folders (self st) !! _) as [parent|];
    [|apply asks_none; [exact Hc | reflexivity | discriminate]].
  destruct (Folder _ parent) as [folder|] eqn:Ef;
    [|apply asks_none; [exact Hc | reflexivity | discriminate]].
  destruct (_dry_run (self st)); [apply asks_none; auto|].
  destruct (_synapse_client (self st));
    [|apply asks_none; [exact Hc | reflexivity | discriminate]].
  apply Folder_inv in Ef as [-> _].
  destruct (store_result _ _ _);
    apply (asks_one st _ _ (mkEntity FolderT (basename (get_synapse_path s path v))
                                     (ent_id parent) None));
    try exact Hc; reflexivity.
Qed.

Lemma asks_upload local_file :
  asks s (upload_file_to_synapse W local_file) (when_real s [(FileT, local_file)]).
Proof.
  intros st Hc. rewrite upload_file_to_synapse_eq. cbv zeta.
  unfold when_real. destruct Hc as (Hd & Hrest). rewrite Hd.
  assert (Hc : same_config s (self st)) by (split; assumption).
  destruct (_synapse_folders (self st) !! _) as [parent|];
    [|apply asks_none; [exact Hc | reflexivity | discriminate]].
  destruct (_dry_run (self st)); [apply asks_none; auto|].
  destruct (_synapse_client (self st));
    [|apply asks_none; [exact Hc | reflexivity | discriminate]].
  destruct (File local_file parent) as [file|] eqn:Ef;
    [|apply asks_none; [exact Hc | reflexivity | discriminate]].
  apply File_inv in Ef as [-> _].
  destruct (store_result _ _ _);
    apply (asks_one st _ _ (mkEntity FileT local_file (ent_id parent) None));
    try exact Hc; reflexivity.
Qed.

Lemma asks_visit entry : asks s (visit W entry) (when_real s (visit_stores s entry)).
Proof.
  destruct entry as [[dirpath ds] filenames]. unfold visit, visit_stores, filepaths_of.
  simpl dirpath_of. simpl snd. rewrite <- when_real_app.
  apply (asks_read _local_path); [intros s' (_ & _ & <- & _); reflexivity|].
  apply asks_bind.
  - destruct (negb _); [apply asks_create | rewrite when_real_nil; apply asks_ret].
  - rewrite map_map, <- flat_map_singleton, <- when_real_flat_map.
    apply asks_for_each. intros f. apply asks_upload.
Qed.

Lemma asks_upload_tree :
  asks s (upload_tree W)
       (when_real s (flat_map (visit_stores s) (os_walk W (_local_path s)))).
Proof.
  unfold upload_tree. rewrite <- when_real_flat_map.
  apply (asks_read _local_path); [intros s' (_ & _ & <- & _); reflexivity|].
  apply asks_for_each, asks_visit.
Qed.

Lemma asks_create_remote_folders folders :
  forall full_path,
    asks s (create_remote_folders W full_path folders)
         (when_real s (map (folder_store s true) (full_paths full_path folders))).
Proof.
  induction folders as [|x folders IH]; intros full_path; simpl.
  - unfold when_real. destruct (_dry_run s); apply asks_ret.
  - match goal with
    | |- asks _ _ (when_real _ (?a :: ?l)) => change (a :: l) with ([a] ++ l)%list
    end.
    rewrite <- when_real_app.
    apply asks_bind; [apply asks_create | apply IH].
Qed.

Lemma asks_create_remote_path :
  asks s (create_remote_path W)
       (when_real s (map (folder_store s true) (remote_folder_paths s))).
Proof.
  unfold create_remote_path, remote_folder_paths.
  apply (asks_read _remote_path); [intros s' (_ & _ & _ & <-); reflexivity|].
  destruct (_remote_path s) as [rp|].
  - apply asks_create_remote_folders.
  - unfold when_real. destruct (_dry_run s); apply asks_ret.
Qed.

Lemma asks_mirror d : asks s (mirror W d) (when_real s (mirror_stores W s)).
Proof.
  unfold mirror, mirror_stores. rewrite <- when_real_app.
  apply asks_bind; [apply asks_create_remote_path|].
  rewrite <- (app_nil_r (when_real s (flat_map _ _))).
  apply asks_bind; [apply asks_upload_tree|].
  destruct d; apply asks_print.
Qed.
End Asks.

(** ** What a run stores *)

(** X9: what a run stores.  The entities that a real run stores are, in
    this order, a folder for each cumulative path of the remote path, named
    by its last segment, then for each directory of the walk a folder named
    by the last segment of its remote path (none for the local root) and a
    file for each of its files, named by its local path.  A run that does
    not return has stored an initial part of this list; a run that returns
    has stored all of it, after the three calls that open the client, log
    in and fetch the project, and has made no other call.  A dry run
    stores nothing. *)
Theorem run_stores_the_walk_in_order :
  forall (W : World) (synapse_project local_path : string)
         (remote_path : option string) (dry_run : bool),
    let r := run W synapse_project local_path remote_path dry_run in
    let s := __init__ synapse_project local_path remote_path dry_run in
    let expected := if dry_run then [] else mirror_stores W s in
    stored (requests (snd r)) `prefix_of` expected
    /\ (fst r = Ok tt ->
        stored (requests (snd r)) = expected
        /\ exists user password calls,
             requests (snd r)
             = (opening_calls user password synapse_project ++ calls)%list
             /\ Forall (fun q => is_store q = true) calls).
Proof.
  intros W p l rp d. cbv zeta. rewrite run_eq. cbv zeta.
  set (s := __init__ p l rp d).
  destruct (environ W !! "SYNAPSE_USER") as [u|];
    [|split; [apply prefix_nil | discriminate]].
  destruct (environ W !! "SYNAPSE_PASSWORD") as [pw|];
    [|split; [apply prefix_nil | discriminate]].
  destruct (login_ok _ _ _ _); [|split; [apply prefix_nil | discriminate]].
  destruct (get_result _ _ _) as [project|];
    [|split; [apply prefix_nil | discriminate]].
  destruct (asks_mirror W s d (logged_in s u pw project))
    as (_ & calls & Hr & Hs & Hp & Hok); [repeat split|].
  rewrite Hr, stored_app. change (stored (requests (logged_in s u pw project))) with
    (@nil (EntityType * string)).
  change (if d then [] else mirror_stores W s) with (when_real s (mirror_stores W s)).
  split; [exact Hp|]. intros H. split; [apply Hok, H|].
  exists u, pw, calls. split; [reflexivity | exact Hs].
Qed.

(** ** Nothing before the project is there *)

Lemma upload_file_keeps_self W local_file st :
  self (snd (upload_file_to_synapse W local_file st)) = self st.
Proof.
  rewrite upload_file_to_synapse_eq. cbv zeta.
  destruct (_ !! _); [|reflexivity].
  destruct (_dry_run (self st)); [reflexivity|].
  destruct (_synapse_client (self st)); [|reflexivity].
  destruct (File _ _); [|reflexivity].
  destruct (store_result _ _ _); reflexivity.
Qed.

Lemma stable_keys_mirror W (K : gset string) d :
  stable (fun st => K ⊆ dom (_synapse_folders (self st))) (mirror W d).
Proof.
  apply stable_mirror.
  - intros line st H. exact H.
  - apply stable_keys.
  - intros f st H. rewrite upload_file_keeps_self. exact H.
Qed.

(** X10: nothing is mirrored before the project is there.  If a run has
    printed a [Processing] line, or stored anything, or has a key in its
    folder cache, then both credentials were in the environment, the
    service accepted the login and returned the project; the first calls of
    the run are the three that open the client, log in and fetch the
    project, and the project is a key of the cache. *)
Theorem nothing_is_mirrored_before_the_project_is_there :
  forall (W : World) (synapse_project local_path : string)
         (remote_path : option string) (dry_run : bool),
    let r := run W synapse_project local_path remote_path dry_run in
    processing_lines (stdout (snd r)) <> []
    \/ existsb is_store (requests (snd r)) = true
    \/ _synapse_folders (self (snd r)) <> ∅ ->
    exists user password project,
      environ W !! "SYNAPSE_USER" = Some user
      /\ environ W !! "SYNAPSE_PASSWORD" = Some password
      /\ login_ok (synapse W) [NewClient] user password = true
      /\ get_result (synapse W) [NewClient; Login user password]
                    (Project synapse_project) = Some project
      /\ opening_calls user password synapse_project `prefix_of` requests (snd r)
      /\ synapse_project ∈ dom (_synapse_folders (self (snd r))).
Proof.
  intros W p l rp d. cbv zeta. rewrite run_eq. cbv zeta.
  set (s := __init__ p l rp d).
  assert (Hfail : forall s' calls,
             let st := mkState s' (header_lines s ++ ["Logging into Synapse..."])%list
                               calls in
             processing_lines (stdout st) <> []
             \/ existsb is_store (requests st) = true
             \/ _synapse_folders (self st) <> ∅ ->
             _synapse_folders s' = ∅ -> existsb is_store calls = false -> False).
  { intros s' calls. cbv zeta. cbn [stdout requests self].
    rewrite processing_lines_header. intros H Hs Hc. rewrite Hs, Hc in H.
    destruct H as [H | [H | H]];
      [destruct H; reflexivity | discriminate | destruct H; reflexivity]. }
  destruct (environ W !! "SYNAPSE_USER") as [u|] eqn:Hu;
    [|intros H; destruct (Hfail _ _ H eq_refl eq_refl)].
  destruct (environ W !! "SYNAPSE_PASSWORD") as [pw|] eqn:Hpw;
    [|intros H; destruct (Hfail _ _ H eq_refl eq_refl)].
  destruct (login_ok _ _ _ _) eqn:Hlogin;
    [|intros H; destruct (Hfail _ _ H eq_refl eq_refl)].
  destruct (get_result _ _ _) as [project|] eqn:Hget;
    [|intros H; destruct (Hfail _ _ H eq_refl eq_refl)].
  intros _. exists u, pw, project.
  do 2 (split; [reflexivity|]). split; [exact Hlogin|]. split; [exact Hget|]. split.
  - destruct (asks_mirror W s d (logged_in s u pw project))
      as (_ & calls & Hr & _); [repeat split|].
    rewrite Hr. apply prefix_app_r. reflexivity.
  - apply (stable_keys_mirror W {[p]} d (logged_in s u pw project)).
    + simpl. rewrite dom_insert_L. apply union_subseteq_l.
    + apply elem_of_singleton. reflexivity.
Qed.

Lemma nothing_is_mirrored_before_the_project_is_there_witness :
  exists user password project,
    environ exp1_world !! "SYNAPSE_USER" = Some user
    /\ environ exp1_world !! "SYNAPSE_PASSWORD" = Some password
    /\ login_ok (synapse exp1_world) [NewClient] user password = true
    /\ get_result (synapse exp1_world) [NewClient; Login user password]
                  (Project "syn111") = Some project
    /\ opening_calls user password "syn111"
         `prefix_of` requests (snd (run exp1_world "syn111" "/data/exp1" None false))
    /\ "syn111" ∈ dom (_synapse_folders
                         (self (snd (run exp1_world "syn111" "/data/exp1" None false)))).
Proof.
  apply (nothing_is_mirrored_before_the_project_is_there
           exp1_world "syn111" "/data/exp1" None false).
  right. left. vm_compute. reflexivity.
Defined.

(** ** How a run fails *)

Section Fails.
Variable W : World.
Variable Q : exn -> State -> Prop.
Hypothesis Q_create : forall path v, fails_with Q (create_directory_in_synapse W path v).
Hypothesis Q_upload : forall local_file, fails_with Q (upload_file_to_synapse W local_file).

Lemma fails_ret {A} (a : A) : fails_with Q (ret a).
Proof. intros st e H. discriminate. Qed.

Lemma fails_bind {A B} (m : M A) (k : A -> M B) :
  fails_with Q m -> (forall a, fails_with Q (k a)) -> fails_with Q (bind m k).
Proof.
  intros Hm Hk st e. unfold bind. specialize (Hm st).
  destruct (m st) as [[a | e'] st1]; [apply Hk|].
  intros [= <-]. apply Hm. reflexivity.
Qed.

Lemma fails_for_each {A} (l : list A) (body : A -> M unit) :
  (forall x, fails_with Q (body x)) -> fails_with Q (for_each l body).
Proof.
  intros Hb. induction l as [|x l IH]; simpl.
  - apply fails_ret.
  - apply fails_bind; auto.
Qed.

Lemma fails_read {A B} (f : SynapseUploader -> A) (k : A -> M B) :
  (forall a, fails_with Q (k a)) -> fails_with Q (bind (read f) k).
Proof. intros Hk. apply fails_bind; [intros st e H; discriminate | exact Hk]. Qed.

Lemma fails_print line : fails_with Q (print line).
Proof. intros st e H. discriminate. Qed.

Lemma fails_create_remote_folders folders :
  forall full_path, fails_with Q (create_remote_folders W full_path folders).
Proof.
  induction folders as [|x folders IH]; intros full_path; simpl.
  - apply fails_ret.
  - apply fails_bind; [apply Q_create | intros _; apply IH].
Qed.

Lemma fails_mirror d : fails_with Q (mirror W d).
Proof.
  unfold mirror. apply fails_bind.
  { unfold create_remote_path. apply fails_read. intros [rp|].
    - apply fails_create_remote_folders.
    - apply fails_ret. }
  intros _. apply fails_bind; [|intros _; destruct d; apply fails_print].
  unfold upload_tree. apply fails_read. intros local_path.
  apply fails_for_each. intros [[dirpath ds] filenames]. unfold visit.
  apply fails_read. intros root. apply fails_bind.
  - destruct (negb _); [apply Q_create | apply fails_ret].
  - intros _. apply fails_for_each. intros f. apply Q_upload.
Qed.
End Fails.

Lemma failure_create W path v :
  fails_with failure (create_directory_in_synapse W path v).
Proof.
  intros st e. rewrite create_directory_in_synapse_eq. cbv zeta.
  destruct (_synapse_folders (self st) !! _) as [parent|] eqn:El.
  - destruct (Folder _ parent) as [folder|] eqn:Ef.
    + destruct (_dry_run (self st)) eqn:Ed; [discriminate|].
      destruct (_synapse_client (self st)) eqn:Ec.
      * destruct (store_result _ _ _); [discriminate|].
        intros [= <-]. simpl.
        split; [apply last_snoc|]. split; [reflexivity|]. split; [exact Ed|].
        eexists. apply last_snoc.
      * intros [= <-]. exact Ec.
    + intros [= <-]. simpl. eexists _, parent.
      split; [apply last_snoc|]. split; [exact El | exact (Folder_None _ _ Ef)].
  - intros [= <-]. simpl. split; [apply not_elem_of_dom, El|].
    exists path, v. split; [left; apply last_snoc | reflexivity].
Qed.

Lemma failure_upload W local_file :
  fails_with failure (upload_file_to_synapse W local_file).
Proof.
  intros st e. rewrite upload_file_to_synapse_eq. cbv zeta.
  destruct (_synapse_folders (self st) !! _) as [parent|] eqn:El.
  - destruct (_dry_run (self st)) eqn:Ed; [discriminate|].
    destruct (_synapse_client (self st)) eqn:Ec.
    + destruct (File _ parent) as [file|] eqn:Ef.
      * destruct (store_result _ _ _); [discriminate|].
        intros [= <-]. simpl.
        split; [apply last_snoc|]. split; [reflexivity|]. split; [exact Ed|].
        eexists. apply last_snoc.
      * intros [= <-]. simpl. eexists _, parent.
        split; [apply last_snoc|]. split; [exact El | exact (File_None _ _ Ef)].
    + intros [= <-]. exact Ec.
  - intros [= <-]. simpl. split; [apply not_elem_of_dom, El|].
    exists local_file, false. split; [right; split; [reflexivity | apply last_snoc] | reflexivity].
Qed.

Lemma client_stays_mirror W d :
  stable (fun st => _synapse_client (self st) = true) (mirror W d).
Proof.
  apply stable_mirror.
  - intros line st H. exact H.
  - intros path v. apply stable_create.
    + intros line st H. exact H.
    + intros A r answer st H. unfold client_call. rewrite H.
      destruct (answer (requests st)); exact H.
    + intros k e st H. exact H.
  - intros f st H. rewrite upload_file_keeps_self. exact H.
Qed.

(** X11: how a run fails.  A run that raises [KeyError] either found a
    credential missing in the environment, and then made no call, or looked
    up the parent of the folder or file announced on the last console line
    under a key which is not in the folder cache; the exception carries
    the missing key.  A run that raises the error of the service made the
    refused call last; if this was a [store], the run is a real run and
    its last console line is the arrow line of the entry.  A run that
    raises the error of a malformed entity has printed the arrow line of
    an entry last, and the parent of this entry is in the folder cache
    without identifier.  A run never fails for want of a client. *)
Theorem run_failures :
  forall (W : World) (synapse_project local_path : string)
         (remote_path : option string) (dry_run : bool) (e : exn),
    let r := run W synapse_project local_path remote_path dry_run in
    fst r = Raise e ->
    match e with
    | KeyError k =>
        ((k = "SYNAPSE_USER" \/ k = "SYNAPSE_PASSWORD")
         /\ environ W !! k = None /\ requests (snd r) = [])
        \/ ((k ∉ dom (_synapse_folders (self (snd r)))) /\ announced_last (snd r) k)
    | SynapseError q =>
        last (requests (snd r)) = Some q
        /\ (is_store q = true ->
            dry_run = false
            /\ exists full, last (stdout (snd r)) = Some (arrow_line full))
    | AttributeError _ => False
    | SynapseMalformedEntityError =>
        exists full parent,
          last (stdout (snd r)) = Some (arrow_line full)
          /\ _synapse_folders (self (snd r)) !! dirname full = Some parent
          /\ ent_id parent = None
    end.
Proof.
  intros W p l rp d e. cbv zeta. rewrite run_eq. cbv zeta.
  set (s := __init__ p l rp d).
  destruct (environ W !! "SYNAPSE_USER") as [u|] eqn:Hu;
    [|intros [= <-]; left; auto].
  destruct (environ W !! "SYNAPSE_PASSWORD") as [pw|] eqn:Hpw;
    [|intros [= <-]; left; auto].
  destruct (login_ok _ _ _ _);
    [|intros [= <-]; split; [reflexivity | discriminate]].
  destruct (get_result _ _ _) as [project|];
    [|intros [= <-]; split; [reflexivity | discriminate]].
  intros H.
  pose proof (fails_mirror W failure (failure_create W) (failure_upload W) d _ _ H) as Hf.
  pose proof (client_stays_mirror W d (logged_in s u pw project) eq_refl) as Hc.
  pose proof (writes_mirror W (logged_in s u pw project).(self) (logged_in s u pw project)
                (same_config_refl _)) as ((Hd & _) & _).
  destruct e as [k | a | q |]; simpl in Hf.
  - right. exact Hf.
  - congruence.
  - destruct Hf as (Hl & Hs & Hdry & Hfull). split; [exact Hl|].
    intros _. split; [|exact Hfull].
    change (_dry_run (self (logged_in s u pw project))) with d in Hd. congruence.
  - exact Hf.
Qed.

Lemma run_failures_witness :
  let r := run exp1_world "syn111" "/data/exp1" (Some "results//run1") false in
  ((("syn111/results//run1" : string) = "SYNAPSE_USER"
    \/ ("syn111/results//run1" : string) = "SYNAPSE_PASSWORD")
   /\ environ exp1_world !! "syn111/results//run1" = None /\ requests (snd r) = [])
  \/ (("syn111/results//run1" ∉ dom (_synapse_folders (self (snd r))))
      /\ announced_last (snd r) "syn111/results//run1").
Proof.
  exact (run_failures exp1_world "syn111" "/data/exp1" (Some "results//run1") false
           (KeyError "syn111/results//run1") eq_refl).
Defined.

(** ** The handles of the parents *)

Lemma app_snoc_inv {A} (h rest l : list A) x y :
  (h ++ x :: rest = l ++ [y])%list ->
  (rest = [] /\ h = l /\ x = y)
  \/ exists rest', rest = (rest' ++ [y])%list /\ l = (h ++ x :: rest')%list.
Proof.
  intros H. destruct rest as [|z rest _] using rev_ind.
  - apply app_inj_tail in H as [-> ->]. auto.
  - right. exists rest.
    change (h ++ x :: rest ++ [z])%list with (h ++ (x :: rest) ++ [z])%list in H.
    rewrite app_assoc in H. apply app_inj_tail in H as [<- ->]. auto.
Qed.

Lemma handle_of_app W project calls more e :
  handle_of W project calls e -> handle_of W project (calls ++ more) e.
Proof.
  intros [-> | (h & f & rest & -> & Hs)]; [left; reflexivity|].
  right. exists h, f, (rest ++ more)%list. rewrite <- app_assoc. auto.
Qed.

(** A [store] whose parent is a handle of the cache keeps the run linked,
    whether the answer is cached or not. *)
Lemma linked_store W project st s' out e parent :
  linked W project st ->
  handle_of W project (requests st) parent ->
  ent_parent e = ent_id parent ->
  _dry_run s' = false ->
  (forall k x, _synapse_folders s' !! k = Some x ->
     _synapse_folders (self st) !! k = Some x
     \/ store_result (synapse W) (requests st) e = Some x) ->
  linked W project (mkState s' out (requests st ++ [Store e])%list).
Proof.
  intros (Hd & Hcache & Hcalls) Hp He Hd' Hnew. split; [exact Hd'|]. split.
  - intros k x Hk. cbn [self requests] in *. destruct (Hnew k x Hk) as [H | H].
    + apply handle_of_app, (Hcache k), H.
    + right. exists (requests st), e, []. auto.
  - intros h f rest H. cbn [requests] in H. symmetry in H.
    apply app_snoc_inv in H as [(-> & -> & [= ->]) | (rest' & -> & H)].
    + exists parent. auto.
    + apply (Hcalls h f rest'), H.
Qed.

Lemma linked_create W project path v :
  stable (linked W project) (create_directory_in_synapse W path v).
Proof.
  intros st H. rewrite create_directory_in_synapse_eq. cbv zeta.
  destruct (_synapse_folders (self st) !! _) as [parent|] eqn:El; [|exact H].
  destruct (Folder _ parent) as [folder|] eqn:Ef; [|exact H].
  apply Folder_inv in Ef as [-> _].
  pose proof H as (Hd & Hcache & Hcalls). rewrite Hd.
  destruct (_synapse_client (self st)); [|exact H].
  pose proof (Hcache _ _ El) as Hp.
  destruct (store_result _ _ _) as [x|] eqn:Es; simpl.
  - apply (linked_store W project st _ _ (mkEntity FolderT _ (ent_id parent) None)
             parent H Hp eq_refl); [exact Hd|].
    intros k y. cbn [_synapse_folders set_folders].
    destruct (decide (k = get_synapse_path (self st) path v)) as [-> | Hk].
    + rewrite lookup_insert_eq. intros [= <-]. right. exact Es.
    + rewrite lookup_insert_ne by congruence. auto.
  - apply (linked_store W project st _ _ (mkEntity FolderT _ (ent_id parent) None)
             parent H Hp eq_refl); auto.
Qed.

Lemma linked_upload W project local_file :
  stable (linked W project) (upload_file_to_synapse W local_file).
Proof.
  intros st H. rewrite upload_file_to_synapse_eq. cbv zeta.
  destruct (_synapse_folders (self st) !! _) as [parent|] eqn:El; [|exact H].
  pose proof H as (Hd & Hcache & Hcalls). rewrite Hd.
  destruct (_synapse_client (self st)); [|exact H].
  destruct (File _ parent) as [file|] eqn:Ef; [|exact H].
  apply File_inv in Ef as [-> _].
  pose proof (Hcache _ _ El) as Hp.
  destruct (store_result _ _ _) as [x|] eqn:Es; simpl;
    apply (linked_store W project st _ _ (mkEntity FileT _ (ent_id parent) None)
             parent H Hp eq_refl); auto.
Qed.

Lemma linked_mirror W project :
  stable (linked W project) (mirror W false).
Proof.
  apply stable_mirror.
  - intros line st H. exact H.
  - apply linked_create.
  - apply linked_upload.
Qed.

Lemma linked_logged_in W s user password project :
  _dry_run s = false -> _synapse_folders s = ∅ ->
  linked W project (logged_in s user password project).
Proof.
  intros Hd He. split; [exact Hd|]. split.
  - intros k e. cbn [logged_in self _synapse_folders set_folders]. rewrite He.
    intros H. apply lookup_insert_Some in H as [[_ <-] | [_ H]]; [left; reflexivity|].
    rewrite lookup_empty in H. discriminate.
  - intros h f rest. cbn [logged_in requests].
    destruct h as [|a [|b [|c [|x h]]]]; intros [=].
Qed.

(** X12: a real run builds the remote tree from the handles that the
    service returns.  Whatever entity the run stores, its parent is the
    identifier of the project as the service returned it, or the
    identifier of the answer of the service to a [store] made before. *)
Theorem stored_entities_hang_under_returned_handles :
  forall (W : World) (synapse_project local_path : string)
         (remote_path : option string)
         (h : list request) (f : Entity) (rest : list request),
    requests (snd (run W synapse_project local_path remote_path false))
    = (h ++ Store f :: rest)%list ->
    exists user password project parent,
      get_result (synapse W) [NewClient; Login user password]
                 (Project synapse_project) = Some project
      /\ handle_of W project h parent
      /\ ent_parent f = ent_id parent.
Proof.
  intros W p l rp h f rest. rewrite run_eq. cbv zeta.
  set (s := __init__ p l rp false).
  assert (Hno : forall calls : list request,
             calls = (h ++ Store f :: rest)%list ->
             existsb is_store calls = false -> False).
  { intros calls -> Hc. rewrite existsb_app in Hc. simpl in Hc.
    rewrite orb_true_r in Hc. discriminate. }
  destruct (environ W !! "SYNAPSE_USER") as [u|];
    [|intros H; destruct (Hno _ H eq_refl)].
  destruct (environ W !! "SYNAPSE_PASSWORD") as [pw|];
    [|intros H; destruct (Hno _ H eq_refl)].
  destruct (login_ok _ _ _ _); [|intros H; destruct (Hno _ H eq_refl)].
  destruct (get_result _ _ _) as [project|] eqn:Hget;
    [|intros H; destruct (Hno _ H eq_refl)].
  intros H.
  destruct (linked_mirror W project (logged_in s u pw project)
              (linked_logged_in W s u pw project eq_refl eq_refl))
    as (_ & _ & Hcalls).
  destruct (Hcalls h f rest H) as (parent & Hp & He).
  exists u, pw, project, parent. auto.
Qed.

Lemma stored_entities_hang_under_returned_handles_witness :
  exists user password project parent,
    get_result (synapse exp1_world) [NewClient; Login user password]
               (Project "syn111") = Some project
    /\ handle_of exp1_world project
         [NewClient; Login "user" "secret"; Get (Project "syn111");
          Store (mkEntity FileT "/data/exp1/b.txt" (Some "syn111") None)] parent
    /\ ent_parent (mkEntity FolderT "sub" (Some "syn111") None) = ent_id parent.
Proof.
  exact (stored_entities_hang_under_returned_handles
           exp1_world "syn111" "/data/exp1" None
           [NewClient; Login "user" "secret"; Get (Project "syn111");
            Store (mkEntity FileT "/data/exp1/b.txt" (Some "syn111") None)]
           (mkEntity FolderT "sub" (Some "syn111") None)
           [Store (mkEntity FileT "/data/exp1/sub/a.txt" (Some "siiii") None)]
           eq_refl).
Defined.

(** ** What a dry run tells of the real run *)

(** X13: what a dry run tells of the real run.  Unless the real run is
    stopped by the service refusing a [store], or by a handle that the
    service returned without identifier, the dry run of the same
    configuration in the same world ends with the same keys in the folder
    cache, and if it returns, its console is the console of the real run,
    arrow lines included, but for the banner in front and the completion
    line. *)
Theorem dry_run_predicts_the_real_run :
  forall (W : World) (synapse_project local_path : string)
         (remote_path : option string),
    let dry := run W synapse_project local_path remote_path true in
    let real := run W synapse_project local_path remote_path false in
    let s := __init__ synapse_project local_path remote_path false in
    (forall e, fst real <> Raise (SynapseError (Store e))) ->
    fst real <> Raise SynapseMalformedEntityError ->
    dom (_synapse_folders (self (snd dry))) = dom (_synapse_folders (self (snd real)))
    /\ (fst dry = Ok tt ->
        exists body,
          stdout (snd dry)
          = ("~~ Dry Run ~~" :: header_lines s ++ ["Logging into Synapse..."]
               ++ body ++ ["Dry Run Completed Successfully."])%list
          /\ stdout (snd real)
             = (header_lines s ++ ["Logging into Synapse..."]
                  ++ body ++ ["Upload Completed Successfully."])%list).
Proof.
  intros W p l rp. cbv zeta. rewrite !run_eq. cbv zeta.
  destruct (environ W !! "SYNAPSE_USER") as [u|];
    [|intros _ _; split; [reflexivity | discriminate]].
  destruct (environ W !! "SYNAPSE_PASSWORD") as [pw|];
    [|intros _ _; split; [reflexivity | discriminate]].
  destruct (login_ok _ _ _ _); [|intros _ _; split; [reflexivity | discriminate]].
  destruct (get_result _ _ _) as [project|];
    [|intros _ _; split; [reflexivity | discriminate]].
  set (sd := __init__ p l rp true). set (sr := __init__ p l rp false).
  intros Hreal Hid.
  destruct (proj2 (simulates_mirror W) _ _ (sim_logged_in p l rp u pw project))
    as [[He _] | [(_ & _ & _ & _ & _ & _ & Hdom & _) Hiff]];
    [destruct He as [[e He] | He]; [destruct (Hreal e He) | destruct (Hid He)]|].
  fold sd sr in Hdom, Hiff.
  split; [exact Hdom|]. intros Hok.
  destruct (writes_mirror W sd (logged_in sd u pw project)) as (_ & ld & Hd & _ & Hld);
    [repeat split|].
  destruct (writes_mirror W sr (logged_in sr u pw project)) as (_ & lr & Hr & _ & Hlr);
    [repeat split|].
  change (_dry_run sd) with true in *. change (_dry_run sr) with false in *.
  rewrite Hd, Hr, (Hld Hok), (Hlr (proj1 Hiff Hok)).
  exists (flat_map (folder_report sr true) (remote_folder_paths sr) ++ walk_lines W sr)%list.
  unfold mirror_lines. cbn [logged_in stdout]. rewrite <- !app_assoc.
  split; reflexivity.
Qed.

Lemma dry_run_predicts_the_real_run_witness :
  let dry := run exp1_world "syn111" "/data/exp1" (Some "results/run1") true in
  let real := run exp1_world "syn111" "/data/exp1" (Some "results/run1") false in
  let s := __init__ "syn111" "/data/exp1" (Some "results/run1") false in
  dom (_synapse_folders (self (snd dry))) = dom (_synapse_folders (self (snd real)))
  /\ (fst dry = Ok tt ->
      exists body,
        stdout (snd dry)
        = ("~~ Dry Run ~~" :: header_lines s ++ ["Logging into Synapse..."]
             ++ body ++ ["Dry Run Completed Successfully."])%list
        /\ stdout (snd real)
           = (header_lines s ++ ["Logging into Synapse..."]
                ++ body ++ ["Upload Completed Successfully."])%list).
Proof.
  apply (dry_run_predicts_the_real_run exp1_world "syn111" "/data/exp1"
           (Some "results/run1")).
  - intros e. vm_compute. discriminate.
  - vm_compute. discriminate.
Defined.

(** ** A local directory that is empty or not there *)

Lemma create_remote_path_none W st :
  _remote_path (self st) = None -> create_remote_path W st = (Ok tt, st).
Proof. intros H. unfold create_remote_path, bind, read. rewrite H. reflexivity. Qed.

Lemma upload_tree_empty W st :
  fs W (_local_path (self st)) = None
  \/ fs W (_local_path (self st)) = Some (Dir NoDirs []) ->
  upload_tree W st = (Ok tt, st).
Proof.
  intros H. unfold upload_tree, os_walk, bind, read.
  destruct H as [-> | ->]; [reflexivity|].
  simpl. unfold bind, read, ret. rewrite String.eqb_refl. reflexivity.
Qed.

(** X14: [os.walk] yields nothing for a directory that is not there, and
    the root alone for an empty one.  Run on such a directory without
    remote path, with the credentials in the environment and a service
    that accepts the login and returns the project, [start] makes its
    three opening calls, stores nothing, prints no [Processing] line and
    reports success. *)
Theorem empty_walk_reports_success :
  forall (W : World) (synapse_project local_path : string) (dry_run : bool)
         (user password : string) (project : Entity),
    let s := __init__ synapse_project local_path None dry_run in
    fs W (_local_path s) = None \/ fs W (_local_path s) = Some (Dir NoDirs []) ->
    environ W !! "SYNAPSE_USER" = Some user ->
    environ W !! "SYNAPSE_PASSWORD" = Some password ->
    login_ok (synapse W) [NewClient] user password = true ->
    get_result (synapse W) [NewClient; Login user password] (Project synapse_project)
    = Some project ->
    run W synapse_project local_path None dry_run
    = (Ok tt,
       mkState (set_folders (set_client s) (<[synapse_project := project]> ∅))
               (header_lines s ++ ["Logging into Synapse..."; finish_line dry_run])%list
               (opening_calls user password synapse_project)).
Proof.
  intros W p l d u pw project. cbv zeta. intros Hfs Hu Hpw Hlogin Hget.
  rewrite run_eq. cbv zeta. rewrite Hu, Hpw, Hlogin, Hget.
  set (s := __init__ p l None d) in *. unfold mirror.
  rewrite (bind_Ok _ _ _ _ _
             (create_remote_path_none W (logged_in s u pw project) eq_refl)).
  rewrite (bind_Ok _ _ _ _ _ (upload_tree_empty W (logged_in s u pw project) Hfs)).
  destruct d; unfold print; cbn [logged_in self stdout requests finish_line];
    rewrite <- app_assoc; reflexivity.
Qed.

Lemma empty_walk_reports_success_witness :
  let s := __init__ "syn111" "/nowhere" None true in
  run exp1_world "syn111" "/nowhere" None true
  = (Ok tt,
     mkState (set_folders (set_client s) (<["syn111" := Project "syn111"]> ∅))
             (header_lines s ++ ["Logging into Synapse..."; finish_line true])%list
             (opening_calls "user" "secret" "syn111")).
Proof.
  apply (empty_walk_reports_success exp1_world "syn111" "/nowhere" true
           "user" "secret" (Project "syn111")); [left|..]; reflexivity.
Defined.

(** ** The keys of the folder cache *)

Section Caches.
Variable W : World.
Variable s : SynapseUploader.

(** A step that leaves the uploader as it is. *)
Lemma caches_same (st st' : State) (o : Outcome unit) keys :
  same_config s (self st) ->
  self st' = self st ->
  (o = Ok tt -> keys = []) ->
  same_config s (self (snd (o, st')))
  /\ (forall k, holds_folder W k st -> holds_folder W k (snd (o, st')))
  /\ (fst (o, st') = Ok tt ->
      dom (_synapse_folders (self (snd (o, st'))))
      = dom (_synapse_folders (self st)) ∪ list_to_set keys
      /\ Forall (fun k => holds_folder W k (snd (o, st'))) keys).
Proof.
  intros Hc He Hk. cbn [fst snd]. unfold holds_folder. rewrite He.
  split; [exact Hc|]. split; [auto|].
  intros Ho. rewrite (Hk Ho). simpl. rewrite union_empty_r_L. auto.
Qed.

Lemma caches_ret : caches W s (ret tt) [].
Proof. intros st H. apply caches_same; auto. Qed.

Lemma caches_print line : caches W s (print line) [].
Proof. intros st H. apply caches_same; auto. Qed.

Lemma caches_bind m1 m2 k1 k2 :
  caches W s m1 k1 -> caches W s m2 k2 -> caches W s (m1 ;; m2) (k1 ++ k2)%list.
Proof.
  intros H1 H2 st Hc. unfold bind.
  destruct (H1 st Hc) as (Hc1 & Hf1 & Hd1).
  destruct (m1 st) as [[[] | e] st1]; simpl in *;
    [|split; [exact Hc1 | split; [exact Hf1 | discriminate]]].
  destruct (H2 st1 Hc1) as (Hc2 & Hf2 & Hd2). split; [exact Hc2|].
  split; [intros k Hk; apply Hf2, Hf1, Hk|].
  intros Hok. destruct (Hd2 Hok) as [E2 A2]. destruct (Hd1 eq_refl) as [E1 A1].
  split.
  - rewrite E2, E1, list_to_set_app_L, (assoc_L (∪)). reflexivity.
  - apply Forall_app. split; [|exact A2].
    apply (Forall_impl _ _ _ A1). intros k Hk. apply Hf2, Hk.
Qed.

Lemma caches_for_each {A} (l : list A) (body : A -> M unit) (f : A -> list string) :
  (forall x, caches W s (body x) (f x)) -> caches W s (for_each l body) (flat_map f l).
Proof.
  intros Hb. induction l as [|x l IH]; simpl.
  - apply caches_ret.
  - apply caches_bind; auto.
Qed.

Lemma caches_read {A} (f : SynapseUploader -> A) (k : A -> M unit) keys :
  (forall s', same_config s s' -> f s' = f s) ->
  caches W s (k (f s)) keys ->
  caches W s (let* x := read f in k x) keys.
Proof.
  intros Hf Hk st Hc. unfold bind, read. rewrite (Hf _ Hc). apply Hk, Hc.
Qed.

(** The cache after a folder has been put under [full]. *)
Lemma caches_insert st full e out calls :
  same_config s (self st) ->
  folder_handle W (_dry_run (self st)) full e ->
  let st' := mkState (set_folders (self st) (<[full := e]> (_synapse_folders (self st))))
                     out calls in
  same_config s (self (snd (Ok tt, st')))
  /\ (forall k, holds_folder W k st -> holds_folder W k (snd (Ok tt, st')))
  /\ (fst (Ok tt, st') = Ok tt ->
      dom (_synapse_folders (self (snd (Ok tt, st'))))
      = dom (_synapse_folders (self st)) ∪ list_to_set [full]
      /\ Forall (fun k => holds_folder W k (snd (Ok tt, st'))) [full]).
Proof.
  intros Hc He. cbv zeta. cbn [fst snd].
  assert (Hfull : holds_folder W full
                    (mkState (set_folders (self st)
                                (<[full := e]> (_synapse_folders (self st)))) out calls)).
  { exists e. split; [simpl; apply lookup_insert_eq | exact He]. }
  split; [exact Hc|]. split.
  - intros k (x & Hk & Hx). destruct (decide (k = full)) as [-> | Hne]; [exact Hfull|].
    exists x. split; [|exact Hx]. simpl. rewrite lookup_insert_ne by congruence. exact Hk.
  - intros _. split; [|repeat constructor; exact Hfull].
    simpl. rewrite dom_insert_L, union_empty_r_L. apply comm_L, _.
Qed.

Lemma caches_create path v :
  caches W s (create_directory_in_synapse W path v) [get_synapse_path s path v].
Proof.
  intros st Hc. rewrite create_directory_in_synapse_eq. cbv zeta.
  rewrite (get_synapse_path_same_config _ _ _ _ Hc).
  destruct (_synapse_folders (self st) !! _) as [parent|];
    [|apply caches_same; [exact Hc | reflexivity | discriminate]].
  destruct (Folder _ parent) as [folder|] eqn:Ef;
    [|apply caches_same; [exact Hc | reflexivity | discriminate]].
  apply Folder_inv in Ef as [-> [i Hi]]. rewrite Hi.
  destruct (_dry_run (self st)) eqn:Ed.
  - apply caches_insert; [exact Hc|]. rewrite Ed. exists i. reflexivity.
  - destruct (_synapse_client (self st));
      [|apply caches_same; [exact Hc | reflexivity | discriminate]].
    destruct (store_result _ _ _) as [e|] eqn:Es;
      [|apply caches_same; [exact Hc | reflexivity | discriminate]].
    apply caches_insert; [exact Hc|]. rewrite Ed. exists i. cbv zeta. eauto.
Qed.

Lemma caches_upload local_file : caches W s (upload_file_to_synapse W local_file) [].
Proof.
  intros st Hc.
  pose proof (upload_file_keeps_self W local_file st) as Hs.
  destruct (upload_file_to_synapse W local_file st) as [o st']. simpl in Hs.
  apply caches_same; auto.
Qed.

Lemma caches_visit entry : caches W s (visit W entry) (visit_keys s entry).
Proof.
  destruct entry as [[dirpath ds] filenames]. unfold visit, visit_keys.
  simpl dirpath_of.
  apply (caches_read _local_path); [intros s' (_ & _ & <- & _); reflexivity|].
  rewrite <- (app_nil_r (if negb _ then _ else _)).
  apply caches_bind.
  - destruct (negb _); [apply caches_create | apply caches_ret].
  - rewrite <- (flat_map_nil filenames). apply caches_for_each.
    intros f. apply caches_upload.
Qed.

Lemma caches_upload_tree :
  caches W s (upload_tree W) (flat_map (visit_keys s) (os_walk W (_local_path s))).
Proof.
  unfold upload_tree.
  apply (caches_read _local_path); [intros s' (_ & _ & <- & _); reflexivity|].
  apply caches_for_each, caches_visit.
Qed.

Lemma caches_create_remote_folders folders :
  forall full_path,
    caches W s (create_remote_folders W full_path folders)
           (map (fun c => get_synapse_path s c true) (full_paths full_path folders)).
Proof.
  induction folders as [|x folders IH]; intros full_path; simpl; [apply caches_ret|].
  apply (caches_bind _ _ [_]); [apply caches_create | apply IH].
Qed.

Lemma caches_create_remote_path :
  caches W s (create_remote_path W)
         (map (fun c => get_synapse_path s c true) (remote_folder_paths s)).
Proof.
  unfold create_remote_path, remote_folder_paths.
  apply (caches_read _remote_path); [intros s' (_ & _ & _ & <-); reflexivity|].
  destruct (_remote_path s) as [rp|]; [|apply caches_ret].
  apply caches_create_remote_folders.
Qed.

Lemma caches_mirror d :
  caches W s (mirror W d)
         (map (fun c => get_synapse_path s c true) (remote_folder_paths s)
          ++ flat_map (visit_keys s) (os_walk W (_local_path s)))%list.
Proof.
  unfold mirror. apply caches_bind; [apply caches_create_remote_path|].
  rewrite <- (app_nil_r (flat_map _ _)).
  apply caches_bind; [apply caches_upload_tree|].
  destruct d; apply caches_print.
Qed.
End Caches.

Lemma visit_keys_mirrored_dirs W s :
  flat_map (visit_keys s) (os_walk W (_local_path s))
  = map (fun d => get_synapse_path s d false) (mirrored_dirs W s).
Proof.
  unfold mirrored_dirs. induction (os_walk W (_local_path s)) as [|e l IH];
    [reflexivity|].
  cbn [flat_map map List.filter]. rewrite IH. unfold visit_keys at 1.
  destruct (negb _); reflexivity.
Qed.

(** X15: the folder cache of a run that has returned.  Its keys are the
    project, the remote paths of the cumulative paths of the remote path,
    and the remote paths of the directories of the walk other than the
    local root; files are never cached. *)
Theorem returned_run_cache_keys :
  forall (W : World) (synapse_project local_path : string)
         (remote_path : option string) (dry_run : bool),
    let r := run W synapse_project local_path remote_path dry_run in
    let s := __init__ synapse_project local_path remote_path dry_run in
    fst r = Ok tt ->
    dom (_synapse_folders (self (snd r)))
    = {[synapse_project]}
        ∪ list_to_set (map (fun c => get_synapse_path s c true) (remote_folder_paths s))
        ∪ list_to_set (map (fun d => get_synapse_path s d false) (mirrored_dirs W s)).
Proof.
  intros W p l rp d. cbv zeta. rewrite run_eq. cbv zeta.
  set (s := __init__ p l rp d).
  destruct (environ W !! "SYNAPSE_USER") as [u|]; [|discriminate].
  destruct (environ W !! "SYNAPSE_PASSWORD") as [pw|]; [|discriminate].
  destruct (login_ok _ _ _ _); [|discriminate].
  destruct (get_result _ _ _) as [project|]; [|discriminate].
  intros Hok.
  destruct (caches_mirror W s d (logged_in s u pw project)) as (_ & _ & Hd);
    [repeat split|].
  rewrite (proj1 (Hd Hok)), list_to_set_app_L, visit_keys_mirrored_dirs, (assoc_L (∪)).
  cbn [logged_in self set_folders _synapse_folders].
  rewrite dom_insert_L. change (_synapse_folders s) with (∅ : gmap string Entity).
  rewrite dom_empty_L, union_empty_r_L. reflexivity.
Qed.

Lemma returned_run_cache_keys_witness :
  let r := run exp1_world "syn111" "/data/exp1" (Some "results/run1") false in
  let s := __init__ "syn111" "/data/exp1" (Some "results/run1") false in
  dom (_synapse_folders (self (snd r)))
  = {["syn111"]}
      ∪ list_to_set (map (fun c => get_synapse_path s c true) (remote_folder_paths s))
      ∪ list_to_set (map (fun d => get_synapse_path s d false) (mirrored_dirs exp1_world s)).
Proof.
  apply (returned_run_cache_keys exp1_world "syn111" "/data/exp1"
           (Some "results/run1") false).
  vm_compute. reflexivity.
Defined.

(** ** The last segment of a key *)






Lemma filter_when_real {A} s (P : A -> bool) (l : list A) :
  List.filter P (when_real s l) = when_real s (List.filter P l).
Proof. unfold when_real. destruct (_dry_run s); reflexivity. Qed.

Lemma folder_stores_walk W s :
  List.filter is_folder (flat_map (visit_stores s) (os_walk W (_local_path s)))
  = map (folder_store s false) (mirrored_dirs W s).
Proof.
  unfold mirrored_dirs. induction (os_walk W (_local_path s)) as [|e l IH];
    [reflexivity|].
  cbn [flat_map map List.filter]. rewrite List.filter_app, IH.
  unfold visit_stores at 1. rewrite List.filter_app.
  assert (Hf : List.filter is_folder (map (fun f => (FileT, f)) (filepaths_of e)) = []).
  { induction (filepaths_of e) as [|f fs IHf]; [reflexivity | exact IHf]. }
  rewrite Hf, app_nil_r.
  destruct (negb (String.eqb (dirpath_of e) (_local_path s))); reflexivity.
Qed.

(** ** The folders of the remote path, root to leaf *)




(** ** The folders of the walk *)



(** ** The directories below the root, in a run *)

Lemma folder_lines_header s :
  folder_lines (header_lines s ++ ["Logging into Synapse..."]) = [].
Proof. unfold header_lines. destruct (_dry_run s), (_remote_path s); reflexivity. Qed.

Lemma folder_lines_folder_reports s v paths :
  folder_lines (flat_map (folder_report s v) paths) = map folder_line paths.
Proof.
  induction paths as [|c paths IH]; [reflexivity|].
  cbn [flat_map map]. unfold folder_lines in *. rewrite List.filter_app, IH.
  reflexivity.
Qed.

Lemma folder_lines_mirror_lines W s :
  folder_lines (mirror_lines W s)
  = map folder_line (remote_folder_paths s ++ mirrored_dirs W s).
Proof.
  unfold mirror_lines. unfold folder_lines at 1. rewrite !List.filter_app.
  fold (folder_lines (flat_map (folder_report s true) (remote_folder_paths s))).
  fold (folder_lines (walk_lines W s)).
  rewrite folder_lines_folder_reports, folder_lines_walk_lines, map_app.
  unfold finish_line. destruct (_dry_run s); simpl; rewrite app_nil_r; reflexivity.
Qed.

Lemma filter_folder_stores s v paths :
  List.filter is_folder (map (folder_store s v) paths) = map (folder_store s v) paths.
Proof. induction paths as [|c paths IH]; [reflexivity|]. simpl. rewrite IH. reflexivity. Qed.

(** X3: with proper names, the folders of a run that returns are those of
    the remote path and those of all the directories of the walk but the
    first, which is the local root: the folders announced on the console,
    the folders stored in a real run, and the keys of the folder cache. *)
Theorem walk_mirrors_the_directories_below_the_root :
  forall (W : World) (synapse_project local_path : string)
         (remote_path : option string) (dry_run : bool) (t : tree),
    let s := __init__ synapse_project local_path remote_path dry_run in
    let r := run W synapse_project local_path remote_path dry_run in
    let below := tail (map dirpath_of (walk (_local_path s) t)) in
    fs W (_local_path s) = Some t ->
    valid_tree t = true ->
    fst r = Ok tt ->
    folder_lines (stdout (snd r)) = map folder_line (remote_folder_paths s ++ below)
    /\ List.filter is_folder (stored (requests (snd r)))
       = (if dry_run then []
          else map (folder_store s true) (remote_folder_paths s)
               ++ map (folder_store s false) below)%list
    /\ dom (_synapse_folders (self (snd r)))
       = {[synapse_project]}
           ∪ list_to_set (map (fun c => get_synapse_path s c true) (remote_folder_paths s))
           ∪ list_to_set (map (fun d => get_synapse_path s d false) below).
Proof.
  intros W p l rp d t. cbv zeta. intros Hfs Hv. rewrite run_eq. cbv zeta.
  set (s := __init__ p l rp d) in *.
  pose proof (mirrored_dirs_below_root W s t (ends_with_sep_rstrip l) Hfs Hv) as Hbelow.
  destruct (environ W !! "SYNAPSE_USER") as [u|]; [|discriminate].
  destruct (environ W !! "SYNAPSE_PASSWORD") as [pw|]; [|discriminate].
  destruct (login_ok _ _ _ _); [|discriminate].
  destruct (get_result _ _ _) as [project|]; [|discriminate].
  intros Hok. rewrite <- Hbelow. split; [|split].
  - destruct (writes_mirror W s (logged_in s u pw project)) as (_ & out & Hout & _ & Hall);
      [repeat split|].
    change (mirror W (_dry_run s)) with (mirror W d) in Hout, Hall.
    rewrite Hout, (Hall Hok). unfold folder_lines at 1. rewrite List.filter_app.
    fold (folder_lines (stdout (logged_in s u pw project))).
    fold (folder_lines (mirror_lines W s)).
    cbn [logged_in stdout]. rewrite folder_lines_header, folder_lines_mirror_lines.
    reflexivity.
  - destruct (asks_mirror W s d (logged_in s u pw project))
      as (_ & calls & Hreq & _ & _ & Hall); [repeat split|].
    rewrite Hreq, stored_app, (Hall Hok).
    change (stored (requests (logged_in s u pw project)))
      with (@nil (EntityType * string)).
    cbn [app]. rewrite filter_when_real. unfold mirror_stores.
    rewrite List.filter_app, filter_folder_stores, folder_stores_walk. reflexivity.
  - destruct (caches_mirror W s d (logged_in s u pw project)) as (_ & _ & Hd);
      [repeat split|].
    rewrite (proj1 (Hd Hok)), list_to_set_app_L, visit_keys_mirrored_dirs, (assoc_L (∪)).
    cbn [logged_in self set_folders _synapse_folders].
    rewrite dom_insert_L. change (_synapse_folders s) with (∅ : gmap string Entity).
    rewrite dom_empty_L, union_empty_r_L. reflexivity.
Qed.

Lemma walk_mirrors_the_directories_below_the_root_witness :
  let s := __init__ "syn111" "/data/exp1/" (Some "results") false in
  let r := run exp1_world "syn111" "/data/exp1/" (Some "results") false in
  let below := tail (map dirpath_of (walk (_local_path s) exp1_tree)) in
  folder_lines (stdout (snd r)) = map folder_line (remote_folder_paths s ++ below)
  /\ List.filter is_folder (stored (requests (snd r)))
     = (map (folder_store s true) (remote_folder_paths s)
        ++ map (folder_store s false) below)%list
  /\ dom (_synapse_folders (self (snd r)))
     = {["syn111"]}
         ∪ list_to_set (map (fun c => get_synapse_path s c true) (remote_folder_paths s))
         ∪ list_to_set (map (fun d => get_synapse_path s d false) below).
Proof.
  apply (walk_mirrors_the_directories_below_the_root
           exp1_world "syn111" "/data/exp1/" (Some "results") false exp1_tree).
  - reflexivity.
  - reflexivity.
  - vm_compute. reflexivity.
Defined.
